(** * sheepdog-ng client library: volume (VDI) operations of lib/shared/vdi.c

    A shallow embedding of [lib/shared/vdi.c].  The functions that talk to
    the cluster ([lock_vdi], [unlock_vdi], [sd_vdi_open], [sd_vdi_close],
    [do_vdi_create], [write_object], [read_object], [find_vdi],
    [vdi_read_inode], [sd_vdi_snapshot], [sd_vdi_create], [sd_vdi_clone])
    are written as programs of a small state-and-failure monad over a
    [world] that holds the remote cluster, the heap of volume handles,
    [errno] and the ordered trace of every externally visible action
    (requests handed to [sd_run_sdreq], lines printed on stderr, handles
    freed).  [queue_request], which works on memory shared with other
    threads, is a sequence of atomic actions with an interleaving
    semantics.

    The headers [sheepdog.h] and [internal.h] are not part of the sources:
    their constants and helpers are the fields of the class [sd_proto], and
    what the transport behind [sd_run_sdreq] answers is a variable of the
    sections, so every statement holds for all of them.  Integers of the
    source are [Z]; the file compares and copies them and does no
    arithmetic on them.  The one place where a value is stored into a
    narrower member, the [uint32_t flags] of [write_object] into the
    16-bit [hdr.flags], is cut to the width of the member there. *)

From Stdlib Require Import ZArith String List Lia.
From stdpp Require Import base option gmap strings list fin_maps.

Local Open Scope Z_scope.

(** ** Protocol data *)

(** Operation codes stored in [hdr.opcode].  [SD_OP_NONE] is the value of a
    header right after [struct sd_req hdr = {}]. *)
Inductive sd_opcode : Type :=
| SD_OP_NONE
| SD_OP_CREATE_AND_WRITE_OBJ
| SD_OP_READ_OBJ
| SD_OP_WRITE_OBJ
| SD_OP_NEW_VDI
| SD_OP_LOCK_VDI
| SD_OP_RELEASE_VDI
| SD_OP_GET_VDI_INFO.

Global Instance sd_opcode_eq_dec : EqDecision sd_opcode.
Proof. solve_decision. Defined.

(** [struct sd_inode], restricted to the members this file reads.  The
    remaining members stay behind [inode_rest]. *)
Record sd_inode : Type := mk_inode {
  inode_name : string;
  inode_tag : string;
  inode_vdi_size : Z;
  inode_store_policy : Z;
  inode_vdi_id : Z;
  inode_rest : list Z
}.

(** The constants, macros and helpers that come from the headers and from
    the utility library. *)
Class sd_proto : Type := {
  SD_RES_SUCCESS : Z;
  SD_RES_INVALID_PARMS : Z;
  SD_RES_NO_TAG : Z;
  SD_FLAG_CMD_WRITE : Z;
  SD_FLAG_CMD_COW : Z;
  SD_FLAG_CMD_DIRECT : Z;
  SD_MAX_VDI_LEN : Z;
  SD_MAX_VDI_TAG_LEN : Z;
  SD_INODE_SIZE : Z;
  SD_INODE_HEADER_SIZE : Z;
  SD_MAX_VDI_SIZE : Z;
  SD_OLD_MAX_VDI_SIZE : Z;
  LOCK_TYPE_NORMAL : Z;
  (** [offsetof(struct sd_inode, tag)] *)
  offsetof_sd_inode_tag : Z;
  vid_to_vdi_oid : Z -> Z;
  vdi_is_snapshot : sd_inode -> bool;
  sd_strerr : Z -> string;
  (** [pstrcpy(buf, buf_size, str)]: what ends up in [buf] *)
  pstrcpy : Z -> string -> string
}.

(** [struct sd_req].  The members [obj] and [vdi] of its union are laid out
    side by side here; no function of the file sets both in one header. *)
Record sd_req : Type := mk_req {
  opcode : sd_opcode;
  flags : Z;
  data_length : Z;
  obj_oid : Z;
  obj_cow_oid : Z;
  obj_offset : Z;
  vdi_base_vdi_id : Z;
  vdi_snapid : Z;
  vdi_vdi_size : Z;
  vdi_store_policy : Z;
  vdi_type : Z
}.

(** [struct sd_req hdr = {}] *)
Definition sd_req_zero : sd_req :=
  mk_req SD_OP_NONE 0 0 0 0 0 0 0 0 0 0.

Definition set_opcode (v : sd_opcode) (h : sd_req) : sd_req :=
  mk_req v (flags h) (data_length h) (obj_oid h) (obj_cow_oid h)
    (obj_offset h) (vdi_base_vdi_id h) (vdi_snapid h) (vdi_vdi_size h)
    (vdi_store_policy h) (vdi_type h).
Definition set_flags (v : Z) (h : sd_req) : sd_req :=
  mk_req (opcode h) v (data_length h) (obj_oid h) (obj_cow_oid h)
    (obj_offset h) (vdi_base_vdi_id h) (vdi_snapid h) (vdi_vdi_size h)
    (vdi_store_policy h) (vdi_type h).
Definition set_data_length (v : Z) (h : sd_req) : sd_req :=
  mk_req (opcode h) (flags h) v (obj_oid h) (obj_cow_oid h)
    (obj_offset h) (vdi_base_vdi_id h) (vdi_snapid h) (vdi_vdi_size h)
    (vdi_store_policy h) (vdi_type h).
Definition set_obj_oid (v : Z) (h : sd_req) : sd_req :=
  mk_req (opcode h) (flags h) (data_length h) v (obj_cow_oid h)
    (obj_offset h) (vdi_base_vdi_id h) (vdi_snapid h) (vdi_vdi_size h)
    (vdi_store_policy h) (vdi_type h).
Definition set_obj_cow_oid (v : Z) (h : sd_req) : sd_req :=
  mk_req (opcode h) (flags h) (data_length h) (obj_oid h) v
    (obj_offset h) (vdi_base_vdi_id h) (vdi_snapid h) (vdi_vdi_size h)
    (vdi_store_policy h) (vdi_type h).
Definition set_obj_offset (v : Z) (h : sd_req) : sd_req :=
  mk_req (opcode h) (flags h) (data_length h) (obj_oid h) (obj_cow_oid h)
    v (vdi_base_vdi_id h) (vdi_snapid h) (vdi_vdi_size h)
    (vdi_store_policy h) (vdi_type h).
Definition set_vdi_base_vdi_id (v : Z) (h : sd_req) : sd_req :=
  mk_req (opcode h) (flags h) (data_length h) (obj_oid h) (obj_cow_oid h)
    (obj_offset h) v (vdi_snapid h) (vdi_vdi_size h)
    (vdi_store_policy h) (vdi_type h).
Definition set_vdi_snapid (v : Z) (h : sd_req) : sd_req :=
  mk_req (opcode h) (flags h) (data_length h) (obj_oid h) (obj_cow_oid h)
    (obj_offset h) (vdi_base_vdi_id h) v (vdi_vdi_size h)
    (vdi_store_policy h) (vdi_type h).
Definition set_vdi_vdi_size (v : Z) (h : sd_req) : sd_req :=
  mk_req (opcode h) (flags h) (data_length h) (obj_oid h) (obj_cow_oid h)
    (obj_offset h) (vdi_base_vdi_id h) (vdi_snapid h) v
    (vdi_store_policy h) (vdi_type h).
Definition set_vdi_store_policy (v : Z) (h : sd_req) : sd_req :=
  mk_req (opcode h) (flags h) (data_length h) (obj_oid h) (obj_cow_oid h)
    (obj_offset h) (vdi_base_vdi_id h) (vdi_snapid h) (vdi_vdi_size h)
    v (vdi_type h).
Definition set_vdi_type (v : Z) (h : sd_req) : sd_req :=
  mk_req (opcode h) (flags h) (data_length h) (obj_oid h) (obj_cow_oid h)
    (obj_offset h) (vdi_base_vdi_id h) (vdi_snapid h) (vdi_vdi_size h)
    (vdi_store_policy h) v.

(** [hdr.flags |= v] *)
Definition or_flags (v : Z) (h : sd_req) : sd_req :=
  set_flags (Z.lor (flags h) v) h.

(** [struct sd_rsp], the view of the header after the call: the
    operation-level [result] and [rsp->vdi.vdi_id]. *)
Record sd_rsp : Type := mk_rsp {
  result : Z;
  rsp_vdi_id : Z
}.

(** What the [data] pointer of [sd_run_sdreq] points at when the request
    leaves.  [DBuffer] is a receive buffer whose contents do not matter. *)
Inductive payload : Type :=
| DNull
| DName (vdi_name : string)
| DNameTag (name_field tag_field : string)
| DTag (tag : string)
| DBuffer.

(** What comes back from one [sd_run_sdreq]: its return value (the
    transport-level result), the header read as a response, and the data
    buffer read as a [struct sd_inode]. *)
Record reply : Type := mk_reply {
  ret_of : Z;
  rsp_of : sd_rsp;
  inode_of : sd_inode
}.

(** A cluster connection ([struct sd_cluster *]) and a volume handle
    ([struct sd_vdi *]) are addresses. *)
Definition sd_cluster : Type := nat.
Definition vdi_ptr : Type := positive.

Inductive rw_lock : Type :=
| RW_UNLOCKED
| RW_DESTROYED.

(** [struct sd_vdi].  The handle owns the inode buffer that [alloc_vdi]
    allocates; [None] is that buffer before anything was read into it. *)
Record sd_vdi : Type := mk_vdi {
  cluster : sd_cluster;
  inode : option sd_inode;
  vid : Z;
  name : option string;
  lock : rw_lock
}.

Definition set_vid (x : Z) (v : sd_vdi) : sd_vdi :=
  mk_vdi (cluster v) (inode v) x (name v) (lock v).
Definition set_inode (x : option sd_inode) (v : sd_vdi) : sd_vdi :=
  mk_vdi (cluster v) x (vid v) (name v) (lock v).
Definition set_lock (x : rw_lock) (v : sd_vdi) : sd_vdi :=
  mk_vdi (cluster v) (inode v) (vid v) (name v) x.

(** The test [!s || *s == '\0'] of the source fails exactly on the strings
    this function keeps. *)
Definition nonempty (s : option string) : option string :=
  match s with
  | Some EmptyString => None
  | Some str => Some str
  | None => None
  end.

(** How a [char *] argument reaches [sd_run_sdreq] as data. *)
Definition data_of_name (s : option string) : payload :=
  match s with
  | Some n => DName n
  | None => DNull
  end.

(** The conversion macro of [inttypes.h] for a 64-bit value in hexadecimal
    (LP64). *)
Definition PRIx64 : string := "lx".

Inductive fmt_arg : Type :=
| FStr (s : option string)
| FHex64 (x : Z).

(** The externally visible actions, in program order. *)
Inductive event : Type :=
| EvReq (c : sd_cluster) (hdr : sd_req) (data : payload)
| EvFprintf (fmt : string) (args : list fmt_arg)
| EvFree (p : vdi_ptr).

Definition is_req (e : event) : bool :=
  match e with EvReq _ _ _ => true | _ => false end.

(** The requests among the events, in order. *)
Definition requests (t : list event) : list event := List.filter is_req t.

Section Vdi.

Context `{proto : sd_proto}.

(** The cluster behind the transport: a state of type [remote] and the
    function that executes one request against it. *)
Variable remote : Type.
Variable sd_exec : remote -> sd_cluster -> sd_req -> payload -> reply * remote.

Record world : Type := mk_world {
  cluster_state : remote;
  heap : gmap vdi_ptr sd_vdi;
  errno : Z;
  trace : list event
}.

(** Programs: a state transformer that may get stuck ([None]) on a
    dereference of a pointer that is not live. *)
Definition M (A : Type) : Type := world -> option (A * world).

Definition ret {A} (a : A) : M A := fun w => Some (a, w).

Definition bind {A B} (m : M A) (k : A -> M B) : M B :=
  fun w => match m w with
           | Some (a, w') => k a w'
           | None => None
           end.

Notation "'do' x <- m ; k" := (bind m (fun x => k))
  (at level 10, x name, m at level 100, k at level 200).
Notation "'do_' m ; k" := (bind m (fun _ => k))
  (at level 10, m at level 100, k at level 200).

Definition emit (e : event) : M unit :=
  fun w => Some (tt, mk_world (cluster_state w) (heap w) (errno w)
                         (trace w ++ [e])).

Definition fprintf_stderr (fmt : string) (args : list fmt_arg) : M unit :=
  emit (EvFprintf fmt args).

Definition set_errno (v : Z) : M unit :=
  fun w => Some (tt, mk_world (cluster_state w) (heap w) v (trace w)).

(** [sd_run_sdreq(c, &hdr, data)] *)
Definition sd_run_sdreq (c : sd_cluster) (hdr : sd_req) (data : payload)
  : M reply :=
  fun w =>
    let '(r, s') := sd_exec (cluster_state w) c hdr data in
    Some (r, mk_world s' (heap w) (errno w) (trace w ++ [EvReq c hdr data])).

(** Heap access through a handle. *)
Definition load (p : vdi_ptr) : M sd_vdi :=
  fun w => match heap w !! p with
           | Some v => Some (v, w)
           | None => None
           end.

Definition store (p : vdi_ptr) (v : sd_vdi) : M unit :=
  fun w => match heap w !! p with
           | Some _ => Some (tt, mk_world (cluster_state w)
                                   (<[p := v]> (heap w)) (errno w) (trace w))
           | None => None
           end.

(** ** The functions of vdi.c *)

Definition lock_vdi (vdi : vdi_ptr) : M Z :=
  let hdr := sd_req_zero in
  let hdr := set_opcode SD_OP_LOCK_VDI hdr in
  let hdr := set_data_length SD_MAX_VDI_LEN hdr in
  let hdr := set_flags SD_FLAG_CMD_WRITE hdr in
  do v <- load vdi;
  do r <- sd_run_sdreq (cluster v) hdr (data_of_name (name v));
  if negb (ret_of r =? SD_RES_SUCCESS) then ret (ret_of r)
  else
    do v <- load vdi;
    do_ store vdi (set_vid (rsp_vdi_id (rsp_of r)) v);
    ret SD_RES_SUCCESS.

Definition unlock_vdi (vdi : vdi_ptr) : M Z :=
  let hdr := sd_req_zero in
  let hdr := set_opcode SD_OP_RELEASE_VDI hdr in
  let hdr := set_vdi_type LOCK_TYPE_NORMAL hdr in
  do v <- load vdi;
  let hdr := set_vdi_base_vdi_id (vid v) hdr in
  do r <- sd_run_sdreq (cluster v) hdr DNull;
  if negb (ret_of r =? SD_RES_SUCCESS) then ret (ret_of r)
  else ret SD_RES_SUCCESS.

(** [xzalloc] of the handle and [xmalloc] of its inode buffer: a fresh
    address, the members zeroed, then the assignments of the source. *)
Definition alloc_vdi (c : sd_cluster) (name : option string) : M vdi_ptr :=
  fun w =>
    let new := fresh (dom (heap w)) in
    Some (new, mk_world (cluster_state w)
                 (<[new := mk_vdi c None 0 name RW_UNLOCKED]> (heap w))
                 (errno w) (trace w)).

Definition free_vdi (vdi : vdi_ptr) : M unit :=
  do v <- load vdi;
  do_ store vdi (set_lock RW_DESTROYED v);
  fun w => Some (tt, mk_world (cluster_state w) (delete vdi (heap w))
                       (errno w) (trace w ++ [EvFree vdi])).

(** The two cleanup labels of [sd_vdi_open]. *)
Definition out_free (new : vdi_ptr) : M (option vdi_ptr) :=
  do_ free_vdi new;
  ret None.

Definition out_unlock (new : vdi_ptr) : M (option vdi_ptr) :=
  do _r <- unlock_vdi new;
  out_free new.

(** [NULL] is [None]. *)
Definition sd_vdi_open (c : sd_cluster) (name : option string)
  : M (option vdi_ptr) :=
  let hdr := sd_req_zero in
  do new <- alloc_vdi c name;
  do r <- lock_vdi new;
  if negb (r =? SD_RES_SUCCESS) then
    do_ set_errno r;
    out_free new
  else
    let hdr := set_opcode SD_OP_READ_OBJ hdr in
    let hdr := set_data_length SD_INODE_SIZE hdr in
    do v <- load new;
    let hdr := set_obj_oid (vid_to_vdi_oid (vid v)) hdr in
    let hdr := set_obj_offset 0 hdr in
    do r <- sd_run_sdreq c hdr DBuffer;
    do v <- load new;
    do_ store new (set_inode (Some (inode_of r)) v);
    if negb (ret_of r =? SD_RES_SUCCESS) then
      do_ set_errno (ret_of r);
      out_unlock new
    else if vdi_is_snapshot (inode_of r) then
      do_ set_errno SD_RES_INVALID_PARMS;
      out_unlock new
    else ret (Some new).

Definition sd_vdi_close (vdi : vdi_ptr) : M Z :=
  do r <- unlock_vdi vdi;
  if negb (r =? SD_RES_SUCCESS) then
    do v <- load vdi;
    do_ fprintf_stderr "failed to unlock %s\n" [FStr (name v)];
    ret r
  else
    do_ free_vdi vdi;
    ret 0.

(** The out-parameter [vdi_id] is a flag (is the pointer non-null) and the
    second component of the result (what is stored through it, if
    anything). *)
Definition do_vdi_create (c : sd_cluster) (name : option string)
    (vdi_size : Z) (base_vid : Z) (vdi_id : bool) (snapshot : bool)
    (store_policy : Z) : M (Z * option Z) :=
  let hdr := sd_req_zero in
  let hdr := set_opcode SD_OP_NEW_VDI hdr in
  let hdr := set_flags SD_FLAG_CMD_WRITE hdr in
  let hdr := set_data_length SD_MAX_VDI_LEN hdr in
  let hdr := set_vdi_base_vdi_id base_vid hdr in
  let hdr := set_vdi_snapid (if snapshot then 1 else 0) hdr in
  let hdr := set_vdi_vdi_size vdi_size hdr in
  let hdr := set_vdi_store_policy store_policy hdr in
  do r <- sd_run_sdreq c hdr (data_of_name name);
  if negb (ret_of r =? SD_RES_SUCCESS) then ret (ret_of r, None)
  else if vdi_id then ret (SD_RES_SUCCESS, Some (rsp_vdi_id (rsp_of r)))
  else ret (SD_RES_SUCCESS, None).

(** The argument [flags] is a [uint32_t] and [hdr.flags] a [uint16_t]: the
    store [hdr.flags = flags | SD_FLAG_CMD_WRITE] keeps the low 16 bits of
    the argument.  The flag constants are values of that member, so the
    cut leaves them as they are. *)
Definition write_object (c : sd_cluster) (oid cow_oid : Z) (data : payload)
    (datalen : Z) (offset : Z) (flags : Z) (create direct : bool) : M Z :=
  let hdr := sd_req_zero in
  let hdr := if create then set_opcode SD_OP_CREATE_AND_WRITE_OBJ hdr
             else set_opcode SD_OP_WRITE_OBJ hdr in
  let hdr := set_data_length datalen hdr in
  let hdr := set_flags (Z.lor (flags mod 2 ^ 16) SD_FLAG_CMD_WRITE) hdr in
  let hdr := if negb (cow_oid =? 0) then or_flags SD_FLAG_CMD_COW hdr
             else hdr in
  let hdr := if direct then or_flags SD_FLAG_CMD_DIRECT hdr else hdr in
  let hdr := set_obj_oid oid hdr in
  let hdr := set_obj_cow_oid cow_oid hdr in
  let hdr := set_obj_offset offset hdr in
  do r <- sd_run_sdreq c hdr data;
  if negb (ret_of r =? SD_RES_SUCCESS) then ret (ret_of r)
  else if negb (result (rsp_of r) =? SD_RES_SUCCESS)
  then ret (result (rsp_of r))
  else ret SD_RES_SUCCESS.

(** The buffer [data] is returned as it stands after the call. *)
Definition read_object (c : sd_cluster) (oid : Z) (datalen : Z) (offset : Z)
    (direct : bool) : M (Z * sd_inode) :=
  let hdr := sd_req_zero in
  let hdr := set_opcode SD_OP_READ_OBJ hdr in
  let hdr := set_data_length datalen hdr in
  let hdr := set_obj_oid oid hdr in
  let hdr := set_obj_offset offset hdr in
  let hdr := if direct then or_flags SD_FLAG_CMD_DIRECT hdr else hdr in
  do r <- sd_run_sdreq c hdr DBuffer;
  if negb (ret_of r =? SD_RES_SUCCESS) then ret (ret_of r, inode_of r)
  else if negb (result (rsp_of r) =? SD_RES_SUCCESS)
  then ret (result (rsp_of r), inode_of r)
  else ret (SD_RES_SUCCESS, inode_of r).

(** The out-parameter [vid] is treated as [vdi_id] of [do_vdi_create].  The
    buffer holds the name field and the tag field, the latter left zeroed
    (empty) for a null [tag]. *)
Definition find_vdi (c : sd_cluster) (name : string) (tag : option string)
    (vid : bool) : M (Z * option Z) :=
  let buf_name := pstrcpy SD_MAX_VDI_LEN name in
  let buf_tag := match tag with
                 | Some t => pstrcpy SD_MAX_VDI_TAG_LEN t
                 | None => EmptyString
                 end in
  let hdr := sd_req_zero in
  let hdr := set_opcode SD_OP_GET_VDI_INFO hdr in
  let hdr := set_data_length (SD_MAX_VDI_LEN + SD_MAX_VDI_TAG_LEN) hdr in
  let hdr := set_flags SD_FLAG_CMD_WRITE hdr in
  do r <- sd_run_sdreq c hdr (DNameTag buf_name buf_tag);
  if negb (ret_of r =? SD_RES_SUCCESS) then ret (ret_of r, None)
  else if (result (rsp_of r) =? SD_RES_SUCCESS) && vid
  then ret (result (rsp_of r), Some (rsp_vdi_id (rsp_of r)))
  else ret (result (rsp_of r), None).

(** The buffer [inode] comes back as [Some] once [read_object] has been
    called on it.  Reading the local [vid] before [find_vdi] stored into it
    is stuck. *)
Definition vdi_read_inode (c : sd_cluster) (name : string)
    (tag : option string) (onlyheader : bool) : M (Z * option sd_inode) :=
  do f <- find_vdi c name tag true;
  if negb (fst f =? SD_RES_SUCCESS) then ret (fst f, None)
  else
    let len := if onlyheader then SD_INODE_HEADER_SIZE else SD_INODE_SIZE in
    match snd f with
    | None => fun _ => None
    | Some vid =>
      do r <- read_object c (vid_to_vdi_oid vid) len 0 true;
      ret (fst r, Some (snd r))
    end.

Definition sd_vdi_snapshot (c : sd_cluster) (name snap_tag : option string)
  : M Z :=
  match nonempty snap_tag with
  | None =>
    do_ fprintf_stderr "Snapshot tag can NOT be null!\n" [];
    ret SD_RES_INVALID_PARMS
  | Some snap_tag =>
  match nonempty name with
  | None =>
    do_ fprintf_stderr "VDI name can NOT be null!\n" [];
    ret SD_RES_INVALID_PARMS
  | Some name =>
    do f <- find_vdi c name (Some snap_tag) false;
    if fst f =? SD_RES_SUCCESS then
      do_ fprintf_stderr
            ("Failed to create snapshot: " ++ "Tag %s is already existed\n")
            [FStr (Some snap_tag)];
      ret SD_RES_INVALID_PARMS
    else if fst f =? SD_RES_NO_TAG then
      do r <- vdi_read_inode c name None true;
      if negb (fst r =? SD_RES_SUCCESS) then
        do_ fprintf_stderr "Failed to read inode: %s\n" [FStr (Some name)];
        ret (fst r)
      else
        match snd r with
        | None => fun _ => None
        | Some inode =>
          if negb (inode_store_policy inode =? 0) then
            do_ fprintf_stderr
                  ("Creating a snapshot of hypervolume" ++ " is not supported\n")
                  [];
            ret SD_RES_INVALID_PARMS
          else
            do r <- write_object c (vid_to_vdi_oid (inode_vdi_id inode)) 0
                      (DTag snap_tag) SD_MAX_VDI_TAG_LEN offsetof_sd_inode_tag
                      0 false false;
            if negb (r =? SD_RES_SUCCESS) then
              do_ fprintf_stderr
                    ("Failed to write object:%" ++ PRIx64 ++ "\n")
                    [FHex64 (vid_to_vdi_oid (inode_vdi_id inode))];
              ret r
            else
              do r <- do_vdi_create c (Some (inode_name inode))
                        (inode_vdi_size inode) (inode_vdi_id inode) false
                        true 0;
              do_ (if negb (fst r =? SD_RES_SUCCESS)
                   then fprintf_stderr "Failed to snapshot:%s\n"
                          [FStr (Some (sd_strerr (fst r)))]
                   else ret tt);
              ret (fst r)
        end
    else
      do_ fprintf_stderr "Failed to create snapshot:%s\n"
            [FStr (Some (sd_strerr (fst f)))];
      ret (fst f)
  end
  end.

Definition sd_vdi_create (c : sd_cluster) (name : option string) (size : Z)
  : M Z :=
  if size >? SD_MAX_VDI_SIZE then
    do_ fprintf_stderr "VDI size is too large\n" [];
    ret SD_RES_INVALID_PARMS
  else if size =? 0 then
    do_ fprintf_stderr "VDI size must be larger than 0\n" [];
    ret SD_RES_INVALID_PARMS
  else
    match nonempty name with
    | None =>
      do_ fprintf_stderr "VDI name can NOT be null!\n" [];
      ret SD_RES_INVALID_PARMS
    | Some name =>
      let store_policy := 0 in
      let store_policy :=
        if size >? SD_OLD_MAX_VDI_SIZE then 1 else store_policy in
      do r <- do_vdi_create c (Some name) size 0 false false store_policy;
      ret (fst r)
    end.

(** The local inode buffer ([xmalloc], [free]) is the value that
    [vdi_read_inode] returns. *)
Definition sd_vdi_clone (c : sd_cluster) (srcname srctag dstname : option string)
  : M Z :=
  match nonempty dstname with
  | None =>
    do_ fprintf_stderr "Destination VDI name can NOT be null\n" [];
    ret SD_RES_INVALID_PARMS
  | Some dstname =>
  match nonempty srctag with
  | None =>
    do_ fprintf_stderr
          ("Only snapshot VDIs can be cloned, " ++ "please specify snapshot tag\n")
          [];
    ret SD_RES_INVALID_PARMS
  | Some srctag =>
  match nonempty srcname with
  | None =>
    do_ fprintf_stderr "Source VDI name can NOT be null!\n" [];
    ret SD_RES_INVALID_PARMS
  | Some srcname =>
    do r <- vdi_read_inode c srcname (Some srctag) false;
    if negb (fst r =? SD_RES_SUCCESS) then
      do_ fprintf_stderr
            ("Failed to read inode for VDI: %s " ++ "(tag: %s)\n")
            [FStr (Some srcname); FStr (Some srctag)];
      ret (fst r)
    else
      match snd r with
      | None => fun _ => None
      | Some inode =>
        do r <- do_vdi_create c (Some dstname) (inode_vdi_size inode)
                  (inode_vdi_id inode) false false (inode_store_policy inode);
        do_ (if negb (fst r =? SD_RES_SUCCESS)
             then fprintf_stderr "Clone vdi failed:%s\n"
                    [FStr (Some (sd_strerr (fst r)))]
             else ret tt);
        ret (fst r)
      end
  end
  end
  end.

End Vdi.

Arguments mk_world {remote}.
Arguments cluster_state {remote}.
Arguments heap {remote}.
Arguments errno {remote}.
Arguments trace {remote}.
Arguments ret {remote A}.
Arguments bind {remote A B}.
Arguments sd_run_sdreq {remote}.
Arguments emit {remote}.
Arguments fprintf_stderr {remote}.
Arguments set_errno {remote}.
Arguments load {remote}.
Arguments store {remote}.
Arguments out_free {remote}.
Arguments out_unlock {proto remote}.
Arguments lock_vdi {proto remote}.
Arguments unlock_vdi {proto remote}.
Arguments alloc_vdi {remote}.
Arguments free_vdi {remote}.
Arguments sd_vdi_open {proto remote}.
Arguments sd_vdi_close {proto remote}.
Arguments do_vdi_create {proto remote}.
Arguments write_object {proto remote}.
Arguments read_object {proto remote}.
Arguments find_vdi {proto remote}.
Arguments vdi_read_inode {proto remote}.
Arguments sd_vdi_snapshot {proto remote}.
Arguments sd_vdi_create {proto remote}.
Arguments sd_vdi_clone {proto remote}.

(** ** The headers on the wire

    The header each function of the file has built by the time it calls
    [sd_run_sdreq], member by member. *)
Section Wire.

Context `{proto : sd_proto}.

Definition req_lock_vdi : sd_req :=
  {| opcode := SD_OP_LOCK_VDI; flags := SD_FLAG_CMD_WRITE;
     data_length := SD_MAX_VDI_LEN;
     obj_oid := 0; obj_cow_oid := 0; obj_offset := 0;
     vdi_base_vdi_id := 0; vdi_snapid := 0; vdi_vdi_size := 0;
     vdi_store_policy := 0; vdi_type := 0 |}.

Definition req_release_vdi (vid : Z) : sd_req :=
  {| opcode := SD_OP_RELEASE_VDI; flags := 0; data_length := 0;
     obj_oid := 0; obj_cow_oid := 0; obj_offset := 0;
     vdi_base_vdi_id := vid; vdi_snapid := 0; vdi_vdi_size := 0;
     vdi_store_policy := 0; vdi_type := LOCK_TYPE_NORMAL |}.

Definition req_read_obj (oid len fl : Z) : sd_req :=
  {| opcode := SD_OP_READ_OBJ; flags := fl; data_length := len;
     obj_oid := oid; obj_cow_oid := 0; obj_offset := 0;
     vdi_base_vdi_id := 0; vdi_snapid := 0; vdi_vdi_size := 0;
     vdi_store_policy := 0; vdi_type := 0 |}.

Definition req_write_obj (oid len off fl : Z) : sd_req :=
  {| opcode := SD_OP_WRITE_OBJ; flags := fl; data_length := len;
     obj_oid := oid; obj_cow_oid := 0; obj_offset := off;
     vdi_base_vdi_id := 0; vdi_snapid := 0; vdi_vdi_size := 0;
     vdi_store_policy := 0; vdi_type := 0 |}.

Definition req_get_vdi_info : sd_req :=
  {| opcode := SD_OP_GET_VDI_INFO; flags := SD_FLAG_CMD_WRITE;
     data_length := SD_MAX_VDI_LEN + SD_MAX_VDI_TAG_LEN;
     obj_oid := 0; obj_cow_oid := 0; obj_offset := 0;
     vdi_base_vdi_id := 0; vdi_snapid := 0; vdi_vdi_size := 0;
     vdi_store_policy := 0; vdi_type := 0 |}.

Definition req_new_vdi (base_vid snapid size policy : Z) : sd_req :=
  {| opcode := SD_OP_NEW_VDI; flags := SD_FLAG_CMD_WRITE;
     data_length := SD_MAX_VDI_LEN;
     obj_oid := 0; obj_cow_oid := 0; obj_offset := 0;
     vdi_base_vdi_id := base_vid; vdi_snapid := snapid;
     vdi_vdi_size := size; vdi_store_policy := policy; vdi_type := 0 |}.

(** The buffer of [find_vdi] for a name and an optional tag. *)
Definition name_tag_buf (name : string) (tag : option string) : payload :=
  DNameTag (pstrcpy SD_MAX_VDI_LEN name)
    (match tag with
     | Some t => pstrcpy SD_MAX_VDI_TAG_LEN t
     | None => EmptyString
     end).

(** The two-stage check of [read_object] and [write_object]: the
    transport-level result when it is a failure, else the operation-level
    result of the response. *)
Definition two_stage (r : reply) : Z :=
  if ret_of r =? SD_RES_SUCCESS then result (rsp_of r) else ret_of r.

End Wire.

(** A world after more events, the heap and [errno] as they were. *)
Definition after {remote : Type} (w : world remote) (s : remote)
    (evs : list event) : world remote :=
  mk_world s (heap w) (errno w) (trace w ++ evs).

(** A world after some lines on stderr, everything else as it was. *)
Definition logged {remote : Type} (w : world remote) (evs : list event)
  : world remote :=
  after w (cluster_state w) evs.

(** ** The request queue: [queue_request]

    [queue_request] works on the members [request_lock], [request_list] and
    [request_fd] of the cluster [req->vdi->cluster], which other threads
    share.  It is a straight line of four library calls; each call is one
    atomic action of the calling thread on the shared members. *)
Module Queue.

Abbreviation thread := nat.

(** [struct sd_request] *)
Record sd_request : Type := mk_request {
  req_vdi : vdi_ptr;
  req_length : Z;
  req_offset : Z;
  req_write : bool;
  req_efd : Z
}.

(** A read-write lock: free, held by one writer, or held by readers. *)
Inductive sd_rw_lock : Type :=
| rw_free
| rw_write (owner : thread)
| rw_read (readers : list thread).

(** The members of [struct sd_cluster] that [queue_request] touches;
    [request_fd] is the counter of the eventfd. *)
Record cluster_queue : Type := mk_queue {
  request_lock : sd_rw_lock;
  request_list : list sd_request;
  request_fd : Z
}.

Inductive action : Type :=
| sd_write_lock
| list_add_tail (req : sd_request)
| sd_rw_unlock
| eventfd_xwrite (value : Z).

(** Modelled from the spec: the counting signal is an eventfd; its counter
    holds at most [2^64 - 2], and a write that would exceed it blocks. *)
Definition eventfd_max : Z := 2 ^ 64 - 2.

(** Modelled from the spec: the library calls [sd_write_lock],
    [list_add_tail], [sd_rw_unlock] and [eventfd_xwrite] are not part of
    the sources.  They are taken as the spec names them: an exclusive hold
    of the lock of the queue, an append at the tail of the shared list, the
    release of the lock, and a notification of the shared counting signal.
    One action of thread [t]; [None]: the call does not return in this
    state (the lock is taken, the counter is full) or is not allowed (an
    unlock by a thread that does not hold the lock). *)
Definition exec (t : thread) (a : action) (q : cluster_queue)
  : option cluster_queue :=
  match a with
  | sd_write_lock =>
    match request_lock q with
    | rw_free => Some (mk_queue (rw_write t) (request_list q) (request_fd q))
    | _ => None
    end
  | list_add_tail req =>
    Some (mk_queue (request_lock q) (request_list q ++ [req]) (request_fd q))
  | sd_rw_unlock =>
    match request_lock q with
    | rw_write o =>
      if decide (o = t)
      then Some (mk_queue rw_free (request_list q) (request_fd q))
      else None
    | rw_read rs =>
      if decide (rs = [t])
      then Some (mk_queue rw_free (request_list q) (request_fd q))
      else if decide (t ∈ rs)
      then Some (mk_queue (rw_read (List.remove Nat.eq_dec t rs))
                   (request_list q) (request_fd q))
      else None
    | rw_free => None
    end
  | eventfd_xwrite value =>
    if decide (request_fd q + value <= eventfd_max)
    then Some (mk_queue (request_lock q) (request_list q)
                 (request_fd q + value))
    else None
  end.

Definition queue_request (req : sd_request) : list action :=
  [ sd_write_lock;
    list_add_tail req;
    sd_rw_unlock;
    eventfd_xwrite 1 ].

(** A thread running alone: its actions one after the other. *)
Fixpoint run (t : thread) (prog : list action) (q : cluster_queue)
  : option cluster_queue :=
  match prog with
  | [] => Some q
  | a :: rest =>
    match exec t a q with
    | Some q' => run t rest q'
    | None => None
    end
  end.

(** Threads running together: thread [t] is the [t]-th entry of the pool,
    the actions it still has to do.  One step is one action of one thread. *)
Abbreviation pool := (list (list action)).

Inductive step : cluster_queue * pool -> thread * action ->
                 cluster_queue * pool -> Prop :=
| step_thread q p t a rest q' :
    p !! t = Some (a :: rest) ->
    exec t a q = Some q' ->
    step (q, p) (t, a) (q', <[t := rest]> p).

Inductive steps : cluster_queue * pool -> list (thread * action) ->
                  cluster_queue * pool -> Prop :=
| steps_nil st : steps st [] st
| steps_cons st l st' ls st'' :
    step st l st' -> steps st' ls st'' -> steps st (l :: ls) st''.

(** What thread [t] has done in the run [ls], in the order it did it. *)
Definition done_by (t : thread) (ls : list (thread * action)) : list action :=
  snd <$> filter (fun l => fst l = t) ls.

(** Every thread of the pool enqueues one request: the start of [reqs]. *)
Definition enqueuers (reqs : list sd_request) : pool :=
  queue_request <$> reqs.

Definition finished (p : pool) : Prop := Forall (fun prog => prog = []) p.

(** What a thread still has to append and to signal. *)
Definition pending (prog : list action) : list sd_request :=
  List.flat_map
    (fun a => match a with list_add_tail req => [req] | _ => [] end) prog.

Definition to_signal (prog : list action) : Z :=
  List.fold_right
    (fun a n => match a with eventfd_xwrite v => v + n | _ => n end) 0 prog.

Definition pool_pending (p : pool) : list sd_request :=
  List.flat_map pending p.

Definition pool_to_signal (p : pool) : Z :=
  List.fold_right (fun prog n => to_signal prog + n) 0 p.

(** A thread somewhere in [queue_request]. *)
Definition enqueuer (prog : list action) : Prop :=
  exists req k, prog = drop k (queue_request req).

(** A thread between its [sd_write_lock] and its [sd_rw_unlock]. *)
Definition in_critical (prog : list action) : Prop :=
  exists req, prog = drop 1 (queue_request req) \/
              prog = drop 2 (queue_request req).

(** The pool is made of enqueuers, and who is between lock and unlock
    holds the lock as the writer. *)
Definition lock_discipline (q : cluster_queue) (p : pool) : Prop :=
  forall t prog,
    p !! t = Some prog ->
    enqueuer prog /\ (in_critical prog -> request_lock q = rw_write t).

(** The lock is free, or its writer is a thread between lock and unlock. *)
Definition lock_owned (q : cluster_queue) (p : pool) : Prop :=
  request_lock q = rw_free \/
  exists t prog,
    request_lock q = rw_write t /\ p !! t = Some prog /\ in_critical prog.

End Queue.

(** ** One instance, to run the functions

    Constants in the style of the wire protocol and a transport that plays
    back a script: the replies it gives, one per request. *)
Module Demo.

Definition demo_proto : sd_proto := {|
  SD_RES_SUCCESS := 0;
  SD_RES_INVALID_PARMS := 5;
  SD_RES_NO_TAG := 14;
  SD_FLAG_CMD_WRITE := 1;
  SD_FLAG_CMD_COW := 2;
  SD_FLAG_CMD_DIRECT := 8;
  SD_MAX_VDI_LEN := 256;
  SD_MAX_VDI_TAG_LEN := 256;
  SD_INODE_SIZE := 12587576;
  SD_INODE_HEADER_SIZE := 4664;
  SD_MAX_VDI_SIZE := 2 ^ 50;
  SD_OLD_MAX_VDI_SIZE := 2 ^ 42;
  LOCK_TYPE_NORMAL := 0;
  offsetof_sd_inode_tag := 256;
  vid_to_vdi_oid := fun vid => Z.lor (2 ^ 63) (Z.shiftl vid 32);
  vdi_is_snapshot := fun i => match inode_rest i with
                              | snap_ctime :: _ => negb (snap_ctime =? 0)
                              | [] => false
                              end;
  sd_strerr := fun _ => "error"%string;
  pstrcpy := fun n s => String.substring 0 (Z.to_nat (n - 1)) s
|}.

Definition script : Type := list reply.

Definition no_inode : sd_inode := mk_inode EmptyString EmptyString 0 0 0 [].

(** The reply once the script is used up: a transport failure. *)
Definition hung_up : reply := mk_reply 1 (mk_rsp 1 0) no_inode.

Definition play (s : script) (c : sd_cluster) (hdr : sd_req) (data : payload)
  : reply * script :=
  match s with
  | r :: s' => (r, s')
  | [] => (hung_up, [])
  end.

Definition start (s : script) : world script := mk_world s ∅ 0 [].

(** Replies used below. *)
Definition ok (vdi_id : Z) : reply := mk_reply 0 (mk_rsp 0 vdi_id) no_inode.
Definition op_failed (res : Z) : reply := mk_reply 0 (mk_rsp res 0) no_inode.
Definition tr_failed (res : Z) : reply := mk_reply res (mk_rsp 0 0) no_inode.
Definition ok_inode (i : sd_inode) : reply := mk_reply 0 (mk_rsp 0 0) i.

(** A head inode whose stored name is not the name it is looked up by, and
    a hyper volume. *)
Definition head_inode : sd_inode := mk_inode "other" EmptyString 100 0 3 [0].
Definition hyper_inode : sd_inode :=
  mk_inode "vol1" EmptyString (2 ^ 43) 1 3 [0].

(** The cluster has no tag [t1] for [vol1], whose head is volume 3; the
    write of the tag and the creation of the new head go through. *)
Definition snapshot_script : script :=
  [op_failed 14; ok 3; ok_inode head_inode; ok 0; ok 4].

Definition lookup_ev (tag : option string) : event :=
  EvReq 0%nat (req_get_vdi_info (proto := demo_proto))
    (name_tag_buf (proto := demo_proto) "vol1" tag).

Definition read_header_ev : event :=
  EvReq 0%nat
    (req_read_obj (vid_to_vdi_oid (sd_proto := demo_proto) 3) 4664 8) DBuffer.

Definition write_tag_ev : event :=
  EvReq 0%nat
    (req_write_obj (vid_to_vdi_oid (sd_proto := demo_proto) 3) 256 256 1)
    (DTag "t1").

(** The worlds [sd_vdi_snapshot] goes through on [snapshot_script]. *)
Definition snap_w1 : world script :=
  mk_world [ok 3; ok_inode head_inode; ok 0; ok 4] ∅ 0 [lookup_ev (Some "t1"%string)].
Definition snap_w2 : world script :=
  mk_world [ok 0; ok 4] ∅ 0
    [lookup_ev (Some "t1"%string); lookup_ev None; read_header_ev].
Definition snap_w3 : world script :=
  mk_world [ok 4] ∅ 0
    [lookup_ev (Some "t1"%string); lookup_ev None; read_header_ev;
     write_tag_ev].

(** The world after the lookup of ([vol1], [t1]) alone. *)
Definition lookup_done : world script :=
  mk_world [] ∅ 0 [lookup_ev (Some "t1"%string)].

(** An open handle on volume 7 at address 1. *)
Definition open_handle : sd_vdi := mk_vdi 0%nat None 7 (Some "vol1"%string) RW_UNLOCKED.
Definition with_handle (s : script) : world script :=
  mk_world s {[1%positive := open_handle]} 0 [].

(** Two requests and one way for two threads to enqueue them. *)
Definition req0 : Queue.sd_request := Queue.mk_request 1%positive 4096 0 false 10.
Definition req1 : Queue.sd_request := Queue.mk_request 1%positive 512 4096 true 11.
Definition empty_queue : Queue.cluster_queue :=
  Queue.mk_queue Queue.rw_free [] 0.
Definition interleaving : list (nat * Queue.action) :=
  [ (0%nat, Queue.sd_write_lock);
    (0%nat, Queue.list_add_tail req0);
    (0%nat, Queue.sd_rw_unlock);
    (1%nat, Queue.sd_write_lock);
    (0%nat, Queue.eventfd_xwrite 1);
    (1%nat, Queue.list_add_tail req1);
    (1%nat, Queue.sd_rw_unlock);
    (1%nat, Queue.eventfd_xwrite 1) ].
Definition full_queue : Queue.cluster_queue :=
  Queue.mk_queue Queue.rw_free [req0; req1] 2.

(** The same run up to the moment thread 0 is about to signal, thread 1
    having taken the lock in between. *)
Definition before_signal : list (nat * Queue.action) := take 4 interleaving.
Definition half_queue : Queue.cluster_queue :=
  Queue.mk_queue (Queue.rw_write 1%nat) [req0] 0.
Definition half_pool : list (list Queue.action) :=
  [ [Queue.eventfd_xwrite 1];
    [Queue.list_add_tail req1; Queue.sd_rw_unlock; Queue.eventfd_xwrite 1] ].

(** A cluster like that of [snapshot_script] whose head is a hyper
    volume. *)
Definition hyper_script : script :=
  [op_failed 14; ok 3; ok_inode hyper_inode; ok 0; ok 4].

(** A cluster that delivers every request and refuses it: the lock with
    the result 7, the read with the result 2. *)
Definition refusing_script : script := [op_failed 7; op_failed 2].

End Demo.

(** ** What a run leaves in the trace *)

(** The operation codes of the requests among the events, in order. *)
Definition opcodes (t : list event) : list sd_opcode :=
  List.flat_map
    (fun e => match e with EvReq _ hdr _ => [opcode hdr] | _ => [] end) t.

(** A program that, whenever it returns, has left the heap of handles and
    [errno] as they were and has only added to the trace. *)
Definition quiet {remote A : Type}
    (m : world remote -> option (A * world remote)) : Prop :=
  forall w x w',
    m w = Some (x, w') ->
    heap w' = heap w /\ errno w' = errno w /\
    exists evs, trace w' = trace w ++ evs.

(** ** One thread, several requests *)
Module QueueTrace.

Import Queue.

(** One thread enqueueing several requests, one call after the other. *)
Definition queue_requests (reqs : list sd_request) : list action :=
  List.flat_map queue_request reqs.

End QueueTrace.

(** ** The read and write path: [alloc_request], [free_request],
    [sd_vdi_read], [sd_vdi_write]

    A caller allocates a request with an eventfd of its own, hands it to
    the dispatcher through [queue_request], waits on that eventfd, reads
    the result out of the request and frees it.  The state is what the
    caller shares with the rest of the process: the request queue of the
    cluster, the file descriptors, the allocated requests and [errno]. *)
Module Io.

Import Queue.

(** An open file descriptor: an eventfd with its counter, or anything
    else. *)
Inductive fd_entry : Type :=
| Eventfd (counter : Z)
| OtherFd.

(** [struct sd_request] in memory: the members [queue_request]'s model
    has, the buffer [data] (an address) and the result slot [ret]. *)
Record request : Type := mk_io_request {
  req_desc : sd_request;
  req_data : Z;
  req_ret : Z
}.

Record io_world : Type := mk_io {
  queue : cluster_queue;
  fds : gmap Z fd_entry;
  fd_limit : Z;
  reqs : gmap positive request;
  io_errno : Z
}.

Definition set_queue (q : cluster_queue) (w : io_world) : io_world :=
  mk_io q (fds w) (fd_limit w) (reqs w) (io_errno w).
Definition set_fds (f : gmap Z fd_entry) (w : io_world) : io_world :=
  mk_io (queue w) f (fd_limit w) (reqs w) (io_errno w).
Definition set_reqs (r : gmap positive request) (w : io_world) : io_world :=
  mk_io (queue w) (fds w) (fd_limit w) r (io_errno w).
Definition set_io_errno (e : Z) (w : io_world) : io_world :=
  mk_io (queue w) (fds w) (fd_limit w) (reqs w) e.

(** A call returns a value and a state, or does not return ([None]): it
    blocks for good, or it follows a pointer that is not live. *)
Definition IO (A : Type) : Type := io_world -> option (A * io_world).

Definition io_ret {A} (a : A) : IO A := fun w => Some (a, w).

Definition io_bind {A B} (m : IO A) (k : A -> IO B) : IO B :=
  fun w => match m w with
           | Some (a, w') => k a w'
           | None => None
           end.

(** Modelled from the spec: the system calls and the allocator are not part
    of the sources.  [eventfd(0, 0)] hands out the lowest descriptor below
    the limit that is not open, with a counter of 0, or fails with a
    negative value when there is none; [close] gives the descriptor back;
    [xzalloc] hands out an address that is not in use and [free] gives it
    back. *)
Definition first_free (w : io_world) : option Z :=
  List.find (fun n => bool_decide (fds w !! n = None)) (seqZ 0 (fd_limit w)).

Definition eventfd : IO Z :=
  fun w => match first_free w with
           | Some fd => Some (fd, set_fds (<[fd := Eventfd 0]> (fds w)) w)
           | None => Some (-1, w)
           end.

Definition close (fd : Z) : IO unit :=
  fun w => Some (tt, set_fds (delete fd (fds w)) w).

Definition load_request (req : positive) : IO request :=
  fun w => match reqs w !! req with
           | Some r => Some (r, w)
           | None => None
           end.

Definition free (req : positive) : IO unit :=
  fun w => match reqs w !! req with
           | Some _ => Some (tt, set_reqs (delete req (reqs w)) w)
           | None => None
           end.

(** The state the others find when a caller that started in [w] and got
    the descriptor [fd] starts to wait: its request is allocated, with
    [ret] still 0, and is the last of the list; the counter of the queue is
    one up. *)
Definition waiting (vdi : vdi_ptr) (buf count offset : Z) (iswrite : bool)
    (w : io_world) (fd : Z) : io_world :=
  let desc := mk_request vdi count offset iswrite fd in
  mk_io (mk_queue rw_free (request_list (queue w) ++ [desc])
           (request_fd (queue w) + 1))
    (<[fd := Eventfd 0]> (fds w)) (fd_limit w)
    (<[fresh (dom (reqs w)) := mk_io_request desc buf 0]> (reqs w))
    (io_errno w).

(** The state [w2] once the caller that started in [w] has closed the
    descriptor of its request [r] and freed the request. *)
Definition released (w : io_world) (fd : Z) (r : request) (w2 : io_world)
  : io_world :=
  set_reqs (delete (fresh (dom (reqs w))) (reqs w2))
    (set_fds (delete (req_efd (req_desc r)) (<[fd := Eventfd 0]> (fds w2)))
       w2).

Section Calls.

(** [SD_RES_SYSTEM_ERROR] of the protocol header. *)
Variable SD_RES_SYSTEM_ERROR : Z.

(** What the rest of the process, the dispatcher first of all, does to the
    shared state while the caller waits. *)
Variable others : io_world -> io_world.

(** Modelled from the spec: [eventfd_xread] is not part of the sources.  It
    suspends the caller on the completion signal: the others run, and the
    call returns the counter and resets it once the counter is not 0; a
    counter that stays 0 keeps the caller waiting. *)
Definition eventfd_xread (fd : Z) : IO Z :=
  fun w =>
    let w' := others w in
    match fds w' !! fd with
    | Some (Eventfd n) =>
      if 0 <? n then Some (n, set_fds (<[fd := Eventfd 0]> (fds w')) w')
      else None
    | _ => None
    end.

(** The thread [t] calls [queue_request] on the queue of the cluster of
    the request; the call does not return while the lock is taken or the
    counter is full. *)
Definition io_queue_request (t : nat) (req : positive) : IO unit :=
  io_bind (load_request req) (fun r w =>
    match run t (queue_request (req_desc r)) (queue w) with
    | Some q' => Some (tt, set_queue q' w)
    | None => None
    end).

Definition free_request (req : positive) : IO unit :=
  io_bind (load_request req) (fun r =>
  io_bind (close (req_efd (req_desc r))) (fun _ =>
  free req)).

(** [NULL] is [None].  The zeroed allocation and the assignments to its
    members make one step; [ret] keeps the 0 of [xzalloc]. *)
Definition alloc_request (vdi : vdi_ptr) (buf : Z) (count : Z) (offset : Z)
    (iswrite : bool) : IO (option positive) :=
  io_bind eventfd (fun fd =>
  if fd <? 0 then
    fun w => Some (None, set_io_errno SD_RES_SYSTEM_ERROR w)
  else
    fun w =>
      let req := fresh (dom (reqs w)) in
      Some (Some req,
            set_reqs (<[req := mk_io_request
                                 (mk_request vdi count offset iswrite fd)
                                 buf 0]> (reqs w)) w)).

Definition sd_vdi_read (t : nat) (vdi : vdi_ptr) (buf : Z) (count : Z)
    (offset : Z) : IO Z :=
  io_bind (alloc_request vdi buf count offset false) (fun req =>
  match req with
  | None => fun w => Some (io_errno w, w)
  | Some req =>
    io_bind (io_queue_request t req) (fun _ =>
    io_bind (load_request req) (fun r =>
    io_bind (eventfd_xread (req_efd (req_desc r))) (fun _ =>
    io_bind (load_request req) (fun r =>
    let ret := req_ret r in
    io_bind (free_request req) (fun _ =>
    io_ret ret)))))
  end).

Definition sd_vdi_write (t : nat) (vdi : vdi_ptr) (buf : Z) (count : Z)
    (offset : Z) : IO Z :=
  io_bind (alloc_request vdi buf count offset true) (fun req =>
  match req with
  | None => fun w => Some (io_errno w, w)
  | Some req =>
    io_bind (io_queue_request t req) (fun _ =>
    io_bind (load_request req) (fun r =>
    io_bind (eventfd_xread (req_efd (req_desc r))) (fun _ =>
    io_bind (load_request req) (fun r =>
    let ret := req_ret r in
    io_bind (free_request req) (fun _ =>
    io_ret ret)))))
  end).

End Calls.

End Io.

(** ** More of the instance *)
Module DemoMore.

Import Demo.

(** A cluster that knows no tag [t1] for [vol1] and then no [vol1]
    either (result 8), and the worlds [sd_vdi_snapshot] goes through on
    it. *)
Definition no_head_script : script := [op_failed 14; op_failed 8].
Definition no_head_w1 : world script :=
  mk_world [op_failed 8] ∅ 0 [lookup_ev (Some "t1"%string)].
Definition no_head_w2 : world script :=
  mk_world [] ∅ 0 [lookup_ev (Some "t1"%string); lookup_ev None].

(** The world after a successful [sd_vdi_open] of [vol1], locked as
    volume 3. *)
Definition open_script : script := [ok 3; ok_inode head_inode; ok 0].
Definition opened : world script :=
  mk_world [ok 0]
    {[1%positive := mk_vdi 0%nat (Some head_inode) 3 (Some "vol1"%string)
                      RW_UNLOCKED]} 0
    [EvReq 0%nat (req_lock_vdi (proto := demo_proto)) (DName "vol1");
     EvReq 0%nat
       (req_read_obj (vid_to_vdi_oid (sd_proto := demo_proto) 3)
          12587576 0) DBuffer].

(** The end of the snapshot on [snapshot_script] and of a clone. *)
Definition snapshot_done : world script :=
  mk_world [] ∅ 0
    [lookup_ev (Some "t1"%string); lookup_ev None; read_header_ev;
     write_tag_ev;
     EvReq 0%nat (req_new_vdi (proto := demo_proto) 3 1 100 0)
       (DName "other")].

Definition clone_script : script := [ok 3; ok_inode hyper_inode; ok 5].
Definition clone_done : world script :=
  mk_world [] ∅ 0
    [lookup_ev (Some "t1"%string);
     EvReq 0%nat
       (req_read_obj (vid_to_vdi_oid (sd_proto := demo_proto) 3)
          12587576 8) DBuffer;
     EvReq 0%nat (req_new_vdi (proto := demo_proto) 3 0 (2 ^ 43) 1)
       (DName "vol2")].

(** A process with the three standard descriptors open and an empty
    queue; one with no descriptor left; and a dispatcher that takes the
    whole list, stores 42 in every request and signals every eventfd. *)
Definition io_start : Io.io_world :=
  Io.mk_io empty_queue (list_to_map [(0, Io.OtherFd); (1, Io.OtherFd); (2, Io.OtherFd)])
    16 ∅ 0.

Definition io_exhausted : Io.io_world :=
  Io.mk_io empty_queue (list_to_map [(0, Io.OtherFd); (1, Io.OtherFd); (2, Io.OtherFd)])
    3 ∅ 0.

Definition dispatcher (w : Io.io_world) : Io.io_world :=
  Io.mk_io (Queue.mk_queue Queue.rw_free [] 0)
    ((fun e => match e with
               | Io.Eventfd _ => Io.Eventfd 1
               | Io.OtherFd => Io.OtherFd
               end) <$> Io.fds w)
    (Io.fd_limit w)
    ((fun r => Io.mk_io_request (Io.req_desc r) (Io.req_data r) 42)
       <$> Io.reqs w)
    (Io.io_errno w).

Definition served : Io.request :=
  Io.mk_io_request (Queue.mk_request 1%positive 4096 0 false 3) 77 42.

End DemoMore.

(** * Properties *)

Section VdiFacts.

Context `{proto : sd_proto} {remote : Type}.
Variable sd_exec : remote -> sd_cluster -> sd_req -> payload -> reply * remote.

(** *** How one function runs, in terms of the transport *)

(** Rewrites the call of the transport in the goal with the equation [E]
    that fixes its reply, whatever form the header has in the goal. *)
Ltac use_exec E :=
  match type of E with
  | ?f ?s ?c ?h ?d = _ =>
    match goal with
    | |- context [f s c ?h' d] => change h' with h; rewrite E
    end
  end.


Lemma nonempty_Some (s : string) : s <> EmptyString -> nonempty (Some s) = Some s.
Proof. destruct s; [congruence | reflexivity]. Qed.

Lemma nonempty_None (s : option string) :
  nonempty s = None <-> s = None \/ s = Some EmptyString.
Proof.
  destruct s as [[|a s]|]; simpl; split; intros H; auto;
    try discriminate; destruct H as [H|H]; discriminate H.
Qed.

Lemma do_vdi_create_run c name size base (id snap : bool) policy
    (w : world remote) r s' :
  sd_exec (cluster_state w) c
    (req_new_vdi base (if snap then 1 else 0) size policy)
    (data_of_name name) = (r, s') ->
  do_vdi_create sd_exec c name size base id snap policy w =
  Some ((ret_of r,
         if (ret_of r =? SD_RES_SUCCESS) && id
         then Some (rsp_vdi_id (rsp_of r)) else None),
        after w s' [EvReq c (req_new_vdi base (if snap then 1 else 0) size policy)
                      (data_of_name name)]).
Proof.
  intros E. unfold do_vdi_create, bind, sd_run_sdreq, after.
  use_exec E.
  destruct (Z.eqb_spec (ret_of r) SD_RES_SUCCESS) as [->|]; simpl;
    destruct id; reflexivity.
Qed.

Lemma find_vdi_run c name tag (vid : bool) (w : world remote) r s' :
  sd_exec (cluster_state w) c req_get_vdi_info (name_tag_buf name tag)
    = (r, s') ->
  find_vdi sd_exec c name tag vid w =
  Some ((if ret_of r =? SD_RES_SUCCESS then result (rsp_of r) else ret_of r,
         if (ret_of r =? SD_RES_SUCCESS)
            && (result (rsp_of r) =? SD_RES_SUCCESS) && vid
         then Some (rsp_vdi_id (rsp_of r)) else None),
        after w s' [EvReq c req_get_vdi_info (name_tag_buf name tag)]).
Proof.
  intros E. unfold find_vdi, bind, sd_run_sdreq, after.
  change (DNameTag _ _) with (name_tag_buf name tag).
  use_exec E.
  destruct (ret_of r =? SD_RES_SUCCESS); simpl; [|reflexivity].
  destruct (result (rsp_of r) =? SD_RES_SUCCESS); simpl; [|reflexivity].
  destruct vid; reflexivity.
Qed.

(** [find_vdi] always returns, and all it does is one lookup request. *)
Lemma find_vdi_total c name tag vid (w : world remote) :
  exists res o s',
    find_vdi sd_exec c name tag vid w =
    Some ((res, o),
          after w s' [EvReq c req_get_vdi_info (name_tag_buf name tag)]).
Proof.
  destruct (sd_exec (cluster_state w) c req_get_vdi_info
              (name_tag_buf name tag)) as [r s'] eqn:E.
  do 3 eexists. apply (find_vdi_run _ _ _ _ _ _ _ E).
Qed.

Lemma find_vdi_effect c name tag vid (w w1 : world remote) x :
  find_vdi sd_exec c name tag vid w = Some (x, w1) ->
  w1 = after w (cluster_state w1)
         [EvReq c req_get_vdi_info (name_tag_buf name tag)].
Proof.
  destruct (find_vdi_total c name tag vid w) as (res & o & s' & E).
  rewrite E. intros [= <- <-]. reflexivity.
Qed.

Lemma two_stage_success r :
  two_stage r = SD_RES_SUCCESS <->
  ret_of r = SD_RES_SUCCESS /\ result (rsp_of r) = SD_RES_SUCCESS.
Proof.
  unfold two_stage. destruct (Z.eqb_spec (ret_of r) SD_RES_SUCCESS); intuition.
Qed.

Lemma read_object_run c oid len (w : world remote) r s' :
  sd_exec (cluster_state w) c (req_read_obj oid len SD_FLAG_CMD_DIRECT) DBuffer
    = (r, s') ->
  read_object sd_exec c oid len 0 true w =
  Some ((two_stage r, inode_of r),
        after w s' [EvReq c (req_read_obj oid len SD_FLAG_CMD_DIRECT) DBuffer]).
Proof.
  intros E. unfold read_object, bind, sd_run_sdreq, after, two_stage.
  use_exec E.
  destruct (ret_of r =? SD_RES_SUCCESS); simpl; [|reflexivity].
  destruct (Z.eqb_spec (result (rsp_of r)) SD_RES_SUCCESS) as [->|];
    reflexivity.
Qed.

Lemma write_object_run c oid data len off (w : world remote) r s' :
  sd_exec (cluster_state w) c (req_write_obj oid len off SD_FLAG_CMD_WRITE) data
    = (r, s') ->
  write_object sd_exec c oid 0 data len off 0 false false w =
  Some (two_stage r,
        after w s' [EvReq c (req_write_obj oid len off SD_FLAG_CMD_WRITE) data]).
Proof.
  intros E. unfold write_object, bind, sd_run_sdreq, after, two_stage.
  use_exec E.
  destruct (ret_of r =? SD_RES_SUCCESS); simpl; [|reflexivity].
  destruct (Z.eqb_spec (result (rsp_of r)) SD_RES_SUCCESS) as [->|];
    reflexivity.
Qed.

(** [vdi_read_inode]: the lookup, then the read of the header object of
    the identity the lookup gave.  It never reads its local [vid] before
    [find_vdi] has stored into it. *)
Lemma vdi_read_inode_run c name tag (onlyheader : bool) (w : world remote) :
  let len := if onlyheader then SD_INODE_HEADER_SIZE else SD_INODE_SIZE in
  let lookup := EvReq c req_get_vdi_info (name_tag_buf name tag) in
  exists res oi w2,
    vdi_read_inode sd_exec c name tag onlyheader w = Some ((res, oi), w2) /\
    ((res <> SD_RES_SUCCESS /\ oi = None /\
      w2 = after w (cluster_state w2) [lookup])
     \/
     (exists vid i, oi = Some i /\
        w2 = after w (cluster_state w2)
               [lookup;
                EvReq c (req_read_obj (vid_to_vdi_oid vid) len
                           SD_FLAG_CMD_DIRECT) DBuffer])).
Proof.
  intros len lookup. subst lookup. unfold vdi_read_inode.
  destruct (sd_exec (cluster_state w) c req_get_vdi_info
              (name_tag_buf name tag)) as [r s1] eqn:E1.
  unfold bind at 1. rewrite (find_vdi_run _ _ _ true _ _ _ E1).
  cbn [fst snd].
  destruct (Z.eqb_spec (ret_of r) SD_RES_SUCCESS) as [Hr|Hr]; cbn [andb].
  2:{ destruct (Z.eqb_spec (ret_of r) SD_RES_SUCCESS); [contradiction|].
      cbn [negb]. do 3 eexists. split; [reflexivity|]. left. auto. }
  destruct (Z.eqb_spec (result (rsp_of r)) SD_RES_SUCCESS) as [Ho|Ho];
    cbn [negb andb].
  2:{ do 3 eexists. split; [reflexivity|]. left. auto. }
  fold len.
  destruct (sd_exec s1 c (req_read_obj (vid_to_vdi_oid (rsp_vdi_id (rsp_of r)))
              len SD_FLAG_CMD_DIRECT) DBuffer) as [r2 s2] eqn:E2.
  unfold bind.
  rewrite (read_object_run c _ len (after w s1 _) r2 s2 E2).
  do 3 eexists. split; [reflexivity|]. right.
  exists (rsp_vdi_id (rsp_of r)), (inode_of r2). split; [reflexivity|].
  unfold after. simpl. rewrite <- app_assoc. reflexivity.
Qed.

Lemma vdi_read_inode_success c name tag (onlyheader : bool) (w w2 : world remote) oi :
  vdi_read_inode sd_exec c name tag onlyheader w
    = Some ((SD_RES_SUCCESS, oi), w2) ->
  exists i, oi = Some i.
Proof.
  intros H.
  destruct (vdi_read_inode_run c name tag onlyheader w)
    as (res & oi' & w2' & E & [(Hne & _)|(vid & i & Hi & _)]);
    rewrite E in H; inversion H; subst; [congruence | eauto].
Qed.

(** [vdi_read_inode] in terms of the replies to its two requests. *)
Lemma vdi_read_inode_replies c name tag (onlyheader : bool) (w : world remote)
    r1 s1 r2 s2 :
  let len := if onlyheader then SD_INODE_HEADER_SIZE else SD_INODE_SIZE in
  let lookup := EvReq c req_get_vdi_info (name_tag_buf name tag) in
  let read := req_read_obj (vid_to_vdi_oid (rsp_vdi_id (rsp_of r1))) len
                SD_FLAG_CMD_DIRECT in
  sd_exec (cluster_state w) c req_get_vdi_info (name_tag_buf name tag)
    = (r1, s1) ->
  sd_exec s1 c read DBuffer = (r2, s2) ->
  vdi_read_inode sd_exec c name tag onlyheader w =
  if two_stage r1 =? SD_RES_SUCCESS
  then Some ((two_stage r2, Some (inode_of r2)),
             after w s2 [lookup; EvReq c read DBuffer])
  else Some ((two_stage r1, None), after w s1 [lookup]).
Proof.
  intros len lookup read E1 E2. subst lookup read.
  unfold vdi_read_inode, bind at 1.
  rewrite (find_vdi_run _ _ _ true _ _ _ E1). cbn [fst snd].
  fold (two_stage r1).
  destruct (Z.eqb_spec (two_stage r1) SD_RES_SUCCESS) as [H1|H1];
    cbn [negb]; [|reflexivity].
  apply two_stage_success in H1 as [Hr Ho].
  rewrite Hr, Ho, !Z.eqb_refl. cbn [andb]. fold len. unfold bind.
  rewrite (read_object_run c _ len (after w s1 _) r2 s2 E2).
  unfold after, ret. cbn [fst snd cluster_state heap errno trace].
  rewrite <- app_assoc. reflexivity.
Qed.



(** [write_object] and [read_object], whatever their arguments, send one
    request and return the two-stage result of its reply. *)
Lemma write_object_checks_both c oid cow_oid data datalen offset flags
    (create direct : bool) :
  exists hdr,
    forall (w : world remote) r s',
      sd_exec (cluster_state w) c hdr data = (r, s') ->
      write_object sd_exec c oid cow_oid data datalen offset flags create
        direct w =
      Some (two_stage r, after w s' [EvReq c hdr data]).
Proof.
  eexists. intros w r s' E.
  unfold write_object, bind, sd_run_sdreq, after, two_stage.
  rewrite E.
  destruct (ret_of r =? SD_RES_SUCCESS); simpl; [|reflexivity].
  destruct (Z.eqb_spec (result (rsp_of r)) SD_RES_SUCCESS) as [->|];
    reflexivity.
Qed.

Lemma read_object_checks_both c oid datalen offset (direct : bool) :
  exists hdr,
    forall (w : world remote) r s',
      sd_exec (cluster_state w) c hdr DBuffer = (r, s') ->
      read_object sd_exec c oid datalen offset direct w =
      Some ((two_stage r, inode_of r), after w s' [EvReq c hdr DBuffer]).
Proof.
  eexists. intros w r s' E.
  unfold read_object, bind, sd_run_sdreq, after, two_stage.
  rewrite E.
  destruct (ret_of r =? SD_RES_SUCCESS); simpl; [|reflexivity].
  destruct (Z.eqb_spec (result (rsp_of r)) SD_RES_SUCCESS) as [->|];
    reflexivity.
Qed.

(** *** [sd_vdi_snapshot], branch by branch *)

Section Snapshot.

Variables (c : sd_cluster) (name tag : string).
Hypothesis name_nonempty : name <> EmptyString.
Hypothesis tag_nonempty : tag <> EmptyString.

Ltac snapshot_enter Hfind :=
  unfold sd_vdi_snapshot;
  rewrite (nonempty_Some _ tag_nonempty), (nonempty_Some _ name_nonempty);
  unfold bind at 1; rewrite Hfind; cbn [fst snd].

Lemma snapshot_tag_exists (w w1 : world remote) o :
  find_vdi sd_exec c name (Some tag) false w
    = Some ((SD_RES_SUCCESS, o), w1) ->
  sd_vdi_snapshot sd_exec c (Some name) (Some tag) w =
  Some (SD_RES_INVALID_PARMS,
        logged w1 [EvFprintf
                     "Failed to create snapshot: Tag %s is already existed\n"
                     [FStr (Some tag)]]).
Proof.
  intros Hfind. snapshot_enter Hfind. rewrite Z.eqb_refl. reflexivity.
Qed.

Lemma snapshot_lookup_failed (w w1 : world remote) res o :
  res <> SD_RES_SUCCESS -> res <> SD_RES_NO_TAG ->
  find_vdi sd_exec c name (Some tag) false w = Some ((res, o), w1) ->
  sd_vdi_snapshot sd_exec c (Some name) (Some tag) w =
  Some (res,
        logged w1 [EvFprintf "Failed to create snapshot:%s\n"
                     [FStr (Some (sd_strerr res))]]).
Proof.
  intros H1 H2 Hfind. snapshot_enter Hfind.
  destruct (Z.eqb_spec res SD_RES_SUCCESS); [contradiction|].
  destruct (Z.eqb_spec res SD_RES_NO_TAG); [contradiction|].
  reflexivity.
Qed.

Section NoTag.

Hypothesis no_tag_is_failure : SD_RES_NO_TAG <> SD_RES_SUCCESS.

Variables (w w1 : world remote) (o : option Z).
Hypothesis lookup_no_tag :
  find_vdi sd_exec c name (Some tag) false w = Some ((SD_RES_NO_TAG, o), w1).

Ltac no_tag_enter :=
  snapshot_enter lookup_no_tag;
  destruct (Z.eqb_spec SD_RES_NO_TAG SD_RES_SUCCESS); [contradiction|];
  rewrite Z.eqb_refl; unfold bind at 1.

Lemma snapshot_fetch_failed (w2 : world remote) res oi :
  vdi_read_inode sd_exec c name None true w1 = Some ((res, oi), w2) ->
  res <> SD_RES_SUCCESS ->
  sd_vdi_snapshot sd_exec c (Some name) (Some tag) w =
  Some (res,
        logged w2 [EvFprintf "Failed to read inode: %s\n" [FStr (Some name)]]).
Proof.
  intros Hread Hres. no_tag_enter. rewrite Hread. cbn [fst snd].
  destruct (Z.eqb_spec res SD_RES_SUCCESS); [contradiction|]. reflexivity.
Qed.

Variables (w2 : world remote) (inode : sd_inode).
Hypothesis fetch_ok :
  vdi_read_inode sd_exec c name None true w1
    = Some ((SD_RES_SUCCESS, Some inode), w2).

Ltac fetch_enter :=
  no_tag_enter; rewrite fetch_ok; cbn [fst snd];
  rewrite Z.eqb_refl; cbn [negb].

Lemma snapshot_hyper_rejected :
  inode_store_policy inode <> 0 ->
  sd_vdi_snapshot sd_exec c (Some name) (Some tag) w =
  Some (SD_RES_INVALID_PARMS,
        logged w2 [EvFprintf
                     "Creating a snapshot of hypervolume is not supported\n"
                     []]).
Proof.
  intros Hp. fetch_enter.
  destruct (Z.eqb_spec (inode_store_policy inode) 0); [contradiction|].
  reflexivity.
Qed.

Hypothesis standard_policy : inode_store_policy inode = 0.

(** The write of the tag, as the source spells it. *)
Local Abbreviation write_tag :=
  (write_object sd_exec c (vid_to_vdi_oid (inode_vdi_id inode)) 0 (DTag tag)
     SD_MAX_VDI_TAG_LEN offsetof_sd_inode_tag 0 false false).

Ltac write_enter Hwrite :=
  fetch_enter; rewrite standard_policy; cbn [Z.eqb negb];
  unfold bind at 1; rewrite Hwrite.

Lemma snapshot_write_failed (w3 : world remote) res :
  write_tag w2 = Some (res, w3) ->
  res <> SD_RES_SUCCESS ->
  sd_vdi_snapshot sd_exec c (Some name) (Some tag) w =
  Some (res,
        logged w3 [EvFprintf "Failed to write object:%lx\n"
                     [FHex64 (vid_to_vdi_oid (inode_vdi_id inode))]]).
Proof.
  intros Hwrite Hres. write_enter Hwrite.
  destruct (Z.eqb_spec res SD_RES_SUCCESS); [contradiction|]. reflexivity.
Qed.

Lemma snapshot_new_head (w3 : world remote) r s4 :
  write_tag w2 = Some (SD_RES_SUCCESS, w3) ->
  sd_exec (cluster_state w3) c
    (req_new_vdi (inode_vdi_id inode) 1 (inode_vdi_size inode) 0)
    (DName (inode_name inode)) = (r, s4) ->
  sd_vdi_snapshot sd_exec c (Some name) (Some tag) w =
  Some (ret_of r,
        after w3 s4
          (EvReq c (req_new_vdi (inode_vdi_id inode) 1 (inode_vdi_size inode) 0)
             (DName (inode_name inode))
           :: (if ret_of r =? SD_RES_SUCCESS then []
               else [EvFprintf "Failed to snapshot:%s\n"
                       [FStr (Some (sd_strerr (ret_of r)))]]))).
Proof.
  intros Hwrite E. write_enter Hwrite. rewrite Z.eqb_refl. cbn [negb].
  unfold bind at 1.
  rewrite (do_vdi_create_run c (Some (inode_name inode)) _ _ false true 0 w3 r s4 E).
  cbn [fst snd].
  destruct (ret_of r =? SD_RES_SUCCESS); cbn [negb]; unfold after.
  - reflexivity.
  - unfold bind, fprintf_stderr, emit, ret. simpl.
    rewrite <- app_assoc. reflexivity.
Qed.

End NoTag.

End Snapshot.

(** [sd_vdi_snapshot] always returns: the inode buffer is never read
    before [read_object] has filled it. *)
Lemma nonempty_inv o (s : string) :
  nonempty o = Some s -> o = Some s /\ s <> EmptyString.
Proof.
  destruct o as [[|a s']|]; simpl; intros H; try discriminate.
  injection H as <-. split; [reflexivity | discriminate].
Qed.

Lemma sd_vdi_snapshot_total c name snap_tag (w : world remote) :
  exists res w', sd_vdi_snapshot sd_exec c name snap_tag w = Some (res, w').
Proof.
  destruct (nonempty snap_tag) as [tag|] eqn:Etag.
  2:{ unfold sd_vdi_snapshot. rewrite Etag. do 2 eexists. reflexivity. }
  destruct (nonempty name) as [n|] eqn:Ename.
  2:{ unfold sd_vdi_snapshot. rewrite Etag, Ename. do 2 eexists. reflexivity. }
  apply nonempty_inv in Etag as [-> Htag].
  apply nonempty_inv in Ename as [-> Hname].
  destruct (find_vdi_total c n (Some tag) false w) as (res & o & s1 & Hfind).
  destruct (Z.eq_dec res SD_RES_SUCCESS) as [->|Hns].
  { rewrite (snapshot_tag_exists c n tag Hname Htag _ _ _ Hfind). eauto. }
  destruct (Z.eq_dec res SD_RES_NO_TAG) as [->|Hnt].
  2:{ rewrite (snapshot_lookup_failed c n tag Hname Htag _ _ _ _ Hns Hnt Hfind).
      eauto. }
  destruct (vdi_read_inode_run c n None true (after w s1
              [EvReq c req_get_vdi_info (name_tag_buf n (Some tag))]))
    as (res2 & oi & w2 & Hread & _).
  destruct (Z.eq_dec res2 SD_RES_SUCCESS) as [->|Hr2].
  2:{ rewrite (snapshot_fetch_failed c n tag Hname Htag Hns _ _ _ Hfind
                 _ _ _ Hread Hr2). eauto. }
  destruct (vdi_read_inode_success _ _ _ _ _ _ _ Hread) as [inode ->].
  destruct (Z.eq_dec (inode_store_policy inode) 0) as [Hp|Hp].
  2:{ rewrite (snapshot_hyper_rejected c n tag Hname Htag Hns _ _ _ Hfind
                 _ _ Hread Hp). eauto. }
  destruct (sd_exec (cluster_state w2) c
              (req_write_obj (vid_to_vdi_oid (inode_vdi_id inode))
                 SD_MAX_VDI_TAG_LEN offsetof_sd_inode_tag SD_FLAG_CMD_WRITE)
              (DTag tag)) as [r3 s3] eqn:E3.
  pose proof (write_object_run c _ _ _ _ w2 r3 s3 E3) as Hwrite.
  destruct (Z.eq_dec (two_stage r3) SD_RES_SUCCESS) as [Hw|Hw].
  2:{ rewrite (snapshot_write_failed c n tag Hname Htag Hns _ _ _ Hfind
                 _ _ Hread Hp _ _ Hwrite Hw). eauto. }
  rewrite Hw in Hwrite.
  destruct (sd_exec s3 c
              (req_new_vdi (inode_vdi_id inode) 1 (inode_vdi_size inode) 0)
              (DName (inode_name inode))) as [r4 s4] eqn:E4.
  rewrite (snapshot_new_head c n tag Hname Htag Hns _ _ _ Hfind
             _ _ Hread Hp _ r4 s4 Hwrite E4). eauto.
Qed.

(** *** [sd_vdi_clone], branch by branch *)

Section Clone.

Variables (c : sd_cluster) (srcname srctag dstname : string).
Hypothesis srcname_nonempty : srcname <> EmptyString.
Hypothesis srctag_nonempty : srctag <> EmptyString.
Hypothesis dstname_nonempty : dstname <> EmptyString.

Variables (w w1 : world remote).

Ltac clone_enter Hread :=
  unfold sd_vdi_clone;
  rewrite (nonempty_Some _ dstname_nonempty),
          (nonempty_Some _ srctag_nonempty),
          (nonempty_Some _ srcname_nonempty);
  unfold bind at 1; rewrite Hread; cbn [fst snd].

Lemma clone_resolve_failed res oi :
  vdi_read_inode sd_exec c srcname (Some srctag) false w
    = Some ((res, oi), w1) ->
  res <> SD_RES_SUCCESS ->
  sd_vdi_clone sd_exec c (Some srcname) (Some srctag) (Some dstname) w =
  Some (res,
        logged w1 [EvFprintf "Failed to read inode for VDI: %s (tag: %s)\n"
                     [FStr (Some srcname); FStr (Some srctag)]]).
Proof.
  intros Hread Hres. clone_enter Hread.
  destruct (Z.eqb_spec res SD_RES_SUCCESS); [contradiction|]. reflexivity.
Qed.

Lemma clone_create inode r s2 :
  vdi_read_inode sd_exec c srcname (Some srctag) false w
    = Some ((SD_RES_SUCCESS, Some inode), w1) ->
  sd_exec (cluster_state w1) c
    (req_new_vdi (inode_vdi_id inode) 0 (inode_vdi_size inode)
       (inode_store_policy inode))
    (DName dstname) = (r, s2) ->
  sd_vdi_clone sd_exec c (Some srcname) (Some srctag) (Some dstname) w =
  Some (ret_of r,
        after w1 s2
          (EvReq c (req_new_vdi (inode_vdi_id inode) 0 (inode_vdi_size inode)
                      (inode_store_policy inode)) (DName dstname)
           :: (if ret_of r =? SD_RES_SUCCESS then []
               else [EvFprintf "Clone vdi failed:%s\n"
                       [FStr (Some (sd_strerr (ret_of r)))]]))).
Proof.
  intros Hread E. clone_enter Hread. rewrite Z.eqb_refl. cbn [negb].
  unfold bind at 1.
  rewrite (do_vdi_create_run c (Some dstname) _ _ false false _ w1 r s2 E).
  cbn [fst snd].
  destruct (ret_of r =? SD_RES_SUCCESS); cbn [negb]; unfold after.
  - reflexivity.
  - unfold bind, fprintf_stderr, emit, ret. simpl.
    rewrite <- app_assoc. reflexivity.
Qed.

End Clone.

(** *** Handles: [lock_vdi], [unlock_vdi], [free_vdi] *)

Lemma lock_vdi_run p v (w : world remote) r s' :
  heap w !! p = Some v ->
  sd_exec (cluster_state w) (cluster v) req_lock_vdi (data_of_name (name v))
    = (r, s') ->
  lock_vdi sd_exec p w =
  Some (ret_of r,
        mk_world s'
          (if ret_of r =? SD_RES_SUCCESS
           then <[p := set_vid (rsp_vdi_id (rsp_of r)) v]> (heap w)
           else heap w)
          (errno w)
          (trace w ++ [EvReq (cluster v) req_lock_vdi (data_of_name (name v))])).
Proof.
  intros Hp E. unfold lock_vdi, bind, load. rewrite Hp.
  unfold sd_run_sdreq. use_exec E.
  destruct (Z.eqb_spec (ret_of r) SD_RES_SUCCESS) as [Hr|Hr]; cbn [negb].
  - unfold store, ret. cbn [heap]. rewrite Hp. cbn [heap]. rewrite Hp.
    rewrite Hr. reflexivity.
  - reflexivity.
Qed.

(** [lock_vdi] looks at the return value of the transport only: once that
    is [SD_RES_SUCCESS] it stores the id of the response and returns
    [SD_RES_SUCCESS], whatever the [result] of the response says. *)
Lemma lock_vdi_transport_only p v (w : world remote) r s' :
  heap w !! p = Some v ->
  sd_exec (cluster_state w) (cluster v) req_lock_vdi (data_of_name (name v))
    = (r, s') ->
  ret_of r = SD_RES_SUCCESS ->
  lock_vdi sd_exec p w =
  Some (SD_RES_SUCCESS,
        mk_world s' (<[p := set_vid (rsp_vdi_id (rsp_of r)) v]> (heap w))
          (errno w)
          (trace w ++ [EvReq (cluster v) req_lock_vdi (data_of_name (name v))])).
Proof.
  intros Hp E Hr. rewrite (lock_vdi_run p v w r s' Hp E), Hr, Z.eqb_refl.
  reflexivity.
Qed.

Lemma unlock_vdi_run p v (w : world remote) r s' :
  heap w !! p = Some v ->
  sd_exec (cluster_state w) (cluster v) (req_release_vdi (vid v)) DNull
    = (r, s') ->
  unlock_vdi sd_exec p w =
  Some (ret_of r,
        after w s' [EvReq (cluster v) (req_release_vdi (vid v)) DNull]).
Proof.
  intros Hp E. unfold unlock_vdi, bind, load. rewrite Hp.
  unfold sd_run_sdreq. use_exec E.
  destruct (Z.eqb_spec (ret_of r) SD_RES_SUCCESS) as [Hr|Hr]; cbn [negb].
  - unfold ret. rewrite Hr. reflexivity.
  - reflexivity.
Qed.

Lemma free_vdi_run p v (w : world remote) :
  heap w !! p = Some v ->
  free_vdi p w =
  Some (tt, mk_world (cluster_state w) (delete p (heap w)) (errno w)
              (trace w ++ [EvFree p])).
Proof.
  intros Hp. unfold free_vdi, bind, load, store. rewrite Hp. cbn [heap].
  rewrite Hp. cbn. rewrite delete_insert_eq. reflexivity.
Qed.

(** *** [sd_vdi_open] in closed form *)

Lemma sd_vdi_open_run c name (w : world remote) r1 s1 r2 s2 r3 s3 :
  let new := fresh (dom (heap w)) in
  let vid := rsp_vdi_id (rsp_of r1) in
  let lock_ev := EvReq c req_lock_vdi (data_of_name name) in
  let read_ev :=
    EvReq c (req_read_obj (vid_to_vdi_oid vid) SD_INODE_SIZE 0) DBuffer in
  let unlock_ev := EvReq c (req_release_vdi vid) DNull in
  sd_exec (cluster_state w) c req_lock_vdi (data_of_name name) = (r1, s1) ->
  sd_exec s1 c (req_read_obj (vid_to_vdi_oid vid) SD_INODE_SIZE 0) DBuffer
    = (r2, s2) ->
  sd_exec s2 c (req_release_vdi vid) DNull = (r3, s3) ->
  sd_vdi_open sd_exec c name w =
  if ret_of r1 =? SD_RES_SUCCESS then
    if ret_of r2 =? SD_RES_SUCCESS then
      if vdi_is_snapshot (inode_of r2) then
        Some (None,
              mk_world s3 (heap w) SD_RES_INVALID_PARMS
                (trace w ++ [lock_ev; read_ev; unlock_ev; EvFree new]))
      else
        Some (Some new,
              mk_world s2
                (<[new := mk_vdi c (Some (inode_of r2)) vid name RW_UNLOCKED]>
                   (heap w))
                (errno w)
                (trace w ++ [lock_ev; read_ev]))
    else
      Some (None,
            mk_world s3 (heap w) (ret_of r2)
              (trace w ++ [lock_ev; read_ev; unlock_ev; EvFree new]))
  else
    Some (None,
          mk_world s1 (heap w) (ret_of r1) (trace w ++ [lock_ev; EvFree new])).
Proof.
  intros new vid lock_ev read_ev unlock_ev E1 E2 E3.
  assert (Hfresh : heap w !! new = None).
  { apply not_elem_of_dom. apply is_fresh. }
  unfold sd_vdi_open. unfold bind at 1. unfold alloc_vdi. fold new.
  unfold bind at 1.
  set (v0 := mk_vdi c None 0 name RW_UNLOCKED).
  rewrite (lock_vdi_run new v0
             (mk_world (cluster_state w) (<[new := v0]> (heap w)) (errno w)
                (trace w))
             r1 s1 (lookup_insert_eq _ _ _) E1).
  cbn [cluster_state heap errno trace].
  destruct (Z.eqb_spec (ret_of r1) SD_RES_SUCCESS) as [H1|H1]; cbn [negb].
  2:{ unfold bind at 1. unfold set_errno. cbn [cluster_state heap errno trace].
      unfold out_free, bind.
      rewrite (free_vdi_run new v0
                 (mk_world s1 (<[new := v0]> (heap w)) (ret_of r1) _)
                 (lookup_insert_eq _ _ _)).
      cbn [cluster_state heap errno trace]. unfold ret.
      rewrite (delete_insert_id _ _ _ Hfresh), <- app_assoc. reflexivity. }
  rewrite insert_insert_eq.
  set (v1 := set_vid (rsp_vdi_id (rsp_of r1)) v0).
  unfold bind at 1. unfold load at 1. cbn [heap].
  rewrite lookup_insert_eq.
  unfold bind at 1. unfold sd_run_sdreq at 1. cbn [cluster_state heap errno trace].
  use_exec E2.
  unfold bind at 1. unfold load at 1. cbn [heap]. rewrite lookup_insert_eq.
  unfold bind at 1. unfold store at 1. cbn [heap]. rewrite lookup_insert_eq.
  cbn [cluster_state heap errno trace]. rewrite insert_insert_eq.
  set (v2 := set_inode (Some (inode_of r2)) v1).
  assert (Hout : forall e e0 tr,
    bind (set_errno e) (fun _ => out_unlock sd_exec new)
      (mk_world s2 (<[new := v2]> (heap w)) e0 tr) =
    Some (None,
          mk_world s3 (heap w) e
            (tr ++ [EvReq c (req_release_vdi vid) DNull; EvFree new]))).
  { intros e e0 tr. unfold bind at 1. unfold set_errno.
    cbn [cluster_state heap errno trace].
    unfold out_unlock. unfold bind at 1.
    rewrite (unlock_vdi_run new v2
               (mk_world s2 (<[new := v2]> (heap w)) e tr) r3 s3
               (lookup_insert_eq _ _ _) E3).
    unfold after. cbn [cluster_state heap errno trace].
    unfold out_free, bind.
    rewrite (free_vdi_run new v2
               (mk_world s3 (<[new := v2]> (heap w)) e _)
               (lookup_insert_eq _ _ _)).
    cbn [cluster_state heap errno trace]. unfold ret.
    rewrite (delete_insert_id _ _ _ Hfresh), <- app_assoc. reflexivity. }
  destruct (Z.eqb_spec (ret_of r2) SD_RES_SUCCESS) as [H2|H2]; cbn [negb].
  2:{ rewrite Hout, <- !app_assoc. reflexivity. }
  destruct (vdi_is_snapshot (inode_of r2)).
  - rewrite Hout, <- !app_assoc. reflexivity.
  - unfold ret. rewrite <- !app_assoc. reflexivity.
Qed.

(** *** The volume operations, call by call *)

(** C1. A [sd_vdi_snapshot] with a non-empty name and tag whose lookup of
    (name, tag) is answered with [SD_RES_NO_TAG] goes on as follows, [r2]
    to [r5] being what the cluster answers to the requests named below.
    It looks up the head of [name], with no tag.  If that fails it returns
    the failure.  Otherwise it reads [SD_INODE_HEADER_SIZE] bytes of the
    header object of the volume the lookup answered; the inode is what
    this read leaves in the buffer.  If the read fails it returns the
    failure.  If the store policy of the inode is not 0 (hyper volume) it
    returns [SD_RES_INVALID_PARMS], and the three requests so far are all
    it has sent: no tag is written.  Otherwise it writes the tag into the
    header object of the inode, at the offset of the member [tag].  If the
    write fails it returns the failure and sends nothing more.  Only after
    the write it sends one [SD_OP_NEW_VDI] whose base volume id and size
    are those of the inode just tagged, with the snapshot id 1 and the
    store policy 0, and returns what the transport returns for it.  The
    trace of the call is given in full, so the order of the requests is
    the order stated. *)
Theorem sd_vdi_snapshot_no_tag_order
    c name tag (w : world remote) r1 s1 r2 s2 r3 s3 r4 s4 r5 s5 :
  let lookup_tag := EvReq c req_get_vdi_info (name_tag_buf name (Some tag)) in
  let lookup_head := EvReq c req_get_vdi_info (name_tag_buf name None) in
  let read_header :=
    req_read_obj (vid_to_vdi_oid (rsp_vdi_id (rsp_of r2)))
      SD_INODE_HEADER_SIZE SD_FLAG_CMD_DIRECT in
  let inode := inode_of r3 in
  let write_tag :=
    req_write_obj (vid_to_vdi_oid (inode_vdi_id inode)) SD_MAX_VDI_TAG_LEN
      offsetof_sd_inode_tag SD_FLAG_CMD_WRITE in
  let new_head :=
    req_new_vdi (inode_vdi_id inode) 1 (inode_vdi_size inode) 0 in
  name <> EmptyString -> tag <> EmptyString ->
  SD_RES_NO_TAG <> SD_RES_SUCCESS ->
  sd_exec (cluster_state w) c req_get_vdi_info (name_tag_buf name (Some tag))
    = (r1, s1) ->
  two_stage r1 = SD_RES_NO_TAG ->
  sd_exec s1 c req_get_vdi_info (name_tag_buf name None) = (r2, s2) ->
  sd_exec s2 c read_header DBuffer = (r3, s3) ->
  sd_exec s3 c write_tag (DTag tag) = (r4, s4) ->
  sd_exec s4 c new_head (DName (inode_name inode)) = (r5, s5) ->
  sd_vdi_snapshot sd_exec c (Some name) (Some tag) w =
  if negb (two_stage r2 =? SD_RES_SUCCESS) then
    Some (two_stage r2,
          mk_world s2 (heap w) (errno w)
            (trace w ++
             [lookup_tag; lookup_head;
              EvFprintf "Failed to read inode: %s\n" [FStr (Some name)]]))
  else if negb (two_stage r3 =? SD_RES_SUCCESS) then
    Some (two_stage r3,
          mk_world s3 (heap w) (errno w)
            (trace w ++
             [lookup_tag; lookup_head; EvReq c read_header DBuffer;
              EvFprintf "Failed to read inode: %s\n" [FStr (Some name)]]))
  else if negb (inode_store_policy inode =? 0) then
    Some (SD_RES_INVALID_PARMS,
          mk_world s3 (heap w) (errno w)
            (trace w ++
             [lookup_tag; lookup_head; EvReq c read_header DBuffer;
              EvFprintf "Creating a snapshot of hypervolume is not supported\n"
                []]))
  else if negb (two_stage r4 =? SD_RES_SUCCESS) then
    Some (two_stage r4,
          mk_world s4 (heap w) (errno w)
            (trace w ++
             [lookup_tag; lookup_head; EvReq c read_header DBuffer;
              EvReq c write_tag (DTag tag);
              EvFprintf "Failed to write object:%lx\n"
                [FHex64 (vid_to_vdi_oid (inode_vdi_id inode))]]))
  else
    Some (ret_of r5,
          mk_world s5 (heap w) (errno w)
            (trace w ++
             [lookup_tag; lookup_head; EvReq c read_header DBuffer;
              EvReq c write_tag (DTag tag);
              EvReq c new_head (DName (inode_name inode))] ++
             (if ret_of r5 =? SD_RES_SUCCESS then []
              else [EvFprintf "Failed to snapshot:%s\n"
                      [FStr (Some (sd_strerr (ret_of r5)))]]))).
Proof.
  intros lookup_tag lookup_head read_header inode write_tag new_head
    Hname Htag Hnt E1 H1 E2 E3 E4 E5.
  pose proof (find_vdi_run c name (Some tag) false w r1 s1 E1) as Hfind.
  fold (two_stage r1) in Hfind. rewrite H1 in Hfind.
  pose proof (vdi_read_inode_replies c name None true (after w s1 [lookup_tag])
                r2 s2 r3 s3 E2 E3) as Hread.
  cbv zeta in Hread. fold lookup_head read_header inode in Hread.
  destruct (Z.eqb_spec (two_stage r2) SD_RES_SUCCESS) as [H2|H2]; cbn [negb].
  2:{ rewrite (snapshot_fetch_failed c name tag Hname Htag Hnt w _ _ Hfind
                 _ _ _ Hread H2).
      unfold logged, after. cbn [cluster_state heap errno trace].
      rewrite <- !app_assoc. reflexivity. }
  destruct (Z.eqb_spec (two_stage r3) SD_RES_SUCCESS) as [H3|H3]; cbn [negb].
  2:{ rewrite (snapshot_fetch_failed c name tag Hname Htag Hnt w _ _ Hfind
                 _ _ _ Hread H3).
      unfold logged, after. cbn [cluster_state heap errno trace].
      rewrite <- !app_assoc. reflexivity. }
  rewrite H3 in Hread.
  destruct (Z.eqb_spec (inode_store_policy inode) 0) as [Hp|Hp]; cbn [negb].
  2:{ rewrite (snapshot_hyper_rejected c name tag Hname Htag Hnt w _ _ Hfind
                 _ inode Hread Hp).
      unfold logged, after. cbn [cluster_state heap errno trace].
      rewrite <- !app_assoc. reflexivity. }
  pose proof (write_object_run c (vid_to_vdi_oid (inode_vdi_id inode))
                (DTag tag) SD_MAX_VDI_TAG_LEN offsetof_sd_inode_tag
                (after (after w s1 [lookup_tag]) s3
                   [lookup_head; EvReq c read_header DBuffer])
                r4 s4 E4) as Hwrite.
  fold write_tag in Hwrite.
  destruct (Z.eqb_spec (two_stage r4) SD_RES_SUCCESS) as [H4|H4]; cbn [negb].
  2:{ rewrite (snapshot_write_failed c name tag Hname Htag Hnt w _ _ Hfind
                 _ inode Hread Hp _ _ Hwrite H4).
      unfold logged, after. cbn [cluster_state heap errno trace].
      rewrite <- !app_assoc. reflexivity. }
  rewrite H4 in Hwrite.
  rewrite (snapshot_new_head c name tag Hname Htag Hnt w _ _ Hfind
             _ inode Hread Hp _ r5 s5 Hwrite E5).
  unfold after. cbn [cluster_state heap errno trace].
  rewrite <- !app_assoc. reflexivity.
Qed.


(** C10. When [sd_vdi_snapshot] gets as far as the creation of the new
    head, the name it sends with the [SD_OP_NEW_VDI] request is the member
    [name] of the inode header it read back, whatever the argument [name]
    of the call is. *)
Theorem sd_vdi_snapshot_new_head_name
    c name tag (w w1 w2 w3 : world remote) (o : option Z) (inode : sd_inode) :
  name <> EmptyString -> tag <> EmptyString ->
  SD_RES_NO_TAG <> SD_RES_SUCCESS ->
  find_vdi sd_exec c name (Some tag) false w
    = Some ((SD_RES_NO_TAG, o), w1) ->
  vdi_read_inode sd_exec c name None true w1
    = Some ((SD_RES_SUCCESS, Some inode), w2) ->
  inode_store_policy inode = 0 ->
  write_object sd_exec c (vid_to_vdi_oid (inode_vdi_id inode)) 0
    (DTag tag) SD_MAX_VDI_TAG_LEN offsetof_sd_inode_tag 0 false false w2
    = Some (SD_RES_SUCCESS, w3) ->
  exists hdr r s4 log,
    opcode hdr = SD_OP_NEW_VDI /\
    requests log = [] /\
    sd_vdi_snapshot sd_exec c (Some name) (Some tag) w =
      Some (ret_of r,
            after w3 s4 (EvReq c hdr (DName (inode_name inode)) :: log)) /\
    (inode_name inode <> name ->
     EvReq c hdr (DName (inode_name inode)) <> EvReq c hdr (DName name)).
Proof.
  intros Hname Htag Hnt Hfind Hread Hp Hwrite.
  destruct (sd_exec (cluster_state w3) c
              (req_new_vdi (inode_vdi_id inode) 1 (inode_vdi_size inode) 0)
              (DName (inode_name inode))) as [r4 s4] eqn:E4.
  eexists _, r4, s4, _. split; [|split; [|split; [
    exact (snapshot_new_head c name tag Hname Htag Hnt w w1 o Hfind
             w2 inode Hread Hp w3 r4 s4 Hwrite E4) |]]].
  - reflexivity.
  - destruct (ret_of r4 =? SD_RES_SUCCESS); reflexivity.
  - intros Hdiff [= Heq]. contradiction.
Qed.

(** X20. What [sd_vdi_open] does is decided by what [sd_run_sdreq] returns
    for the lock request and for the read, and by the snapshot test;
    [rsp->result] of neither reply is looked at.  If the lock request
    returns a failure, the handle is freed and [NULL] returned, and no
    release request is sent.  If the read returns a failure, or the inode
    read is a snapshot, a release request for the locked volume is sent,
    then the handle is freed, then [NULL] is returned; [errno] is the
    failure, or [SD_RES_INVALID_PARMS] for a snapshot.  In all other cases
    the handle is returned, live and holding the buffer of the read. *)
Theorem sd_vdi_open_outcomes c name (w : world remote) :
  let new := fresh (dom (heap w)) in
  let lock_ev := EvReq c req_lock_vdi (data_of_name name) in
  exists r1 s1 r2 s2 r3 s3,
    let vid := rsp_vdi_id (rsp_of r1) in
    let read_ev :=
      EvReq c (req_read_obj (vid_to_vdi_oid vid) SD_INODE_SIZE 0) DBuffer in
    let unlock_ev := EvReq c (req_release_vdi vid) DNull in
    sd_exec (cluster_state w) c req_lock_vdi (data_of_name name) = (r1, s1) /\
    sd_exec s1 c (req_read_obj (vid_to_vdi_oid vid) SD_INODE_SIZE 0) DBuffer
      = (r2, s2) /\
    sd_exec s2 c (req_release_vdi vid) DNull = (r3, s3) /\
    (ret_of r1 <> SD_RES_SUCCESS ->
     sd_vdi_open sd_exec c name w =
       Some (None,
             mk_world s1 (heap w) (ret_of r1)
               (trace w ++ [lock_ev; EvFree new]))) /\
    (ret_of r1 = SD_RES_SUCCESS ->
     ret_of r2 <> SD_RES_SUCCESS \/ vdi_is_snapshot (inode_of r2) = true ->
     sd_vdi_open sd_exec c name w =
       Some (None,
             mk_world s3 (heap w)
               (if ret_of r2 =? SD_RES_SUCCESS then SD_RES_INVALID_PARMS
                else ret_of r2)
               (trace w ++ [lock_ev; read_ev; unlock_ev; EvFree new]))) /\
    (ret_of r1 = SD_RES_SUCCESS ->
     ret_of r2 = SD_RES_SUCCESS -> vdi_is_snapshot (inode_of r2) = false ->
     sd_vdi_open sd_exec c name w =
       Some (Some new,
             mk_world s2
               (<[new := mk_vdi c (Some (inode_of r2)) vid name RW_UNLOCKED]>
                  (heap w))
               (errno w)
               (trace w ++ [lock_ev; read_ev]))) /\
    (forall p w',
       sd_vdi_open sd_exec c name w = Some (Some p, w') ->
       ret_of r1 = SD_RES_SUCCESS /\ ret_of r2 = SD_RES_SUCCESS /\
       vdi_is_snapshot (inode_of r2) = false /\ is_Some (heap w' !! p)).
Proof.
  intros new lock_ev.
  destruct (sd_exec (cluster_state w) c req_lock_vdi (data_of_name name))
    as [r1 s1] eqn:E1.
  destruct (sd_exec s1 c (req_read_obj (vid_to_vdi_oid (rsp_vdi_id (rsp_of r1)))
              SD_INODE_SIZE 0) DBuffer) as [r2 s2] eqn:E2.
  destruct (sd_exec s2 c (req_release_vdi (rsp_vdi_id (rsp_of r1))) DNull)
    as [r3 s3] eqn:E3.
  exists r1, s1, r2, s2, r3, s3. intros vid read_ev unlock_ev.
  pose proof (sd_vdi_open_run c name w r1 s1 r2 s2 r3 s3 E1 E2 E3) as Hrun.
  cbv zeta in Hrun. fold new vid lock_ev read_ev unlock_ev in Hrun.
  split; [reflexivity|]. split; [exact E2|]. split; [exact E3|].
  revert Hrun.
  destruct (Z.eqb_spec (ret_of r1) SD_RES_SUCCESS) as [H1|H1];
    [destruct (Z.eqb_spec (ret_of r2) SD_RES_SUCCESS) as [H2|H2];
       [destruct (vdi_is_snapshot (inode_of r2)) eqn:Hsnap|]|];
    intros Hrun.
  - split; [intros; contradiction|].
    split; [intros _ _; exact Hrun|].
    split; [intros; discriminate|].
    intros p w' Hopen. rewrite Hrun in Hopen. discriminate.
  - split; [intros; contradiction|].
    split; [intros _ [?|?]; (contradiction || discriminate)|].
    split; [intros _ _ _; exact Hrun|].
    intros p w' Hopen. rewrite Hrun in Hopen.
    injection Hopen as <- <-. repeat split; auto.
    cbn [heap]. rewrite lookup_insert_eq. eauto.
  - split; [intros; contradiction|].
    split; [intros _ _; exact Hrun|].
    split; [intros; contradiction|].
    intros p w' Hopen. rewrite Hrun in Hopen. discriminate.
  - split; [intros _; exact Hrun|].
    split; [intros; contradiction|].
    split; [intros; contradiction|].
    intros p w' Hopen. rewrite Hrun in Hopen. discriminate.
Qed.

(** X21. [sd_vdi_close] on a live handle sends the release request, and
    what it does next is decided by what [sd_run_sdreq] returns for it;
    [rsp->result] of the reply is not looked at.  If it returns a failure,
    the failure is returned and the heap is what it was: the handle is
    neither freed nor changed, and only a line on stderr is added.  If it
    returns [SD_RES_SUCCESS], the handle is freed and 0 returned. *)
Theorem sd_vdi_close_outcomes p v (w : world remote) :
  heap w !! p = Some v ->
  let release := EvReq (cluster v) (req_release_vdi (vid v)) DNull in
  exists r s',
    sd_exec (cluster_state w) (cluster v) (req_release_vdi (vid v)) DNull
      = (r, s') /\
    (ret_of r <> SD_RES_SUCCESS ->
     exists line w',
       is_req line = false /\
       sd_vdi_close sd_exec p w = Some (ret_of r, w') /\
       w' = mk_world s' (heap w) (errno w) (trace w ++ [release; line]) /\
       heap w' !! p = Some v) /\
    (ret_of r = SD_RES_SUCCESS ->
     exists w',
       sd_vdi_close sd_exec p w = Some (0, w') /\
       w' = mk_world s' (delete p (heap w)) (errno w)
              (trace w ++ [release; EvFree p]) /\
       heap w' !! p = None).
Proof.
  intros Hp release. subst release.
  destruct (sd_exec (cluster_state w) (cluster v) (req_release_vdi (vid v))
              DNull) as [r s'] eqn:E.
  exists r, s'. split; [reflexivity|].
  pose proof (unlock_vdi_run p v w r s' Hp E) as Hunlock.
  split; intros Hr.
  - exists (EvFprintf "failed to unlock %s\n" [FStr (name v)]).
    eexists. split; [reflexivity|]. split; [|split; [reflexivity|exact Hp]].
    unfold sd_vdi_close. unfold bind at 1. rewrite Hunlock.
    destruct (Z.eqb_spec (ret_of r) SD_RES_SUCCESS); [contradiction|].
    cbn [negb]. unfold bind, load, after. cbn [heap]. rewrite Hp.
    unfold fprintf_stderr, emit, ret. cbn [cluster_state heap errno trace].
    rewrite <- app_assoc. reflexivity.
  - eexists. split; [|split; [reflexivity|apply lookup_delete_eq]].
    unfold sd_vdi_close. unfold bind at 1. rewrite Hunlock, Hr.
    rewrite Z.eqb_refl. cbn [negb]. unfold bind.
    rewrite (free_vdi_run p v (after w s' _) Hp).
    unfold ret, after. cbn [cluster_state heap errno trace].
    rewrite <- app_assoc. reflexivity.
Qed.

(** C6. [sd_vdi_clone] with a null or empty destination name, source tag or
    source name returns [SD_RES_INVALID_PARMS] and sends nothing.  With all
    three non-empty, [r1] to [r3] being what the cluster answers to the
    requests named below: it looks up (source name, source tag); if that
    fails it returns the failure and sends nothing more.  Otherwise it
    reads [SD_INODE_SIZE] bytes of the header object of the volume the
    lookup answered; the source inode is what this read leaves in the
    buffer; if the read fails it returns the failure and sends nothing
    more.  Otherwise it sends one [SD_OP_NEW_VDI] for the destination name
    whose size and store policy are those of the source inode and whose
    base volume id is the id of the source inode, with the snapshot id 0,
    and returns what the transport returns for it.  The trace of the call
    is given in full. *)
Theorem sd_vdi_clone_outcomes c (w : world remote) :
  (forall srcname srctag dstname,
     (dstname = None \/ dstname = Some EmptyString) \/
     (srctag = None \/ srctag = Some EmptyString) \/
     (srcname = None \/ srcname = Some EmptyString) ->
     exists line,
       is_req line = false /\
       sd_vdi_clone sd_exec c srcname srctag dstname w =
         Some (SD_RES_INVALID_PARMS, logged w [line])) /\
  (forall srcname srctag dstname r1 s1 r2 s2 r3 s3,
     let lookup :=
       EvReq c req_get_vdi_info (name_tag_buf srcname (Some srctag)) in
     let read :=
       req_read_obj (vid_to_vdi_oid (rsp_vdi_id (rsp_of r1))) SD_INODE_SIZE
         SD_FLAG_CMD_DIRECT in
     let inode := inode_of r2 in
     let create :=
       req_new_vdi (inode_vdi_id inode) 0 (inode_vdi_size inode)
         (inode_store_policy inode) in
     srcname <> EmptyString -> srctag <> EmptyString ->
     dstname <> EmptyString ->
     sd_exec (cluster_state w) c req_get_vdi_info
       (name_tag_buf srcname (Some srctag)) = (r1, s1) ->
     sd_exec s1 c read DBuffer = (r2, s2) ->
     sd_exec s2 c create (DName dstname) = (r3, s3) ->
     sd_vdi_clone sd_exec c (Some srcname) (Some srctag) (Some dstname) w =
     if negb (two_stage r1 =? SD_RES_SUCCESS) then
       Some (two_stage r1,
             mk_world s1 (heap w) (errno w)
               (trace w ++
                [lookup;
                 EvFprintf "Failed to read inode for VDI: %s (tag: %s)\n"
                   [FStr (Some srcname); FStr (Some srctag)]]))
     else if negb (two_stage r2 =? SD_RES_SUCCESS) then
       Some (two_stage r2,
             mk_world s2 (heap w) (errno w)
               (trace w ++
                [lookup; EvReq c read DBuffer;
                 EvFprintf "Failed to read inode for VDI: %s (tag: %s)\n"
                   [FStr (Some srcname); FStr (Some srctag)]]))
     else
       Some (ret_of r3,
             mk_world s3 (heap w) (errno w)
               (trace w ++
                [lookup; EvReq c read DBuffer;
                 EvReq c create (DName dstname)] ++
                (if ret_of r3 =? SD_RES_SUCCESS then []
                 else [EvFprintf "Clone vdi failed:%s\n"
                         [FStr (Some (sd_strerr (ret_of r3)))]])))).
Proof.
  split.
  - intros srcname srctag dstname H. rewrite <- !nonempty_None in H.
    unfold sd_vdi_clone.
    destruct (nonempty dstname) as [d|].
    2:{ eexists. split; [|reflexivity]. reflexivity. }
    destruct (nonempty srctag) as [t|].
    2:{ eexists. split; [|reflexivity]. reflexivity. }
    destruct (nonempty srcname) as [n|].
    2:{ eexists. split; [|reflexivity]. reflexivity. }
    destruct H as [H|[H|H]]; discriminate H.
  - intros srcname srctag dstname r1 s1 r2 s2 r3 s3 lookup read inode create
      Hs Ht Hd E1 E2 E3.
    pose proof (vdi_read_inode_replies c srcname (Some srctag) false w
                  r1 s1 r2 s2 E1 E2) as Hread.
    cbv zeta in Hread. fold lookup read inode in Hread.
    destruct (Z.eqb_spec (two_stage r1) SD_RES_SUCCESS) as [H1|H1];
      cbn [negb].
    2:{ rewrite (clone_resolve_failed c srcname srctag dstname Hs Ht Hd w _
                   _ _ Hread H1).
        unfold logged, after. cbn [cluster_state heap errno trace].
        rewrite <- !app_assoc. reflexivity. }
    destruct (Z.eqb_spec (two_stage r2) SD_RES_SUCCESS) as [H2|H2];
      cbn [negb].
    2:{ rewrite (clone_resolve_failed c srcname srctag dstname Hs Ht Hd w _
                   _ _ Hread H2).
        unfold logged, after. cbn [cluster_state heap errno trace].
        rewrite <- !app_assoc. reflexivity. }
    rewrite H2 in Hread.
    rewrite (clone_create c srcname srctag dstname Hs Ht Hd w _ inode r3 s3
               Hread E3).
    unfold after. cbn [cluster_state heap errno trace].
    rewrite <- !app_assoc. reflexivity.
Qed.

(** C8. [sd_vdi_create] with a size of 0, a size above [SD_MAX_VDI_SIZE],
    or a null or empty name returns [SD_RES_INVALID_PARMS] at once: the
    cluster is not contacted, and all that is left behind is one line on
    stderr. *)
Theorem sd_vdi_create_rejects_locally c name size (w : world remote) :
  size = 0 \/ size > SD_MAX_VDI_SIZE \/ name = None \/ name = Some EmptyString ->
  exists fmt,
    sd_vdi_create sd_exec c name size w =
      Some (SD_RES_INVALID_PARMS, logged w [EvFprintf fmt []]) /\
    requests (trace (logged w [EvFprintf fmt []])) = requests (trace w).
Proof.
  intros H. unfold sd_vdi_create.
  assert (Hreq : forall fmt,
    requests (trace (logged w [EvFprintf fmt []])) = requests (trace w)).
  { intros fmt. unfold requests, logged, after. simpl.
    rewrite List.filter_app. simpl. apply app_nil_r. }
  destruct (Z.gtb_spec size SD_MAX_VDI_SIZE) as [Hbig|Hsmall].
  { eexists. split; [reflexivity | apply Hreq]. }
  destruct (Z.eqb_spec size 0) as [Hz|Hnz].
  { eexists. split; [reflexivity | apply Hreq]. }
  assert (Hn : nonempty name = None).
  { apply nonempty_None. destruct H as [?|[?|[?|?]]]; auto; lia. }
  rewrite Hn. eexists. split; [reflexivity | apply Hreq].
Qed.

(** C9. A [sd_vdi_create] that passes the local checks sends exactly one
    request, a [SD_OP_NEW_VDI] whose store policy is 1 (hyper volume) when
    the size is above [SD_OLD_MAX_VDI_SIZE] and 0 otherwise, whose base
    volume id is 0 and whose snapshot id is 0; the result of the call is
    what the transport returns. *)
Theorem sd_vdi_create_request c name size (w : world remote) :
  size <> 0 -> size <= SD_MAX_VDI_SIZE -> name <> EmptyString ->
  exists hdr r s',
    sd_exec (cluster_state w) c hdr (DName name) = (r, s') /\
    sd_vdi_create sd_exec c (Some name) size w =
      Some (ret_of r, after w s' [EvReq c hdr (DName name)]) /\
    opcode hdr = SD_OP_NEW_VDI /\
    vdi_vdi_size hdr = size /\
    (size > SD_OLD_MAX_VDI_SIZE -> vdi_store_policy hdr = 1) /\
    (size <= SD_OLD_MAX_VDI_SIZE -> vdi_store_policy hdr = 0) /\
    vdi_base_vdi_id hdr = 0 /\
    vdi_snapid hdr = 0.
Proof.
  intros Hnz Hmax Hname.
  remember (if size >? SD_OLD_MAX_VDI_SIZE then 1 else 0) as policy
    eqn:Hpolicy.
  destruct (sd_exec (cluster_state w) c (req_new_vdi 0 0 size policy)
              (DName name)) as [r s'] eqn:E.
  exists (req_new_vdi 0 0 size policy), r, s'.
  split; [exact E|]. split.
  - unfold sd_vdi_create.
    destruct (Z.gtb_spec size SD_MAX_VDI_SIZE); [lia|].
    destruct (Z.eqb_spec size 0); [lia|].
    rewrite (nonempty_Some _ Hname). cbv zeta. rewrite <- Hpolicy.
    unfold bind at 1.
    rewrite (do_vdi_create_run c (Some name) size 0 false false policy w r s' E).
    reflexivity.
  - simpl. subst policy. repeat split; try reflexivity.
    + intros Hgt. destruct (Z.gtb_spec size SD_OLD_MAX_VDI_SIZE); [reflexivity|lia].
    + intros Hle. destruct (Z.gtb_spec size SD_OLD_MAX_VDI_SIZE); [lia|reflexivity].
Qed.

End VdiFacts.

(** ** The request queue *)
Module QueueFacts.

Import Queue.

(** A thread alone, the lock free and room in the counter: the request is
    the new last element, the lock is free again, the counter is one up. *)
Lemma run_queue_request t req q :
  request_lock q = rw_free ->
  request_fd q + 1 <= eventfd_max ->
  run t (queue_request req) q =
  Some (mk_queue rw_free (request_list q ++ [req]) (request_fd q + 1)).
Proof.
  intros Hfree Hroom. unfold queue_request, run, exec.
  rewrite Hfree. cbn [request_lock request_list request_fd].
  rewrite decide_True by reflexivity.
  cbn [request_lock request_list request_fd].
  rewrite decide_True by exact Hroom. reflexivity.
Qed.

(** The five places a thread of [queue_request] can be at. *)
Lemma enqueuer_cases prog :
  enqueuer prog ->
  exists req,
    prog = [sd_write_lock; list_add_tail req; sd_rw_unlock; eventfd_xwrite 1] \/
    prog = [list_add_tail req; sd_rw_unlock; eventfd_xwrite 1] \/
    prog = [sd_rw_unlock; eventfd_xwrite 1] \/
    prog = [eventfd_xwrite 1] \/
    prog = [].
Proof.
  intros (req & k & ->). exists req.
  destruct k as [|[|[|[|k]]]]; cbn;
    [left | right; left | do 2 right; left | do 3 right; left | do 4 right];
    try reflexivity.
  apply drop_nil.
Qed.

Lemma enqueuer_tail a rest : enqueuer (a :: rest) -> enqueuer rest.
Proof.
  intros (req & k & H). exists req, (S k).
  replace (S k) with (k + 1)%nat by lia.
  rewrite <- drop_drop, <- H. reflexivity.
Qed.

Lemma lock_discipline_start q reqs : lock_discipline q (enqueuers reqs).
Proof.
  intros t prog Hp. unfold enqueuers in Hp.
  rewrite list_lookup_fmap in Hp.
  destruct (reqs !! t) as [req|]; [|discriminate].
  injection Hp as <-. split.
  - exists req, 0%nat. reflexivity.
  - intros (req' & [H|H]); discriminate H.
Qed.

Lemma step_lock_discipline q p l q' p' :
  lock_discipline q p -> step (q, p) l (q', p') -> lock_discipline q' p'.
Proof.
  intros Hinv Hstep. inversion Hstep as [q0 p0 t a rest q1 Hp He]; subst.
  intros t' prog' Hp'.
  destruct (decide (t' = t)) as [->|Hne].
  - assert (Hlt : (t < length p)%nat) by (eapply lookup_lt_Some; eauto).
    rewrite list_lookup_insert_eq in Hp' by exact Hlt.
    injection Hp' as <-.
    destruct (Hinv t _ Hp) as [Henq Hcrit].
    split; [eapply enqueuer_tail; eauto|].
    intros Hc.
    destruct (enqueuer_cases _ Henq) as (req & [H|[H|[H|[H|H]]]]);
      try discriminate H; injection H as -> ->.
    + unfold exec in He. destruct (request_lock q); try discriminate.
      injection He as <-. reflexivity.
    + cbn in He. injection He as <-. cbn. apply Hcrit.
      exists req. left. reflexivity.
    + destruct Hc as (r' & [Hc|Hc]); discriminate Hc.
    + destruct Hc as (r' & [Hc|Hc]); discriminate Hc.
  - rewrite list_lookup_insert_ne in Hp' by congruence.
    destruct (Hinv t' _ Hp') as [Henq Hcrit].
    split; [exact Henq|]. intros Hc. specialize (Hcrit Hc).
    destruct a; cbn in He.
    + rewrite Hcrit in He. discriminate.
    + injection He as <-. exact Hcrit.
    + rewrite Hcrit in He. destruct (decide (t' = t)); [contradiction|discriminate].
    + destruct (decide (request_fd q + value <= eventfd_max)); [|discriminate].
      injection He as <-. exact Hcrit.
Qed.

(** Replacing the program of thread [t] in a pool. *)
Lemma pool_split (p : pool) t prog rest :
  p !! t = Some prog ->
  exists p1 p2, p = p1 ++ prog :: p2 /\ <[t := rest]> p = p1 ++ rest :: p2.
Proof.
  intros Hp. destruct (list_elem_of_split_length _ _ _ Hp) as (p1 & p2 & -> & ->).
  exists p1, p2. split; [reflexivity|].
  replace (length p1) with (length p1 + 0)%nat by lia.
  rewrite insert_app_r. reflexivity.
Qed.

Lemma pool_pending_app p1 p2 :
  pool_pending (p1 ++ p2) = pool_pending p1 ++ pool_pending p2.
Proof. unfold pool_pending. apply List.flat_map_app. Qed.

Lemma pool_to_signal_app p1 p2 :
  pool_to_signal (p1 ++ p2) = pool_to_signal p1 + pool_to_signal p2.
Proof.
  unfold pool_to_signal. induction p1 as [|prog p1 IH]; cbn; [reflexivity|].
  rewrite IH. lia.
Qed.

(** What is in the list plus what is still to be appended, and what is in
    the counter plus what is still to be signalled, do not change. *)
Lemma step_conserves q p l q' p' :
  step (q, p) l (q', p') ->
  request_list q' ++ pool_pending p' ≡ₚ request_list q ++ pool_pending p /\
  request_fd q' + pool_to_signal p' = request_fd q + pool_to_signal p.
Proof.
  intros Hstep. inversion Hstep as [q0 p0 t a rest q1 Hp He]; subst.
  destruct (pool_split p t _ rest Hp) as (p1 & p2 & -> & ->).
  rewrite !pool_pending_app, !pool_to_signal_app.
  change (pool_pending (?x :: p2)) with (pending x ++ pool_pending p2).
  change (pool_to_signal (?x :: p2)) with (to_signal x + pool_to_signal p2).
  destruct a; cbn in He.
  - destruct (request_lock q); try discriminate. injection He as <-.
    cbn. split; reflexivity.
  - injection He as <-. cbn. split; [|reflexivity].
    rewrite <- !app_assoc. apply Permutation_app_head.
    cbn. apply Permutation_middle.
  - assert (Hq : request_list q' = request_list q /\
                 request_fd q' = request_fd q).
    { destruct (request_lock q) as [|o|rs]; try discriminate;
        repeat case_decide; try discriminate; injection He as <-; auto. }
    destruct Hq as [-> ->]. cbn. split; reflexivity.
  - destruct (decide (request_fd q + value <= eventfd_max)); [|discriminate].
    injection He as <-.
    change (to_signal (eventfd_xwrite value :: rest))
      with (value + to_signal rest).
    change (pending (eventfd_xwrite value :: rest)) with (pending rest).
    cbn [request_list request_fd]. split; [reflexivity|lia].
Qed.

Lemma steps_conserves st ls st' :
  steps st ls st' ->
  request_list (fst st') ++ pool_pending (snd st')
    ≡ₚ request_list (fst st) ++ pool_pending (snd st) /\
  request_fd (fst st') + pool_to_signal (snd st')
    = request_fd (fst st) + pool_to_signal (snd st).
Proof.
  induction 1 as [st|[q p] l [q' p'] ls st'' Hstep _ [IH1 IH2]].
  - split; reflexivity.
  - destruct (step_conserves _ _ _ _ _ Hstep) as [H1 H2]. cbn [fst snd] in *.
    split; [etransitivity; eauto | lia].
Qed.

Lemma enqueuers_pending reqs : pool_pending (enqueuers reqs) = reqs.
Proof.
  induction reqs as [|r reqs IH]; [reflexivity|].
  cbn. f_equal. exact IH.
Qed.

Lemma enqueuers_to_signal reqs :
  pool_to_signal (enqueuers reqs) = Z.of_nat (length reqs).
Proof.
  induction reqs as [|r reqs IH]; [reflexivity|].
  cbn [length]. rewrite Nat2Z.inj_succ, <- IH.
  change (pool_to_signal (enqueuers (r :: reqs)))
    with (to_signal (queue_request r) + pool_to_signal (enqueuers reqs)).
  change (to_signal (queue_request r)) with (1 + 0). lia.
Qed.

Lemma finished_nothing_left p :
  finished p -> pool_pending p = [] /\ pool_to_signal p = 0.
Proof.
  induction 1 as [|prog p -> _ [IH1 IH2]]; [split; reflexivity|].
  change (pool_pending ([] :: p)) with (pool_pending p).
  change (pool_to_signal ([] :: p)) with (0 + pool_to_signal p).
  rewrite IH2. split; [exact IH1 | reflexivity].
Qed.

Lemma step_lock_owned q p l q' p' :
  lock_discipline q p -> lock_owned q p ->
  step (q, p) l (q', p') -> lock_owned q' p'.
Proof.
  intros Hinv Hown Hstep.
  inversion Hstep as [q0 p0 t a rest q1 Hp He]; subst.
  assert (Hlt : (t < length p)%nat) by (eapply lookup_lt_Some; eauto).
  destruct (Hinv t _ Hp) as [Henq Hcrit].
  destruct (enqueuer_cases _ Henq) as (req & [H|[H|[H|[H|H]]]]);
    try discriminate H; injection H as -> ->.
  - cbn in He. destruct (request_lock q); try discriminate.
    injection He as <-. right. exists t. eexists.
    split; [reflexivity|]. split; [apply list_lookup_insert_eq; exact Hlt|].
    exists req. left. reflexivity.
  - cbn in He. injection He as <-. right. exists t. eexists.
    split; [apply Hcrit; exists req; left; reflexivity|].
    split; [apply list_lookup_insert_eq; exact Hlt|].
    exists req. right. reflexivity.
  - assert (Hl : request_lock q = rw_write t).
    { apply Hcrit. exists req. right. reflexivity. }
    cbn in He. rewrite Hl in He. rewrite decide_True in He by reflexivity.
    injection He as <-. left. reflexivity.
  - cbn in He.
    destruct (decide (request_fd q + 1 <= eventfd_max)); [|discriminate].
    injection He as <-. cbn [request_lock].
    destruct Hown as [Hfree|(t0 & prog0 & Hl & Hp0 & Hc0)]; [left; exact Hfree|].
    right. exists t0, prog0. split; [exact Hl|]. split; [|exact Hc0].
    rewrite list_lookup_insert_ne; [exact Hp0|].
    intros <-. rewrite Hp in Hp0. injection Hp0 as <-.
    destruct Hc0 as (r' & [Hc|Hc]); discriminate Hc.
Qed.

Lemma steps_invariants st ls st' :
  steps st ls st' ->
  lock_discipline (fst st) (snd st) /\ lock_owned (fst st) (snd st) ->
  lock_discipline (fst st') (snd st') /\ lock_owned (fst st') (snd st').
Proof.
  induction 1 as [st|[q p] l [q' p'] ls st'' Hstep _ IH]; [auto|].
  intros [Hinv Hown]. apply IH. cbn [fst snd] in *. split.
  - eapply step_lock_discipline; eauto.
  - eapply step_lock_owned; eauto.
Qed.

Lemma pool_to_signal_bounds q p t prog :
  lock_discipline q p -> p !! t = Some prog ->
  to_signal prog <= pool_to_signal p.
Proof.
  intros Hinv Hp.
  assert (Hnn : forall p', (forall prog', prog' ∈ p' -> enqueuer prog') ->
                           0 <= pool_to_signal p').
  { induction p' as [|x p' IH]; intros Hall; [reflexivity|].
    change (pool_to_signal (x :: p')) with (to_signal x + pool_to_signal p').
    assert (0 <= to_signal x).
    { destruct (enqueuer_cases x (Hall x ltac:(left)))
        as (req & [->|[->|[->|[->| ->]]]]); cbn; lia. }
    assert (0 <= pool_to_signal p').
    { apply IH. intros y Hy. apply Hall. right. exact Hy. }
    lia. }
  assert (Hall : forall prog', prog' ∈ p -> enqueuer prog').
  { intros prog' Hin. apply list_elem_of_lookup in Hin as [i Hi].
    apply (Hinv i _ Hi). }
  destruct (pool_split p t prog prog Hp) as (p1 & p2 & Heq & _).
  rewrite Heq in Hall |- *. rewrite pool_to_signal_app.
  change (pool_to_signal (prog :: p2)) with (to_signal prog + pool_to_signal p2).
  assert (0 <= pool_to_signal p1).
  { apply Hnn. intros y Hy. apply Hall. apply elem_of_app. left. exact Hy. }
  assert (0 <= pool_to_signal p2).
  { apply Hnn. intros y Hy. apply Hall. apply elem_of_app. right. right.
    exact Hy. }
  lia.
Qed.

Lemma unfinished_thread (p : pool) :
  ~ finished p -> exists t a rest, p !! t = Some (a :: rest).
Proof.
  induction p as [|prog p IH]; intros Hnf.
  - destruct Hnf. constructor.
  - destruct prog as [|a rest].
    + destruct IH as (t & a & rest & Hp).
      { intros Hf. apply Hnf. constructor; [reflexivity | exact Hf]. }
      exists (S t), a, rest. exact Hp.
    + exists 0%nat, a, rest. reflexivity.
Qed.

(** No deadlock: under the lock discipline, with the lock free or owned by
    a thread of the pool and room in the counter for what is still to be
    signalled, a pool that is not finished can take a step. *)
Lemma enqueuers_progress q p :
  lock_discipline q p -> lock_owned q p ->
  request_fd q + pool_to_signal p <= eventfd_max ->
  ~ finished p ->
  exists l st', step (q, p) l st'.
Proof.
  intros Hinv Hown Hroom Hnf.
  destruct Hown as [Hfree|(t0 & prog0 & Hl & Hp0 & (req & [->| ->]))].
  - destruct (unfinished_thread p Hnf) as (t & a & rest & Hp).
    destruct (Hinv t _ Hp) as [Henq Hcrit].
    destruct (enqueuer_cases _ Henq) as (req & [H|[H|[H|[H|H]]]]);
      try discriminate H; injection H as -> ->.
    + do 2 eexists. eapply step_thread; [exact Hp|].
      cbn. rewrite Hfree. reflexivity.
    + rewrite Hcrit in Hfree; [discriminate|]. exists req. left. reflexivity.
    + rewrite Hcrit in Hfree; [discriminate|]. exists req. right. reflexivity.
    + pose proof (pool_to_signal_bounds q p t _ Hinv Hp) as Hb.
      change (to_signal [eventfd_xwrite 1]) with (1 + 0) in Hb.
      do 2 eexists. eapply step_thread; [exact Hp|].
      cbn. rewrite decide_True by lia. reflexivity.
  - do 2 eexists. eapply step_thread; [exact Hp0|]. reflexivity.
  - do 2 eexists. eapply step_thread; [exact Hp0|].
    cbn. rewrite Hl. rewrite decide_True by reflexivity. reflexivity.
Qed.

(** A thread does its actions in the order of its program: what it had
    to do at the start is what it has done since, then what it still has
    to do. *)
Lemma steps_program_order st ls st' t rest :
  steps st ls st' ->
  snd st' !! t = Some rest ->
  exists prog, snd st !! t = Some prog /\ prog = done_by t ls ++ rest.
Proof.
  induction 1 as [st|[q p] l [q' p'] ls st'' Hstep _ IH]; intros Hrest.
  - exists rest. split; [exact Hrest | reflexivity].
  - destruct (IH Hrest) as (prog' & Hp' & ->).
    inversion Hstep as [q0 p0 t0 a rest0 q1 Hp He]; subst.
    cbn [snd] in *.
    destruct (decide (t0 = t)) as [->|Hne].
    + assert (Hlt : (t < length p)%nat) by (eapply lookup_lt_Some; eauto).
      rewrite list_lookup_insert_eq in Hp' by exact Hlt.
      injection Hp' as ->.
      exists (a :: done_by t ls ++ rest). split; [exact Hp|].
      unfold done_by. rewrite filter_cons_True by reflexivity. reflexivity.
    + rewrite list_lookup_insert_ne in Hp' by exact Hne.
      exists (done_by t ls ++ rest). split; [exact Hp'|].
      unfold done_by. rewrite filter_cons_False by exact Hne. reflexivity.
Qed.

(** The same for threads that each enqueue one request: what a thread has
    done, then what it still has to do, is the [queue_request] of its own
    request. *)
Lemma enqueuers_program_order reqs q0 ls q p t prog :
  steps (q0, enqueuers reqs) ls (q, p) ->
  p !! t = Some prog ->
  exists req, reqs !! t = Some req /\
              queue_request req = done_by t ls ++ prog.
Proof.
  intros Hsteps Hp.
  destruct (steps_program_order _ _ _ t prog Hsteps Hp) as (prog0 & H0 & ->).
  cbn [snd] in H0. unfold enqueuers in H0. rewrite list_lookup_fmap in H0.
  destruct (reqs !! t) as [req|]; [|discriminate].
  injection H0 as H0. exists req. split; [reflexivity | exact H0].
Qed.

(** C7. [queue_request] takes the request lock as the writer, appends the
    request at the tail of the request list, releases the lock, and then
    adds exactly 1 to the counter of the eventfd, in this order.  Alone,
    from a free lock: after its first call the caller is the writer and
    nothing else has changed; after its second the request is the last
    element, the caller still the writer; after its third the lock is free
    and the counter still what it was; after its fourth, which is its
    last, the counter is one up.  With any number of threads each
    enqueueing one request, from a free lock, in every interleaving and at
    every moment: what a thread has done so far is a beginning of the
    [queue_request] of its own request; a thread that appends has done
    nothing but take the lock, is the writer, and puts its own request
    last; a thread that signals has taken the lock, appended its request
    and released the lock, in this order, does not hold the lock, and adds
    exactly 1; once all threads are through, the counter has grown by the
    number of requests and the list by these requests; and as long as the
    counter has room, the threads never block each other for good. *)
Theorem queue_request_appends_then_signals_once :
  (forall t req q,
     request_lock q = rw_free -> request_fd q + 1 <= eventfd_max ->
     run t (take 1 (queue_request req)) q =
       Some (mk_queue (rw_write t) (request_list q) (request_fd q)) /\
     run t (take 2 (queue_request req)) q =
       Some (mk_queue (rw_write t) (request_list q ++ [req]) (request_fd q)) /\
     run t (take 3 (queue_request req)) q =
       Some (mk_queue rw_free (request_list q ++ [req]) (request_fd q)) /\
     run t (take 4 (queue_request req)) q =
       Some (mk_queue rw_free (request_list q ++ [req]) (request_fd q + 1)) /\
     take 4 (queue_request req) = queue_request req) /\
  (forall reqs q0 ls q p,
     request_lock q0 = rw_free ->
     steps (q0, enqueuers reqs) ls (q, p) ->
     (forall t prog,
        p !! t = Some prog ->
        exists req, reqs !! t = Some req /\
                    queue_request req = done_by t ls ++ prog) /\
     (forall t req st',
        step (q, p) (t, list_add_tail req) st' ->
        reqs !! t = Some req /\
        done_by t ls = [sd_write_lock] /\
        request_lock q = rw_write t /\
        fst st' = mk_queue (rw_write t) (request_list q ++ [req])
                    (request_fd q)) /\
     (forall t v st',
        step (q, p) (t, eventfd_xwrite v) st' ->
        v = 1 /\
        (exists req,
           reqs !! t = Some req /\
           done_by t ls = [sd_write_lock; list_add_tail req; sd_rw_unlock]) /\
        snd st' !! t = Some [] /\
        request_lock q <> rw_write t /\
        fst st' = mk_queue (request_lock q) (request_list q)
                    (request_fd q + 1)) /\
     (finished p ->
        request_fd q = request_fd q0 + Z.of_nat (length reqs) /\
        request_list q ≡ₚ request_list q0 ++ reqs) /\
     (request_fd q0 + Z.of_nat (length reqs) <= eventfd_max ->
      ~ finished p -> exists l st', step (q, p) l st')).
Proof.
  split.
  - intros t req q Hfree Hroom. unfold queue_request, run, exec.
    cbn [take]. rewrite Hfree. cbn [request_lock request_list request_fd].
    rewrite decide_True by reflexivity.
    cbn [request_lock request_list request_fd].
    rewrite decide_True by exact Hroom. repeat split; reflexivity.
  - intros reqs q0 ls q p Hfree Hsteps.
    destruct (steps_invariants _ _ _ Hsteps) as [Hinv Hown].
    { split; [apply lock_discipline_start | left; exact Hfree]. }
    destruct (steps_conserves _ _ _ Hsteps) as [Hlist Hfd].
    cbn [fst snd] in *.
    rewrite enqueuers_pending in Hlist. rewrite enqueuers_to_signal in Hfd.
    split; [|split; [|split; [|split]]].
    + intros t prog Hp. exact (enqueuers_program_order _ _ _ _ _ _ _ Hsteps Hp).
    + intros t req st' Hstep.
      inversion Hstep as [q1 p1 t1 a rest q' Hp He]; subst.
      destruct (enqueuers_program_order _ _ _ _ _ _ _ Hsteps Hp)
        as (r & Hr & Hprog).
      destruct (Hinv t _ Hp) as [_ Hcrit].
      unfold queue_request in Hprog.
      destruct (done_by t ls) as [|a0 [|a1 [|a2 [|a3 [|a4 l]]]]];
        cbn in Hprog; try discriminate Hprog.
      injection Hprog as <- <- <-.
      cbn in He. injection He as <-. cbn [fst].
      assert (Hl : request_lock q = rw_write t).
      { apply Hcrit. exists r. left. reflexivity. }
      rewrite Hl. repeat split; auto.
    + intros t v st' Hstep.
      inversion Hstep as [q1 p1 t1 a rest q' Hp He]; subst.
      destruct (enqueuers_program_order _ _ _ _ _ _ _ Hsteps Hp)
        as (r & Hr & Hprog).
      unfold queue_request in Hprog.
      destruct (done_by t ls) as [|a0 [|a1 [|a2 [|a3 [|a4 l]]]]];
        cbn in Hprog; try discriminate Hprog.
      injection Hprog as <- <- <- <- <-.
      cbn in He.
      destruct (decide (request_fd q + 1 <= eventfd_max)); [|discriminate].
      injection He as <-. cbn [fst snd].
      split; [reflexivity|]. split; [exists r; split; [exact Hr|reflexivity]|].
      split.
      { apply list_lookup_insert_eq. eapply lookup_lt_Some; eauto. }
      split; [|reflexivity].
      intros Hl.
      destruct Hown as [Hf|(t0 & prog0 & Hl0 & Hp0 & Hc0)]; [congruence|].
      rewrite Hl in Hl0. injection Hl0 as <-.
      rewrite Hp in Hp0. injection Hp0 as <-.
      destruct Hc0 as (r' & [Hc|Hc]); discriminate Hc.
    + intros Hfin. destruct (finished_nothing_left p Hfin) as [Hp0 Hs0].
      rewrite Hp0, app_nil_r in Hlist. rewrite Hs0 in Hfd.
      split; [lia | exact Hlist].
    + intros Hroom Hnf. apply enqueuers_progress; auto. lia.
Qed.

End QueueFacts.

(** ** The statements above on the instance *)
Module DemoFacts.

Import Demo.
#[local] Existing Instance demo_proto.
Local Open Scope string_scope.

(** The whole snapshot of [vol1] under the tag [t1]: five requests, the
    last one under the name stored in the inode. *)
Example snapshot_runs :
  sd_vdi_snapshot play 0%nat (Some "vol1") (Some "t1") (start snapshot_script)
  = Some (0,
          mk_world [] ∅ 0
            [lookup_ev (Some "t1"); lookup_ev None; read_header_ev;
             write_tag_ev;
             EvReq 0%nat (req_new_vdi 3 1 100 0) (DName "other")]).
Proof. reflexivity. Qed.

Lemma sd_vdi_snapshot_no_tag_order_witness :
  "vol1" <> EmptyString /\ "t1" <> EmptyString /\
  SD_RES_NO_TAG <> SD_RES_SUCCESS /\
  play snapshot_script 0%nat req_get_vdi_info
    (name_tag_buf "vol1" (Some "t1"))
    = (op_failed 14, [ok 3; ok_inode head_inode; ok 0; ok 4]) /\
  two_stage (op_failed 14) = SD_RES_NO_TAG /\
  play [ok 3; ok_inode head_inode; ok 0; ok 4] 0%nat req_get_vdi_info
    (name_tag_buf "vol1" None) = (ok 3, [ok_inode head_inode; ok 0; ok 4]) /\
  play [ok_inode head_inode; ok 0; ok 4] 0%nat
    (req_read_obj (vid_to_vdi_oid 3) SD_INODE_HEADER_SIZE SD_FLAG_CMD_DIRECT)
    DBuffer = (ok_inode head_inode, [ok 0; ok 4]) /\
  play [ok 0; ok 4] 0%nat
    (req_write_obj (vid_to_vdi_oid 3) SD_MAX_VDI_TAG_LEN offsetof_sd_inode_tag
       SD_FLAG_CMD_WRITE) (DTag "t1") = (ok 0, [ok 4]) /\
  play [ok 4] 0%nat (req_new_vdi 3 1 100 0) (DName "other") = (ok 4, []) /\
  sd_vdi_snapshot play 0%nat (Some "vol1") (Some "t1") (start snapshot_script)
    = Some (0,
            mk_world [] ∅ 0
              [lookup_ev (Some "t1"); lookup_ev None; read_header_ev;
               write_tag_ev;
               EvReq 0%nat (req_new_vdi 3 1 100 0) (DName "other")]) /\
  sd_vdi_snapshot play 0%nat (Some "vol1") (Some "t1") (start hyper_script)
    = Some (SD_RES_INVALID_PARMS,
            mk_world [ok 0; ok 4] ∅ 0
              [lookup_ev (Some "t1"); lookup_ev None; read_header_ev;
               EvFprintf "Creating a snapshot of hypervolume is not supported\n"
                 []]).
Proof.
  assert (H1 : "vol1" <> EmptyString) by discriminate.
  assert (H2 : "t1" <> EmptyString) by discriminate.
  assert (H3 : SD_RES_NO_TAG <> SD_RES_SUCCESS) by discriminate.
  assert (E1 : play snapshot_script 0%nat req_get_vdi_info
                 (name_tag_buf "vol1" (Some "t1"))
               = (op_failed 14, [ok 3; ok_inode head_inode; ok 0; ok 4]))
    by reflexivity.
  assert (Ht : two_stage (op_failed 14) = SD_RES_NO_TAG) by reflexivity.
  assert (E2 : play [ok 3; ok_inode head_inode; ok 0; ok 4] 0%nat
                 req_get_vdi_info (name_tag_buf "vol1" None)
               = (ok 3, [ok_inode head_inode; ok 0; ok 4])) by reflexivity.
  assert (E3 : play [ok_inode head_inode; ok 0; ok 4] 0%nat
                 (req_read_obj (vid_to_vdi_oid 3) SD_INODE_HEADER_SIZE
                    SD_FLAG_CMD_DIRECT) DBuffer
               = (ok_inode head_inode, [ok 0; ok 4])) by reflexivity.
  assert (E4 : play [ok 0; ok 4] 0%nat
                 (req_write_obj (vid_to_vdi_oid 3) SD_MAX_VDI_TAG_LEN
                    offsetof_sd_inode_tag SD_FLAG_CMD_WRITE) (DTag "t1")
               = (ok 0, [ok 4])) by reflexivity.
  assert (E5 : play [ok 4] 0%nat (req_new_vdi 3 1 100 0) (DName "other")
               = (ok 4, [])) by reflexivity.
  repeat (split; [assumption|]).
  split.
  - exact (sd_vdi_snapshot_no_tag_order play 0%nat "vol1" "t1"
             (start snapshot_script) _ _ _ _ _ _ _ _ _ _
             H1 H2 H3 E1 Ht E2 E3 E4 E5).
  - exact (sd_vdi_snapshot_no_tag_order play 0%nat "vol1" "t1"
             (start hyper_script)
             (op_failed 14) [ok 3; ok_inode hyper_inode; ok 0; ok 4]
             (ok 3) [ok_inode hyper_inode; ok 0; ok 4]
             (ok_inode hyper_inode) [ok 0; ok 4]
             (ok 0) [ok 4] (ok 4) []
             H1 H2 H3 eq_refl Ht eq_refl eq_refl eq_refl eq_refl).
Defined.


Lemma sd_vdi_snapshot_new_head_name_witness :
  "vol1" <> EmptyString /\ "t1" <> EmptyString /\ SD_RES_NO_TAG <> SD_RES_SUCCESS /\
  find_vdi play 0%nat "vol1" (Some "t1") false (start snapshot_script)
    = Some ((SD_RES_NO_TAG, None), snap_w1) /\
  vdi_read_inode play 0%nat "vol1" None true snap_w1
    = Some ((SD_RES_SUCCESS, Some head_inode), snap_w2) /\
  inode_store_policy head_inode = 0 /\
  write_object play 0%nat (vid_to_vdi_oid (inode_vdi_id head_inode)) 0
    (DTag "t1") SD_MAX_VDI_TAG_LEN offsetof_sd_inode_tag 0 false false snap_w2
    = Some (SD_RES_SUCCESS, snap_w3) /\
  inode_name head_inode <> "vol1" /\
  exists hdr r s4 log,
    opcode hdr = SD_OP_NEW_VDI /\
    requests log = [] /\
    sd_vdi_snapshot play 0%nat (Some "vol1") (Some "t1") (start snapshot_script)
      = Some (ret_of r,
              after snap_w3 s4 (EvReq 0%nat hdr (DName "other") :: log)) /\
    (inode_name head_inode <> "vol1" ->
     EvReq 0%nat hdr (DName "other") <> EvReq 0%nat hdr (DName "vol1")).
Proof.
  assert (H1 : "vol1" <> EmptyString) by discriminate.
  assert (H2 : "t1" <> EmptyString) by discriminate.
  assert (H3 : SD_RES_NO_TAG <> SD_RES_SUCCESS) by discriminate.
  assert (H4 : find_vdi play 0%nat "vol1" (Some "t1") false
                 (start snapshot_script)
               = Some ((SD_RES_NO_TAG, None), snap_w1)) by reflexivity.
  assert (H5 : vdi_read_inode play 0%nat "vol1" None true snap_w1
               = Some ((SD_RES_SUCCESS, Some head_inode), snap_w2))
    by reflexivity.
  assert (H6 : inode_store_policy head_inode = 0) by reflexivity.
  assert (H7 : write_object play 0%nat
                 (vid_to_vdi_oid (inode_vdi_id head_inode)) 0
                 (DTag "t1") SD_MAX_VDI_TAG_LEN offsetof_sd_inode_tag 0
                 false false snap_w2
               = Some (SD_RES_SUCCESS, snap_w3)) by reflexivity.
  assert (H8 : inode_name head_inode <> "vol1") by discriminate.
  repeat (split; [assumption|]).
  exact (sd_vdi_snapshot_new_head_name play 0%nat "vol1" "t1"
           (start snapshot_script) snap_w1 snap_w2 snap_w3 None head_inode
           H1 H2 H3 H4 H5 H6 H7).
Defined.

Lemma sd_vdi_create_rejects_locally_witness :
  (0 = 0 \/ 0 > SD_MAX_VDI_SIZE \/ Some "vol1" = None \/ Some "vol1" = Some EmptyString) /\
  exists fmt,
    sd_vdi_create play 0%nat (Some "vol1") 0 (start [ok 3]) =
      Some (SD_RES_INVALID_PARMS, logged (start [ok 3]) [EvFprintf fmt []]) /\
    requests (trace (logged (start [ok 3]) [EvFprintf fmt []]))
      = requests (trace (start [ok 3])).
Proof.
  assert (H : 0 = 0 \/ 0 > SD_MAX_VDI_SIZE \/ Some "vol1" = None \/
              Some "vol1" = Some EmptyString) by (left; reflexivity).
  split; [exact H|].
  exact (sd_vdi_create_rejects_locally play 0%nat (Some "vol1") 0
           (start [ok 3]) H).
Defined.

Lemma sd_vdi_create_request_witness :
  2 ^ 43 <> 0 /\ 2 ^ 43 <= SD_MAX_VDI_SIZE /\ "big" <> EmptyString /\
  exists hdr,
    vdi_store_policy hdr = 1 /\ vdi_base_vdi_id hdr = 0 /\
    vdi_snapid hdr = 0 /\
    exists r s',
      sd_vdi_create play 0%nat (Some "big") (2 ^ 43) (start [ok 9]) =
        Some (ret_of r, after (start [ok 9]) s' [EvReq 0%nat hdr (DName "big")]).
Proof.
  assert (H1 : 2 ^ 43 <> 0) by discriminate.
  assert (H2 : 2 ^ 43 <= SD_MAX_VDI_SIZE) by discriminate.
  assert (H3 : "big" <> EmptyString) by discriminate.
  repeat (split; [assumption|]).
  destruct (sd_vdi_create_request play 0%nat "big" (2 ^ 43) (start [ok 9])
              H1 H2 H3)
    as (hdr & r & s' & _ & Hrun & _ & _ & Hhyper & _ & Hbase & Hsnap).
  exists hdr. split; [apply Hhyper; reflexivity|].
  split; [exact Hbase|]. split; [exact Hsnap|].
  exists r, s'. exact Hrun.
Defined.

Lemma sd_vdi_open_outcomes_witness :
  sd_vdi_open play 0%nat (Some "vol1") (start [tr_failed 7]) =
  Some (None,
        mk_world [] ∅ 7
          [EvReq 0%nat req_lock_vdi (DName "vol1"); EvFree 1%positive]).
Proof.
  destruct (sd_vdi_open_outcomes play 0%nat (Some "vol1")
              (start [tr_failed 7]))
    as (r1 & s1 & r2 & s2 & r3 & s3 & E1 & _ & _ & Hrefused & _).
  cbn in E1. injection E1 as <- <-.
  apply Hrefused. discriminate.
Defined.

Lemma sd_vdi_close_outcomes_witness :
  heap (with_handle [tr_failed 3]) !! 1%positive = Some open_handle /\
  exists line w',
    is_req line = false /\
    sd_vdi_close play 1%positive (with_handle [tr_failed 3]) = Some (3, w') /\
    heap w' !! 1%positive = Some open_handle.
Proof.
  assert (H : heap (with_handle [tr_failed 3]) !! 1%positive
              = Some open_handle) by reflexivity.
  split; [exact H|].
  destruct (sd_vdi_close_outcomes play 1%positive open_handle
              (with_handle [tr_failed 3]) H)
    as (r & s' & E & Hfail & _).
  cbn in E. injection E as <- <-.
  destruct Hfail as (line & w' & Hline & Hclose & _ & Hheap); [discriminate|].
  exists line, w'. auto.
Defined.

Lemma sd_vdi_clone_outcomes_witness :
  (exists line,
     is_req line = false /\
     sd_vdi_clone play 0%nat (Some "vol1") (Some EmptyString) (Some "vol2")
       (start [ok 3]) =
       Some (SD_RES_INVALID_PARMS, logged (start [ok 3]) [line])) /\
  "vol1" <> EmptyString /\ "t1" <> EmptyString /\ "vol2" <> EmptyString /\
  play [ok 3; ok_inode hyper_inode; ok 5] 0%nat req_get_vdi_info
    (name_tag_buf "vol1" (Some "t1")) = (ok 3, [ok_inode hyper_inode; ok 5]) /\
  play [ok_inode hyper_inode; ok 5] 0%nat
    (req_read_obj (vid_to_vdi_oid 3) SD_INODE_SIZE SD_FLAG_CMD_DIRECT) DBuffer
    = (ok_inode hyper_inode, [ok 5]) /\
  play [ok 5] 0%nat (req_new_vdi 3 0 (2 ^ 43) 1) (DName "vol2") = (ok 5, []) /\
  sd_vdi_clone play 0%nat (Some "vol1") (Some "t1") (Some "vol2")
    (start [ok 3; ok_inode hyper_inode; ok 5])
  = Some (0,
          mk_world [] ∅ 0
            [lookup_ev (Some "t1");
             EvReq 0%nat
               (req_read_obj (vid_to_vdi_oid 3) SD_INODE_SIZE 8) DBuffer;
             EvReq 0%nat (req_new_vdi 3 0 (2 ^ 43) 1) (DName "vol2")]).
Proof.
  assert (H1 : "vol1" <> EmptyString) by discriminate.
  assert (H2 : "t1" <> EmptyString) by discriminate.
  assert (H3 : "vol2" <> EmptyString) by discriminate.
  assert (E1 : play [ok 3; ok_inode hyper_inode; ok 5] 0%nat req_get_vdi_info
                 (name_tag_buf "vol1" (Some "t1"))
               = (ok 3, [ok_inode hyper_inode; ok 5])) by reflexivity.
  assert (E2 : play [ok_inode hyper_inode; ok 5] 0%nat
                 (req_read_obj (vid_to_vdi_oid 3) SD_INODE_SIZE
                    SD_FLAG_CMD_DIRECT) DBuffer
               = (ok_inode hyper_inode, [ok 5])) by reflexivity.
  assert (E3 : play [ok 5] 0%nat (req_new_vdi 3 0 (2 ^ 43) 1) (DName "vol2")
               = (ok 5, [])) by reflexivity.
  destruct (sd_vdi_clone_outcomes play 0%nat (start [ok 3])) as [Hbad _].
  destruct (sd_vdi_clone_outcomes play 0%nat
              (start [ok 3; ok_inode hyper_inode; ok 5])) as [_ Hgood].
  split; [apply Hbad; right; left; right; reflexivity|].
  repeat (split; [assumption|]).
  exact (Hgood "vol1" "t1" "vol2" _ _ _ _ _ _ H1 H2 H3 E1 E2 E3).
Defined.

(** The clone of a hyper volume keeps the size and the store policy of the
    source and is based on it. *)
Example clone_runs :
  sd_vdi_clone play 0%nat (Some "vol1") (Some "t1") (Some "vol2")
    (start [ok 3; ok_inode hyper_inode; ok 5])
  = Some (0,
          mk_world [] ∅ 0
            [lookup_ev (Some "t1");
             EvReq 0%nat
               (req_read_obj (vid_to_vdi_oid 3) SD_INODE_SIZE 8) DBuffer;
             EvReq 0%nat (req_new_vdi 3 0 (2 ^ 43) 1) (DName "vol2")]).
Proof. reflexivity. Qed.

(** C3, on [lock_vdi].  The transport delivers the lock request and the
    cluster answers it with the operation-level result 7, a refusal.
    [lock_vdi] returns [SD_RES_SUCCESS] all the same and stores the id of
    the response in the handle, and [sd_vdi_open] goes on to return a live
    handle; [write_object], given the same reply, returns the 7. *)
Theorem lock_vdi_skips_operation_result :
  ret_of (op_failed 7) = SD_RES_SUCCESS /\
  result (rsp_of (op_failed 7)) <> SD_RES_SUCCESS /\
  lock_vdi play 1%positive (with_handle [op_failed 7]) =
    Some (SD_RES_SUCCESS,
          mk_world [] {[1%positive := set_vid 0 open_handle]} 0
            [EvReq 0%nat req_lock_vdi (DName "vol1")]) /\
  (exists w',
     sd_vdi_open play 0%nat (Some "vol1")
       (start [op_failed 7; ok_inode head_inode]) = Some (Some 1%positive, w')) /\
  write_object play 0%nat (vid_to_vdi_oid 3) 0 (DTag "t1") SD_MAX_VDI_TAG_LEN
    offsetof_sd_inode_tag 0 false false (start [op_failed 7]) =
    Some (7, mk_world [] ∅ 0 [write_tag_ev]).
Proof.
  split; [reflexivity|]. split; [discriminate|].
  split; [vm_compute; reflexivity|].
  split; [eexists; vm_compute; reflexivity|].
  reflexivity.
Qed.

(** C4, on [sd_vdi_open].  The cluster refuses the lock of [vol1] with the
    operation-level result 7 and the read of the inode with the result 2;
    the transport delivers both.  [sd_vdi_open] returns a live handle all
    the same: no release request is sent, the handle is not freed, [errno]
    is not set, and the handle holds the volume id and the buffer of the
    two refusals.  The same happens when only the lock, or only the read,
    is refused. *)
Theorem sd_vdi_open_returns_handle_on_refusal :
  ret_of (op_failed 7) = SD_RES_SUCCESS /\
  result (rsp_of (op_failed 7)) <> SD_RES_SUCCESS /\
  ret_of (op_failed 2) = SD_RES_SUCCESS /\
  result (rsp_of (op_failed 2)) <> SD_RES_SUCCESS /\
  sd_vdi_open play 0%nat (Some "vol1") (start refusing_script) =
    Some (Some 1%positive,
          mk_world []
            {[1%positive :=
                mk_vdi 0%nat (Some no_inode) 0 (Some "vol1") RW_UNLOCKED]} 0
            [EvReq 0%nat req_lock_vdi (DName "vol1");
             EvReq 0%nat (req_read_obj (vid_to_vdi_oid 0) SD_INODE_SIZE 0)
               DBuffer]) /\
  sd_vdi_open play 0%nat (Some "vol1")
    (start [op_failed 7; ok_inode head_inode]) =
    Some (Some 1%positive,
          mk_world []
            {[1%positive :=
                mk_vdi 0%nat (Some head_inode) 0 (Some "vol1") RW_UNLOCKED]} 0
            [EvReq 0%nat req_lock_vdi (DName "vol1");
             EvReq 0%nat (req_read_obj (vid_to_vdi_oid 0) SD_INODE_SIZE 0)
               DBuffer]) /\
  sd_vdi_open play 0%nat (Some "vol1") (start [ok 3; op_failed 2]) =
    Some (Some 1%positive,
          mk_world []
            {[1%positive :=
                mk_vdi 0%nat (Some no_inode) 3 (Some "vol1") RW_UNLOCKED]} 0
            [EvReq 0%nat req_lock_vdi (DName "vol1");
             EvReq 0%nat (req_read_obj (vid_to_vdi_oid 3) SD_INODE_SIZE 0)
               DBuffer]).
Proof.
  split; [reflexivity|]. split; [discriminate|].
  split; [reflexivity|]. split; [discriminate|].
  split; [vm_compute; reflexivity|].
  split; vm_compute; reflexivity.
Qed.

(** C5, on [sd_vdi_close].  The cluster refuses the release of volume 7
    with the operation-level result 7; the transport delivers it.
    [sd_vdi_close] frees the handle and returns 0 all the same; given a
    transport failure it keeps the handle and returns the failure. *)
Theorem sd_vdi_close_frees_on_refused_release :
  ret_of (op_failed 7) = SD_RES_SUCCESS /\
  result (rsp_of (op_failed 7)) <> SD_RES_SUCCESS /\
  heap (with_handle [op_failed 7]) !! 1%positive = Some open_handle /\
  sd_vdi_close play 1%positive (with_handle [op_failed 7]) =
    Some (0,
          mk_world [] ∅ 0
            [EvReq 0%nat (req_release_vdi 7) DNull; EvFree 1%positive]) /\
  sd_vdi_close play 1%positive (with_handle [tr_failed 7]) =
    Some (7,
          mk_world [] {[1%positive := open_handle]} 0
            [EvReq 0%nat (req_release_vdi 7) DNull;
             EvFprintf "failed to unlock %s\n" [FStr (Some "vol1")]]).
Proof.
  split; [reflexivity|]. split; [discriminate|]. split; [reflexivity|].
  split; vm_compute; reflexivity.
Qed.

End DemoFacts.

(** ** The request queue on the instance *)
Module QueueDemoFacts.

Import Queue Demo.

Lemma interleaving_steps :
  steps (empty_queue, enqueuers [req0; req1]) interleaving
        (full_queue, [[]; []]).
Proof.
  unfold interleaving.
  repeat (eapply steps_cons;
          [eapply step_thread; [reflexivity | reflexivity] | cbn]).
  apply steps_nil.
Qed.

Lemma before_signal_steps :
  steps (empty_queue, enqueuers [req0; req1]) before_signal
        (half_queue, half_pool).
Proof.
  unfold before_signal, interleaving. cbn [take].
  repeat (eapply steps_cons;
          [eapply step_thread; [reflexivity | reflexivity] | cbn]).
  apply steps_nil.
Qed.

Lemma queue_request_appends_then_signals_once_witness :
  request_lock empty_queue = rw_free /\
  request_fd empty_queue + 1 <= eventfd_max /\
  run 0%nat (take 2 (queue_request req0)) empty_queue =
    Some (mk_queue (rw_write 0%nat) [req0] 0) /\
  run 0%nat (take 3 (queue_request req0)) empty_queue =
    Some (mk_queue rw_free [req0] 0) /\
  run 0%nat (queue_request req0) empty_queue =
    Some (mk_queue rw_free [req0] 1) /\
  steps (empty_queue, enqueuers [req0; req1]) before_signal
        (half_queue, half_pool) /\
  step (half_queue, half_pool) (0%nat, eventfd_xwrite 1)
       (mk_queue (rw_write 1%nat) [req0] 1, <[0%nat := []]> half_pool) /\
  done_by 0%nat before_signal =
    [sd_write_lock; list_add_tail req0; sd_rw_unlock] /\
  steps (empty_queue, enqueuers [req0; req1]) interleaving
        (full_queue, [[]; []]) /\
  request_fd full_queue = 0 + 2 /\
  request_list full_queue ≡ₚ [req0; req1].
Proof.
  assert (H1 : request_lock empty_queue = rw_free) by reflexivity.
  assert (H2 : request_fd empty_queue + 1 <= eventfd_max) by discriminate.
  assert (H3 : step (half_queue, half_pool) (0%nat, eventfd_xwrite 1)
                 (mk_queue (rw_write 1%nat) [req0] 1,
                  <[0%nat := []]> half_pool)).
  { apply step_thread; reflexivity. }
  destruct QueueFacts.queue_request_appends_then_signals_once
    as [Halone Htogether].
  destruct (Halone 0%nat req0 empty_queue H1 H2)
    as (_ & Happ & Hrel & Hsig & Hall).
  rewrite Hall in Hsig.
  destruct (Htogether [req0; req1] empty_queue before_signal half_queue
              half_pool H1 before_signal_steps) as (_ & _ & Hsignal & _).
  destruct (Hsignal _ _ _ H3) as (_ & (req & Hreq & Hdone) & _).
  cbn in Hreq. injection Hreq as <-.
  destruct (Htogether [req0; req1] empty_queue interleaving full_queue
              [[]; []] H1 interleaving_steps) as (_ & _ & _ & Hend & _).
  split; [exact H1|]. split; [exact H2|].
  split; [exact Happ|]. split; [exact Hrel|]. split; [exact Hsig|].
  split; [exact before_signal_steps|]. split; [exact H3|].
  split; [exact Hdone|]. split; [exact interleaving_steps|].
  apply Hend. repeat constructor.
Defined.

End QueueDemoFacts.

(** * Further properties of the volume operations *)

Section VdiMore.

Context `{proto : sd_proto} {remote : Type}.
Variable sd_exec : remote -> sd_cluster -> sd_req -> payload -> reply * remote.

(** *** Programs that leave handles and [errno] alone *)

Lemma quiet_ret {A} (a : A) : quiet (ret (remote := remote) a).
Proof.
  intros w x w' [= <- <-]. repeat split. exists []. symmetry. apply app_nil_r.
Qed.

Lemma quiet_stuck {A} : quiet (fun _ : world remote => @None (A * world remote)).
Proof. intros w x w' H. discriminate H. Qed.

Lemma quiet_bind {A B} (m : world remote -> option (A * world remote))
    (k : A -> world remote -> option (B * world remote)) :
  quiet m -> (forall a, quiet (k a)) -> quiet (bind m k).
Proof.
  intros Hm Hk w x w' H. unfold bind in H.
  destruct (m w) as [[a w1]|] eqn:E; [|discriminate].
  destruct (Hm _ _ _ E) as (H1 & H2 & evs1 & H3).
  destruct (Hk a _ _ _ H) as (H4 & H5 & evs2 & H6).
  split; [congruence|]. split; [congruence|].
  exists (evs1 ++ evs2). rewrite H6, H3, app_assoc. reflexivity.
Qed.

Lemma quiet_fprintf fmt args : quiet (fprintf_stderr (remote := remote) fmt args).
Proof. intros w x w' [= <- <-]. repeat split. eexists. reflexivity. Qed.

Lemma quiet_sd_run_sdreq c hdr data : quiet (sd_run_sdreq sd_exec c hdr data).
Proof.
  intros w x w' H. unfold sd_run_sdreq in H.
  destruct (sd_exec (cluster_state w) c hdr data) as [r s'].
  injection H as <- <-. repeat split. eexists. reflexivity.
Qed.

Create HintDb quiet discriminated.
#[local] Hint Resolve quiet_ret quiet_stuck quiet_fprintf quiet_sd_run_sdreq : quiet.

Ltac quiet_step :=
  match goal with
  | |- quiet (bind _ _) => apply quiet_bind; [|intros ?]
  | |- quiet (if ?b then _ else _) => destruct b
  | |- quiet (match ?o with Some _ => _ | None => _ end) => destruct o
  | |- quiet _ => solve [auto with quiet]
  end.

Lemma quiet_do_vdi_create c name size base id snap policy :
  quiet (do_vdi_create sd_exec c name size base id snap policy).
Proof. unfold do_vdi_create. repeat quiet_step. Qed.

Lemma quiet_write_object c oid cow data len off fl create direct :
  quiet (write_object sd_exec c oid cow data len off fl create direct).
Proof. unfold write_object. repeat quiet_step. Qed.

Lemma quiet_read_object c oid len off direct :
  quiet (read_object sd_exec c oid len off direct).
Proof. unfold read_object. repeat quiet_step. Qed.

Lemma quiet_find_vdi c name tag vid : quiet (find_vdi sd_exec c name tag vid).
Proof. unfold find_vdi. repeat quiet_step. Qed.

Lemma quiet_vdi_read_inode c name tag onlyheader :
  quiet (vdi_read_inode sd_exec c name tag onlyheader).
Proof.
  unfold vdi_read_inode.
  apply quiet_bind; [apply quiet_find_vdi | intros f].
  repeat quiet_step. apply quiet_read_object.
Qed.

#[local] Hint Resolve quiet_do_vdi_create quiet_write_object quiet_read_object
  quiet_find_vdi quiet_vdi_read_inode : quiet.

(** X10. [sd_vdi_snapshot], [sd_vdi_create] and [sd_vdi_clone] work on the
    cluster only: whatever their arguments and whatever the cluster
    answers, they leave every volume handle and [errno] as they found them
    and only add to the trace. *)
Theorem volume_operations_keep_handles c name tag dstname size :
  quiet (sd_vdi_snapshot sd_exec c name tag) /\
  quiet (sd_vdi_create sd_exec c name size) /\
  quiet (sd_vdi_clone sd_exec c name tag dstname).
Proof.
  split; [|split].
  - unfold sd_vdi_snapshot. repeat quiet_step.
  - unfold sd_vdi_create. repeat quiet_step.
  - unfold sd_vdi_clone. repeat quiet_step.
Qed.

Lemma opcodes_app (t1 t2 : list event) :
  opcodes (t1 ++ t2) = opcodes t1 ++ opcodes t2.
Proof. apply List.flat_map_app. Qed.

Lemma trace_after (w : world remote) s evs :
  trace (after w s evs) = trace w ++ evs.
Proof. reflexivity. Qed.

Lemma trace_logged (w : world remote) evs :
  trace (logged w evs) = trace w ++ evs.
Proof. reflexivity. Qed.

(** Brings the opcodes of an explicit trace to the form [old ++ sent]. *)
Ltac opcodes_norm :=
  unfold logged, after; cbn [trace];
  repeat rewrite ?opcodes_app;
  cbn [opcodes List.flat_map app opcode req_get_vdi_info req_read_obj
       req_write_obj req_new_vdi req_lock_vdi req_release_vdi];
  repeat rewrite <- ?app_assoc, ?app_nil_r;
  cbn [app].

(** X11. The requests of one [sd_vdi_snapshot], whatever its arguments and
    whatever the cluster answers, are a beginning of the sequence lookup,
    lookup, read, write, create; and the call returns [SD_RES_SUCCESS]
    only when it has sent all five. *)
Theorem sd_vdi_snapshot_protocol c name snap_tag (w w' : world remote) res :
  SD_RES_INVALID_PARMS <> SD_RES_SUCCESS ->
  sd_vdi_snapshot sd_exec c name snap_tag w = Some (res, w') ->
  let all := [SD_OP_GET_VDI_INFO; SD_OP_GET_VDI_INFO; SD_OP_READ_OBJ;
              SD_OP_WRITE_OBJ; SD_OP_NEW_VDI] in
  exists sent,
    opcodes (trace w') = opcodes (trace w) ++ sent /\
    sent `prefix_of` all /\
    (res = SD_RES_SUCCESS -> sent = all).
Proof.
  intros Hinv Hrun all. subst all.
  destruct (nonempty snap_tag) as [tag|] eqn:Etag.
  2:{ unfold sd_vdi_snapshot in Hrun. rewrite Etag in Hrun.
      injection Hrun as <- <-. exists []. opcodes_norm.
      split; [reflexivity|]. split; [apply prefix_nil | contradiction]. }
  destruct (nonempty name) as [n|] eqn:Ename.
  2:{ unfold sd_vdi_snapshot in Hrun. rewrite Etag, Ename in Hrun.
      injection Hrun as <- <-. exists []. opcodes_norm.
      split; [reflexivity|]. split; [apply prefix_nil | contradiction]. }
  apply nonempty_inv in Etag as [-> Htag].
  apply nonempty_inv in Ename as [-> Hname].
  destruct (find_vdi_total sd_exec c n (Some tag) false w)
    as (res1 & o & s1 & Hfind).
  destruct (Z.eq_dec res1 SD_RES_SUCCESS) as [->|Hns].
  { rewrite (snapshot_tag_exists sd_exec c n tag Hname Htag _ _ _ Hfind) in Hrun.
    injection Hrun as <- <-. exists [SD_OP_GET_VDI_INFO]. opcodes_norm.
    split; [reflexivity|]. split; [eexists; reflexivity | contradiction]. }
  destruct (Z.eq_dec res1 SD_RES_NO_TAG) as [->|Hnt].
  2:{ rewrite (snapshot_lookup_failed sd_exec c n tag Hname Htag _ _ _ _
                 Hns Hnt Hfind) in Hrun.
      injection Hrun as <- <-. exists [SD_OP_GET_VDI_INFO]. opcodes_norm.
      split; [reflexivity|]. split; [eexists; reflexivity | contradiction]. }
  destruct (vdi_read_inode_run sd_exec c n None true (after w s1
              [EvReq c req_get_vdi_info (name_tag_buf n (Some tag))]))
    as (res2 & oi & w2 & Hread & Hshape).
  destruct (Z.eq_dec res2 SD_RES_SUCCESS) as [->|Hr2].
  2:{ rewrite (snapshot_fetch_failed sd_exec c n tag Hname Htag Hns _ _ _ Hfind
                 _ _ _ Hread Hr2) in Hrun.
      injection Hrun as <- <-.
      destruct Hshape as [(_ & _ & Hw2)|(vid & i & _ & Hw2)]; rewrite Hw2.
      - exists [SD_OP_GET_VDI_INFO; SD_OP_GET_VDI_INFO]. opcodes_norm.
        split; [reflexivity|]. split; [eexists; reflexivity | contradiction].
      - exists [SD_OP_GET_VDI_INFO; SD_OP_GET_VDI_INFO; SD_OP_READ_OBJ].
        opcodes_norm.
        split; [reflexivity|]. split; [eexists; reflexivity | contradiction]. }
  destruct Hshape as [(Hne & _)|(vid & inode & -> & Hw2)]; [contradiction|].
  destruct (Z.eq_dec (inode_store_policy inode) 0) as [Hp|Hp].
  2:{ rewrite (snapshot_hyper_rejected sd_exec c n tag Hname Htag Hns _ _ _
                 Hfind _ _ Hread Hp) in Hrun.
      injection Hrun as <- <-. rewrite Hw2.
      exists [SD_OP_GET_VDI_INFO; SD_OP_GET_VDI_INFO; SD_OP_READ_OBJ].
      opcodes_norm.
      split; [reflexivity|]. split; [eexists; reflexivity | contradiction]. }
  destruct (sd_exec (cluster_state w2) c
              (req_write_obj (vid_to_vdi_oid (inode_vdi_id inode))
                 SD_MAX_VDI_TAG_LEN offsetof_sd_inode_tag SD_FLAG_CMD_WRITE)
              (DTag tag)) as [r3 s3] eqn:E3.
  pose proof (write_object_run sd_exec c _ _ _ _ w2 r3 s3 E3) as Hwrite.
  destruct (Z.eq_dec (two_stage r3) SD_RES_SUCCESS) as [Hw|Hw].
  2:{ rewrite (snapshot_write_failed sd_exec c n tag Hname Htag Hns _ _ _
                 Hfind _ _ Hread Hp _ _ Hwrite Hw) in Hrun.
      injection Hrun as <- <-. rewrite trace_logged, trace_after, Hw2.
      exists [SD_OP_GET_VDI_INFO; SD_OP_GET_VDI_INFO; SD_OP_READ_OBJ;
              SD_OP_WRITE_OBJ].
      opcodes_norm.
      split; [reflexivity|]. split; [eexists; reflexivity | contradiction]. }
  rewrite Hw in Hwrite.
  destruct (sd_exec s3 c
              (req_new_vdi (inode_vdi_id inode) 1 (inode_vdi_size inode) 0)
              (DName (inode_name inode))) as [r4 s4] eqn:E4.
  rewrite (snapshot_new_head sd_exec c n tag Hname Htag Hns _ _ _ Hfind
             _ _ Hread Hp _ r4 s4 Hwrite E4) in Hrun.
  injection Hrun as <- <-. rewrite !trace_after, Hw2.
  exists [SD_OP_GET_VDI_INFO; SD_OP_GET_VDI_INFO; SD_OP_READ_OBJ;
          SD_OP_WRITE_OBJ; SD_OP_NEW_VDI].
  split; [|split; [reflexivity | reflexivity]].
  destruct (ret_of r4 =? SD_RES_SUCCESS); opcodes_norm; reflexivity.
Qed.

(** X12. The requests of one [sd_vdi_clone] are a beginning of the
    sequence lookup, read, create; and the call returns [SD_RES_SUCCESS]
    only when it has sent all three. *)
Theorem sd_vdi_clone_protocol c srcname srctag dstname (w w' : world remote) res :
  SD_RES_INVALID_PARMS <> SD_RES_SUCCESS ->
  sd_vdi_clone sd_exec c srcname srctag dstname w = Some (res, w') ->
  let all := [SD_OP_GET_VDI_INFO; SD_OP_READ_OBJ; SD_OP_NEW_VDI] in
  exists sent,
    opcodes (trace w') = opcodes (trace w) ++ sent /\
    sent `prefix_of` all /\
    (res = SD_RES_SUCCESS -> sent = all).
Proof.
  intros Hinv Hrun all. subst all.
  assert (Hlocal : forall fmt args,
    Some (SD_RES_INVALID_PARMS, logged w [EvFprintf fmt args]) = Some (res, w') ->
    exists sent,
      opcodes (trace w') = opcodes (trace w) ++ sent /\
      sent `prefix_of` [SD_OP_GET_VDI_INFO; SD_OP_READ_OBJ; SD_OP_NEW_VDI] /\
      (res = SD_RES_SUCCESS ->
       sent = [SD_OP_GET_VDI_INFO; SD_OP_READ_OBJ; SD_OP_NEW_VDI])).
  { intros fmt args [= <- <-]. exists []. opcodes_norm.
    split; [reflexivity|]. split; [apply prefix_nil | contradiction]. }
  destruct (nonempty dstname) as [d|] eqn:Ed.
  2:{ unfold sd_vdi_clone in Hrun. rewrite Ed in Hrun.
      eapply Hlocal; exact Hrun. }
  destruct (nonempty srctag) as [t|] eqn:Et.
  2:{ unfold sd_vdi_clone in Hrun. rewrite Ed, Et in Hrun.
      eapply Hlocal; exact Hrun. }
  destruct (nonempty srcname) as [n|] eqn:En.
  2:{ unfold sd_vdi_clone in Hrun. rewrite Ed, Et, En in Hrun.
      eapply Hlocal; exact Hrun. }
  clear Hlocal.
  apply nonempty_inv in Ed as [-> Hd].
  apply nonempty_inv in Et as [-> Ht].
  apply nonempty_inv in En as [-> Hn].
  rename Hrun into Hrun'.
  destruct (vdi_read_inode_run sd_exec c n (Some t) false w)
    as (res1 & oi & w1 & Hread & Hshape).
  destruct (Z.eq_dec res1 SD_RES_SUCCESS) as [->|Hr1].
  2:{ rewrite (clone_resolve_failed sd_exec c n t d Hn Ht Hd w w1 res1 oi
                 Hread Hr1) in Hrun'.
      injection Hrun' as <- <-.
      destruct Hshape as [(_ & _ & Hw1)|(vid & i & _ & Hw1)]; rewrite Hw1.
      - exists [SD_OP_GET_VDI_INFO]. opcodes_norm.
        split; [reflexivity|]. split; [eexists; reflexivity | contradiction].
      - exists [SD_OP_GET_VDI_INFO; SD_OP_READ_OBJ]. opcodes_norm.
        split; [reflexivity|]. split; [eexists; reflexivity | contradiction]. }
  destruct Hshape as [(Hne & _)|(vid & inode & -> & Hw1)]; [contradiction|].
  destruct (sd_exec (cluster_state w1) c
              (req_new_vdi (inode_vdi_id inode) 0 (inode_vdi_size inode)
                 (inode_store_policy inode)) (DName d)) as [r s2] eqn:E.
  rewrite (clone_create sd_exec c n t d Hn Ht Hd w w1 inode r s2 Hread E)
    in Hrun'.
  injection Hrun' as <- <-. rewrite trace_after, Hw1.
  exists [SD_OP_GET_VDI_INFO; SD_OP_READ_OBJ; SD_OP_NEW_VDI].
  split; [|split; reflexivity].
  destruct (ret_of r =? SD_RES_SUCCESS); opcodes_norm; reflexivity.
Qed.

(** X1. [sd_vdi_snapshot] with a null or empty tag, or a null or empty
    name, returns [SD_RES_INVALID_PARMS] at once: nothing is sent, and all
    that is left behind is one line on stderr. *)
Theorem sd_vdi_snapshot_rejects_locally c name snap_tag (w : world remote) :
  (snap_tag = None \/ snap_tag = Some EmptyString) \/
  (name = None \/ name = Some EmptyString) ->
  exists line,
    is_req line = false /\
    sd_vdi_snapshot sd_exec c name snap_tag w =
      Some (SD_RES_INVALID_PARMS, logged w [line]).
Proof.
  intros H. rewrite <- !nonempty_None in H. unfold sd_vdi_snapshot.
  destruct (nonempty snap_tag) as [t|].
  2:{ eexists. split; [|reflexivity]. reflexivity. }
  destruct (nonempty name) as [n|].
  2:{ eexists. split; [|reflexivity]. reflexivity. }
  destruct H as [H|H]; discriminate H.
Qed.

(** X2. On the no-such-tag branch of [sd_vdi_snapshot], a failure to fetch
    the head inode is returned as it is, and neither the write of the tag
    nor the creation of a new head is sent. *)
Theorem sd_vdi_snapshot_fetch_failure
    c name tag (w w1 w2 : world remote) o res oi :
  name <> EmptyString -> tag <> EmptyString ->
  SD_RES_NO_TAG <> SD_RES_SUCCESS ->
  find_vdi sd_exec c name (Some tag) false w
    = Some ((SD_RES_NO_TAG, o), w1) ->
  vdi_read_inode sd_exec c name None true w1 = Some ((res, oi), w2) ->
  res <> SD_RES_SUCCESS ->
  exists w' sent,
    sd_vdi_snapshot sd_exec c (Some name) (Some tag) w = Some (res, w') /\
    opcodes (trace w') = opcodes (trace w) ++ sent /\
    (SD_OP_WRITE_OBJ ∉ sent) /\ (SD_OP_NEW_VDI ∉ sent).
Proof.
  intros Hname Htag Hnt Hfind Hread Hres.
  eexists.
  destruct (vdi_read_inode_run sd_exec c name None true w1)
    as (res' & oi' & w2' & Hread' & Hshape).
  rewrite Hread in Hread'. injection Hread' as <- <- <-.
  pose proof (find_vdi_effect sd_exec _ _ _ _ _ _ _ Hfind) as Hw1.
  destruct Hshape as [(_ & _ & Hw2)|(vid & i & _ & Hw2)].
  - exists [SD_OP_GET_VDI_INFO; SD_OP_GET_VDI_INFO].
    split; [exact (snapshot_fetch_failed sd_exec c name tag Hname Htag Hnt
                     w w1 o Hfind w2 res oi Hread Hres)|].
    rewrite Hw2, Hw1. opcodes_norm.
    split; [reflexivity|]. split; intros Hin;
      repeat (apply elem_of_cons in Hin as [Hin|Hin]; [discriminate|]);
      inversion Hin.
  - exists [SD_OP_GET_VDI_INFO; SD_OP_GET_VDI_INFO; SD_OP_READ_OBJ].
    split; [exact (snapshot_fetch_failed sd_exec c name tag Hname Htag Hnt
                     w w1 o Hfind w2 res oi Hread Hres)|].
    rewrite Hw2, Hw1. opcodes_norm.
    split; [reflexivity|]. split; intros Hin;
      repeat (apply elem_of_cons in Hin as [Hin|Hin]; [discriminate|]);
      inversion Hin.
Qed.

(** X3. [vdi_read_inode] first resolves (name, tag).  When that fails, the
    failure is returned and no read is sent.  When it succeeds, one read is
    sent, direct, at offset 0 of the header object of the very identity the
    lookup answered, of [SD_INODE_HEADER_SIZE] bytes for [onlyheader] and
    [SD_INODE_SIZE] bytes otherwise; its two-stage result is returned with
    the buffer. *)
Theorem vdi_read_inode_resolves_then_reads
    c name tag (onlyheader : bool) (w : world remote) r1 s1 r2 s2 :
  let len := if onlyheader then SD_INODE_HEADER_SIZE else SD_INODE_SIZE in
  let lookup := EvReq c req_get_vdi_info (name_tag_buf name tag) in
  let read := req_read_obj (vid_to_vdi_oid (rsp_vdi_id (rsp_of r1))) len
                SD_FLAG_CMD_DIRECT in
  sd_exec (cluster_state w) c req_get_vdi_info (name_tag_buf name tag)
    = (r1, s1) ->
  sd_exec s1 c read DBuffer = (r2, s2) ->
  vdi_read_inode sd_exec c name tag onlyheader w =
  if two_stage r1 =? SD_RES_SUCCESS
  then Some ((two_stage r2, Some (inode_of r2)),
             after w s2 [lookup; EvReq c read DBuffer])
  else Some ((two_stage r1, None), after w s1 [lookup]).
Proof.
  intros len lookup read E1 E2. subst lookup read.
  unfold vdi_read_inode, bind at 1.
  rewrite (find_vdi_run sd_exec _ _ _ true _ _ _ E1). cbn [fst snd].
  fold (two_stage r1).
  destruct (Z.eqb_spec (two_stage r1) SD_RES_SUCCESS) as [H1|H1];
    cbn [negb]; [|reflexivity].
  apply two_stage_success in H1 as [Hr Ho].
  rewrite Hr, Ho, !Z.eqb_refl. cbn [andb]. fold len. unfold bind.
  rewrite (read_object_run sd_exec c _ len (after w s1 _) r2 s2 E2).
  unfold after, ret. cbn [fst snd cluster_state heap errno trace].
  rewrite <- app_assoc. reflexivity.
Qed.

(** X4. [find_vdi] hands out an identity exactly when it returns
    [SD_RES_SUCCESS] and was given somewhere to store it, and that identity
    is the one of the response; without a place to store it, it hands out
    nothing.  A null tag is sent as an empty tag field. *)
Theorem find_vdi_identity_iff_success
    c name tag (vid : bool) (w w' : world remote) res o :
  find_vdi sd_exec c name tag vid w = Some ((res, o), w') ->
  (is_Some o <-> res = SD_RES_SUCCESS /\ vid = true) /\
  (forall id, o = Some id ->
     exists r s',
       sd_exec (cluster_state w) c req_get_vdi_info (name_tag_buf name tag)
         = (r, s') /\ id = rsp_vdi_id (rsp_of r)) /\
  (tag = None ->
   exists buf, name_tag_buf name tag = DNameTag buf EmptyString).
Proof.
  intros H.
  destruct (sd_exec (cluster_state w) c req_get_vdi_info
              (name_tag_buf name tag)) as [r s'] eqn:E.
  rewrite (find_vdi_run sd_exec _ _ _ vid _ _ _ E) in H.
  injection H as <- <- <-.
  split; [|split].
  - destruct (Z.eqb_spec (ret_of r) SD_RES_SUCCESS) as [Hr|Hr]; cbn [andb].
    + destruct (Z.eqb_spec (result (rsp_of r)) SD_RES_SUCCESS) as [Ho|Ho];
        cbn [andb].
      * destruct vid; split; intros H; auto.
        -- destruct H as [x Hx]; discriminate.
        -- destruct H; discriminate.
      * split; [intros [x Hx]; discriminate | intros [? _]; contradiction].
    + split; [intros [x Hx]; discriminate | intros [? _]; contradiction].
  - intros id Hid. exists r, s'. split; [reflexivity|].
    destruct ((ret_of r =? SD_RES_SUCCESS)
              && (result (rsp_of r) =? SD_RES_SUCCESS) && vid);
      [congruence | discriminate].
  - intros ->. eexists. reflexivity.
Qed.

Lemma land_lor_same a b : Z.land (Z.lor a b) b = b.
Proof.
  apply Z.bits_inj'. intros n _.
  rewrite Z.land_spec, Z.lor_spec.
  destruct (Z.testbit a n), (Z.testbit b n); reflexivity.
Qed.

Lemma land_lor_keep a b c : Z.land a b = b -> Z.land (Z.lor a c) b = b.
Proof.
  intros H. apply Z.bits_inj'. intros n _.
  rewrite Z.land_spec, Z.lor_spec.
  apply (f_equal (fun x => Z.testbit x n)) in H.
  rewrite Z.land_spec in H.
  destruct (Z.testbit a n), (Z.testbit b n), (Z.testbit c n);
    try reflexivity; discriminate H.
Qed.

(** X5. [write_object] sends exactly one request and returns its two-stage
    result, which is [SD_RES_SUCCESS] only when both the transport and the
    operation succeeded.  The request is a create-and-write when [create]
    is set and a plain write otherwise; it carries the object, the COW
    source, the length and the offset given; its flags always hold the
    write flag, hold the COW flag when a COW source is given and the
    direct flag when [direct] is set, and are just the low 16 bits of the
    caller's flags with the write flag when neither is: [hdr.flags] is a
    16-bit member, and two calls whose flags agree on their low 16 bits
    send the same request. *)
Theorem write_object_request c oid cow_oid data datalen offset fl
    (create direct : bool) (w : world remote) :
  exists hdr r s',
    sd_exec (cluster_state w) c hdr data = (r, s') /\
    write_object sd_exec c oid cow_oid data datalen offset fl create
      direct w = Some (two_stage r, after w s' [EvReq c hdr data]) /\
    (two_stage r = SD_RES_SUCCESS <->
     ret_of r = SD_RES_SUCCESS /\ result (rsp_of r) = SD_RES_SUCCESS) /\
    opcode hdr = (if create then SD_OP_CREATE_AND_WRITE_OBJ
                  else SD_OP_WRITE_OBJ) /\
    obj_oid hdr = oid /\ obj_cow_oid hdr = cow_oid /\
    data_length hdr = datalen /\ obj_offset hdr = offset /\
    Z.land (flags hdr) SD_FLAG_CMD_WRITE = SD_FLAG_CMD_WRITE /\
    (cow_oid <> 0 -> Z.land (flags hdr) SD_FLAG_CMD_COW = SD_FLAG_CMD_COW) /\
    (direct = true ->
     Z.land (flags hdr) SD_FLAG_CMD_DIRECT = SD_FLAG_CMD_DIRECT) /\
    (cow_oid = 0 -> direct = false ->
     flags hdr = Z.lor (fl mod 2 ^ 16) SD_FLAG_CMD_WRITE) /\
    (forall fl' r' w',
       fl' mod 2 ^ 16 = fl mod 2 ^ 16 ->
       write_object sd_exec c oid cow_oid data datalen offset fl' create
         direct w = Some (r', w') ->
       r' = two_stage r /\ w' = after w s' [EvReq c hdr data]).
Proof.
  pose (f1 := Z.lor (fl mod 2 ^ 16) SD_FLAG_CMD_WRITE).
  pose (f2 := if negb (cow_oid =? 0) then Z.lor f1 SD_FLAG_CMD_COW else f1).
  pose (f3 := if direct then Z.lor f2 SD_FLAG_CMD_DIRECT else f2).
  pose (hdr := mk_req (if create then SD_OP_CREATE_AND_WRITE_OBJ
                       else SD_OP_WRITE_OBJ)
                 f3 datalen oid cow_oid offset 0 0 0 0 0).
  destruct (sd_exec (cluster_state w) c hdr data) as [r s'] eqn:E.
  assert (Hrun : forall fl',
    fl' mod 2 ^ 16 = fl mod 2 ^ 16 ->
    write_object sd_exec c oid cow_oid data datalen offset fl' create
      direct w = Some (two_stage r, after w s' [EvReq c hdr data])).
  { intros fl' Hfl.
    unfold write_object, bind, sd_run_sdreq, after, two_stage.
    rewrite Hfl. subst hdr f3 f2 f1.
    destruct create, direct, (cow_oid =? 0); cbn [negb] in E |- *;
      (match type of E with
       | ?f ?s ?c ?h ?d = _ =>
         match goal with
         | |- context [f s c ?h' d] => change h' with h; rewrite E
         end
       end);
      (destruct (ret_of r =? SD_RES_SUCCESS); simpl; [|reflexivity]);
      (destruct (Z.eqb_spec (result (rsp_of r)) SD_RES_SUCCESS) as [->|];
       reflexivity). }
  exists hdr, r, s'. split; [exact E|].
  split; [exact (Hrun fl eq_refl)|]. split; [apply two_stage_success|].
  subst hdr f3 f2 f1.
  cbn [opcode obj_oid obj_cow_oid data_length obj_offset flags].
  repeat (split; [reflexivity|]).
  split; [|split; [|split; [|split]]].
  - destruct direct, (cow_oid =? 0); cbn [negb];
      repeat (first [apply land_lor_same | apply land_lor_keep]).
  - intros Hc. destruct (Z.eqb_spec cow_oid 0); [contradiction|].
    cbn [negb]. destruct direct;
      repeat (first [apply land_lor_same | apply land_lor_keep]).
  - intros ->. apply land_lor_same.
  - intros -> ->. reflexivity.
  - intros fl' r' w' Hfl Hcall. rewrite (Hrun fl' Hfl) in Hcall.
    injection Hcall as <- <-. split; reflexivity.
Qed.

(** X6. [read_object] sends exactly one [SD_OP_READ_OBJ] for the object,
    length and offset given, with the direct flag when [direct] is set and
    no flag otherwise, and returns its two-stage result together with the
    buffer as the transport left it. *)
Theorem read_object_request c oid datalen offset (direct : bool)
    (w : world remote) :
  let hdr := mk_req SD_OP_READ_OBJ
               (if direct then SD_FLAG_CMD_DIRECT else 0)
               datalen oid 0 offset 0 0 0 0 0 in
  exists r s',
    sd_exec (cluster_state w) c hdr DBuffer = (r, s') /\
    read_object sd_exec c oid datalen offset direct w =
      Some ((two_stage r, inode_of r), after w s' [EvReq c hdr DBuffer]) /\
    (two_stage r = SD_RES_SUCCESS <->
     ret_of r = SD_RES_SUCCESS /\ result (rsp_of r) = SD_RES_SUCCESS).
Proof.
  intros hdr.
  destruct (sd_exec (cluster_state w) c hdr DBuffer) as [r s'] eqn:E.
  exists r, s'. split; [reflexivity|]. split; [|apply two_stage_success].
  unfold read_object, bind, sd_run_sdreq, after, two_stage. subst hdr.
  destruct direct;
    (match type of E with
     | ?f ?s ?c ?h ?d = _ =>
       match goal with
       | |- context [f s c ?h' d] => change h' with h; rewrite E
       end
     end);
    (destruct (ret_of r =? SD_RES_SUCCESS); simpl; [|reflexivity]);
    (destruct (Z.eqb_spec (result (rsp_of r)) SD_RES_SUCCESS) as [->|];
     reflexivity).
Qed.

(** *** Handles *)

(** X7. [lock_vdi] on a live handle always returns and touches nothing but
    the member [vid] of that handle, and not even that when it fails:
    [errno], every other handle, and the cluster, name, inode buffer and
    lock of the handle stay as they were. *)
Theorem lock_vdi_touches_only_vid p v (w : world remote) :
  heap w !! p = Some v ->
  exists res w' v',
    lock_vdi sd_exec p w = Some (res, w') /\
    errno w' = errno w /\
    (forall q, q <> p -> heap w' !! q = heap w !! q) /\
    heap w' !! p = Some v' /\
    v' = set_vid (vid v') v /\
    (res <> SD_RES_SUCCESS -> v' = v).
Proof.
  intros Hp.
  destruct (sd_exec (cluster_state w) (cluster v) req_lock_vdi
              (data_of_name (name v))) as [r s'] eqn:E.
  rewrite (lock_vdi_run sd_exec p v w r s' Hp E).
  destruct (Z.eqb_spec (ret_of r) SD_RES_SUCCESS) as [Hr|Hr].
  - exists (ret_of r). eexists. exists (set_vid (rsp_vdi_id (rsp_of r)) v).
    split; [reflexivity|]. cbn [heap errno].
    split; [reflexivity|]. split; [|split; [|split]].
    + intros q Hq. apply lookup_insert_ne. congruence.
    + apply lookup_insert_eq.
    + reflexivity.
    + intros Hne. contradiction.
  - exists (ret_of r). eexists. exists v.
    split; [reflexivity|]. cbn [heap errno].
    split; [reflexivity|]. split; [reflexivity|]. split; [exact Hp|].
    split; [destruct v; reflexivity | reflexivity].
Qed.

(** What a successful [sd_vdi_open] has done. *)
Lemma sd_vdi_open_some c name (w w1 : world remote) p :
  sd_vdi_open sd_exec c name w = Some (Some p, w1) ->
  exists r1 s1 r2,
    sd_exec (cluster_state w) c req_lock_vdi (data_of_name name) = (r1, s1) /\
    p = fresh (dom (heap w)) /\
    heap w1 =
      <[p := mk_vdi c (Some (inode_of r2)) (rsp_vdi_id (rsp_of r1)) name
               RW_UNLOCKED]> (heap w) /\
    errno w1 = errno w.
Proof.
  intros Hopen.
  destruct (sd_exec (cluster_state w) c req_lock_vdi (data_of_name name))
    as [r1 s1] eqn:E1.
  destruct (sd_exec s1 c (req_read_obj (vid_to_vdi_oid (rsp_vdi_id (rsp_of r1)))
              SD_INODE_SIZE 0) DBuffer) as [r2 s2] eqn:E2.
  destruct (sd_exec s2 c (req_release_vdi (rsp_vdi_id (rsp_of r1))) DNull)
    as [r3 s3] eqn:E3.
  rewrite (sd_vdi_open_run sd_exec c name w r1 s1 r2 s2 r3 s3 E1 E2 E3)
    in Hopen.
  exists r1, s1, r2. split; [reflexivity|].
  destruct (ret_of r1 =? SD_RES_SUCCESS); [|discriminate].
  destruct (ret_of r2 =? SD_RES_SUCCESS); [|discriminate].
  destruct (vdi_is_snapshot (inode_of r2)); [discriminate|].
  injection Hopen as <- <-. cbn [heap errno]. auto.
Qed.

(** X8. Open, then close: when [sd_vdi_open] has returned a handle, the
    release that [sd_vdi_close] sends names the identity the lock request
    was answered with, and when that release succeeds the close returns 0
    and the heap of handles and [errno] are again what they were before
    the open. *)
Theorem sd_vdi_open_close_round_trip c name (w w1 : world remote) p :
  sd_vdi_open sd_exec c name w = Some (Some p, w1) ->
  exists r1 s1 r s',
    sd_exec (cluster_state w) c req_lock_vdi (data_of_name name) = (r1, s1) /\
    sd_exec (cluster_state w1) c (req_release_vdi (rsp_vdi_id (rsp_of r1)))
      DNull = (r, s') /\
    (ret_of r = SD_RES_SUCCESS ->
     exists w2,
       sd_vdi_close sd_exec p w1 = Some (0, w2) /\
       heap w2 = heap w /\ errno w2 = errno w /\
       trace w2 =
         trace w1 ++
           [EvReq c (req_release_vdi (rsp_vdi_id (rsp_of r1))) DNull;
            EvFree p]).
Proof.
  intros Hopen.
  destruct (sd_vdi_open_some c name w w1 p Hopen)
    as (r1 & s1 & r2 & E1 & Hp & Hheap & Herrno).
  set (v := mk_vdi c (Some (inode_of r2)) (rsp_vdi_id (rsp_of r1)) name
              RW_UNLOCKED) in Hheap.
  assert (Hlive : heap w1 !! p = Some v).
  { rewrite Hheap. apply lookup_insert_eq. }
  destruct (sd_exec (cluster_state w1) c
              (req_release_vdi (rsp_vdi_id (rsp_of r1))) DNull)
    as [r s'] eqn:E.
  exists r1, s1, r, s'. split; [exact E1|]. split; [exact E|].
  intros Hr. eexists. split; [|split; [|split]].
  - unfold sd_vdi_close. unfold bind at 1.
    rewrite (unlock_vdi_run sd_exec p v w1 r s' Hlive E), Hr, Z.eqb_refl.
    cbn [negb]. unfold bind.
    rewrite (free_vdi_run p v (after w1 s' _) Hlive). reflexivity.
  - cbn [heap after]. rewrite Hheap. apply delete_insert_id.
    subst p. apply not_elem_of_dom. apply is_fresh.
  - cbn [errno after]. exact Herrno.
  - cbn [trace after]. rewrite <- app_assoc. reflexivity.
Qed.

(** X9. [sd_vdi_open] always returns.  When it returns [NULL] the heap of
    handles is exactly what it was: the handle it had allocated is gone
    again.  When it returns a handle, that address was not in use before,
    holds a handle now, and no other handle has been touched. *)
Theorem sd_vdi_open_heap c name (w : world remote) :
  exists o w',
    sd_vdi_open sd_exec c name w = Some (o, w') /\
    match o with
    | None => heap w' = heap w
    | Some p =>
      heap w !! p = None /\ is_Some (heap w' !! p) /\
      forall q, q <> p -> heap w' !! q = heap w !! q
    end.
Proof.
  destruct (sd_exec (cluster_state w) c req_lock_vdi (data_of_name name))
    as [r1 s1] eqn:E1.
  destruct (sd_exec s1 c (req_read_obj (vid_to_vdi_oid (rsp_vdi_id (rsp_of r1)))
              SD_INODE_SIZE 0) DBuffer) as [r2 s2] eqn:E2.
  destruct (sd_exec s2 c (req_release_vdi (rsp_vdi_id (rsp_of r1))) DNull)
    as [r3 s3] eqn:E3.
  rewrite (sd_vdi_open_run sd_exec c name w r1 s1 r2 s2 r3 s3 E1 E2 E3).
  destruct (ret_of r1 =? SD_RES_SUCCESS);
    [destruct (ret_of r2 =? SD_RES_SUCCESS);
       [destruct (vdi_is_snapshot (inode_of r2))|]|];
    do 2 eexists; (split; [reflexivity|]); cbn [heap]; try reflexivity.
  split; [apply not_elem_of_dom, is_fresh|].
  split; [rewrite lookup_insert_eq; eauto|].
  intros q Hq. apply lookup_insert_ne. congruence.
Qed.

End VdiMore.

(** * Further properties of the request queue *)
Module QueueMoreFacts.

Import Queue QueueTrace QueueFacts.

Lemma run_app t prog1 prog2 q :
  run t (prog1 ++ prog2) q =
  match run t prog1 q with
  | Some q' => run t prog2 q'
  | None => None
  end.
Proof.
  revert q. induction prog1 as [|a prog1 IH]; intros q; [reflexivity|].
  cbn [run app]. destruct (exec t a q); [apply IH | reflexivity].
Qed.

(** X13. One thread that calls [queue_request] for several requests in a
    row, from a free lock and with room in the counter, leaves them at the
    tail of the list in the order of the calls, the lock free, and the
    counter up by their number. *)
Theorem queue_requests_in_call_order t reqs q :
  request_lock q = rw_free ->
  request_fd q + Z.of_nat (length reqs) <= eventfd_max ->
  run t (queue_requests reqs) q =
  Some (mk_queue rw_free (request_list q ++ reqs)
          (request_fd q + Z.of_nat (length reqs))).
Proof.
  revert q. induction reqs as [|req reqs IH]; intros q Hfree Hroom.
  - cbn. rewrite app_nil_r, Z.add_0_r. destruct q. cbn in Hfree. subst.
    reflexivity.
  - cbn [length] in Hroom. rewrite Nat2Z.inj_succ in Hroom.
    change (queue_requests (req :: reqs))
      with (queue_request req ++ queue_requests reqs).
    rewrite run_app, run_queue_request by (assumption || lia).
    rewrite IH by (cbn; (reflexivity || lia)).
    cbn [request_list request_fd length].
    rewrite <- app_assoc, Nat2Z.inj_succ. f_equal. f_equal. lia.
Qed.

Lemma steps_enqueuers st ls st' :
  steps st ls st' ->
  Forall enqueuer (snd st) -> Forall enqueuer (snd st').
Proof.
  induction 1 as [st|[q p] l [q' p'] ls st'' Hstep _ IH]; [auto|].
  intros Hall. apply IH. cbn [snd] in *.
  inversion Hstep as [q0 p0 t a rest q1 Hp He]; subst.
  apply Forall_insert; [exact Hall|].
  eapply enqueuer_tail. eapply Forall_lookup_1; eauto.
Qed.

Lemma enqueuers_all reqs : Forall enqueuer (enqueuers reqs).
Proof.
  unfold enqueuers. apply Forall_fmap. apply Forall_forall.
  intros req _. exists req, 0%nat. reflexivity.
Qed.

(** A thread that still has to append still has to signal. *)
Lemma pending_le_to_signal p :
  Forall enqueuer p ->
  Z.of_nat (length (pool_pending p)) <= pool_to_signal p.
Proof.
  induction 1 as [|prog p Hprog _ IH]; [reflexivity|].
  change (pool_pending (prog :: p)) with (pending prog ++ pool_pending p).
  change (pool_to_signal (prog :: p)) with (to_signal prog + pool_to_signal p).
  rewrite length_app, Nat2Z.inj_add.
  assert (Z.of_nat (length (pending prog)) <= to_signal prog).
  { destruct (enqueuer_cases prog Hprog)
      as (req & [->|[->|[->|[->| ->]]]]); cbn; lia. }
  lia.
Qed.

(** X15. With any number of threads each enqueueing one request, in every
    interleaving and at every moment, the counter has not grown by more
    than the list has: no unit is signalled before its request is in the
    list. *)
Theorem signals_never_ahead_of_appends reqs q0 ls q p :
  steps (q0, enqueuers reqs) ls (q, p) ->
  request_fd q - request_fd q0 <=
  Z.of_nat (length (request_list q)) - Z.of_nat (length (request_list q0)).
Proof.
  intros Hsteps.
  destruct (steps_conserves _ _ _ Hsteps) as [Hlist Hfd].
  pose proof (steps_enqueuers _ _ _ Hsteps (enqueuers_all reqs)) as Hall.
  cbn [fst snd] in *.
  rewrite enqueuers_pending in Hlist. rewrite enqueuers_to_signal in Hfd.
  apply Permutation_length in Hlist. rewrite !length_app in Hlist.
  pose proof (pending_le_to_signal p Hall). lia.
Qed.

End QueueMoreFacts.

(** * The read and write path *)
Module IoFacts.

Import Queue Io.

Lemma first_free_spec w fd :
  first_free w = Some fd ->
  fds w !! fd = None /\ 0 <= fd < fd_limit w.
Proof.
  unfold first_free. intros H. apply List.find_some in H as [Hin Hfree].
  apply bool_decide_eq_true in Hfree. split; [exact Hfree|].
  apply list_elem_of_In, elem_of_seqZ in Hin. lia.
Qed.

Section Calls.

Variable SD_RES_SYSTEM_ERROR : Z.
Variable others : io_world -> io_world.

Lemma alloc_request_fails vdi buf count offset iswrite w :
  first_free w = None ->
  alloc_request SD_RES_SYSTEM_ERROR vdi buf count offset iswrite w =
  Some (None, set_io_errno SD_RES_SYSTEM_ERROR w).
Proof.
  intros H. unfold alloc_request, io_bind, eventfd. rewrite H. reflexivity.
Qed.

Lemma alloc_request_succeeds vdi buf count offset iswrite w fd :
  first_free w = Some fd ->
  alloc_request SD_RES_SYSTEM_ERROR vdi buf count offset iswrite w =
  Some (Some (fresh (dom (reqs w))),
        mk_io (queue w) (<[fd := Eventfd 0]> (fds w)) (fd_limit w)
          (<[fresh (dom (reqs w)) :=
               mk_io_request (mk_request vdi count offset iswrite fd) buf 0]>
             (reqs w))
          (io_errno w)).
Proof.
  intros H. destruct (first_free_spec w fd H) as [_ [Hfd _]].
  unfold alloc_request, io_bind, eventfd. rewrite H.
  destruct (Z.ltb_spec fd 0); [lia|]. reflexivity.
Qed.

(** X17. When no file descriptor is left for the eventfd, [sd_vdi_read] and
    [sd_vdi_write] return [SD_RES_SYSTEM_ERROR] without waiting: nothing
    has been queued, allocated or opened, and only [errno] has changed. *)
Theorem sd_vdi_read_write_without_descriptor t vdi buf count offset w :
  first_free w = None ->
  sd_vdi_read SD_RES_SYSTEM_ERROR others t vdi buf count offset w =
    Some (SD_RES_SYSTEM_ERROR, set_io_errno SD_RES_SYSTEM_ERROR w) /\
  sd_vdi_write SD_RES_SYSTEM_ERROR others t vdi buf count offset w =
    Some (SD_RES_SYSTEM_ERROR, set_io_errno SD_RES_SYSTEM_ERROR w).
Proof.
  intros H. unfold sd_vdi_read, sd_vdi_write. unfold io_bind at 1 7.
  rewrite !alloc_request_fails by exact H. split; reflexivity.
Qed.

Section Completion.

Variables (t : nat) (vdi : vdi_ptr) (buf count offset : Z).
Variables (w : io_world) (fd : Z).

Local Abbreviation waiting iswrite :=
  (Io.waiting vdi buf count offset iswrite w fd).
Local Abbreviation released := (Io.released w fd).

Hypothesis descriptor : first_free w = Some fd.
Hypothesis lock_free : request_lock (queue w) = rw_free.
Hypothesis room : request_fd (queue w) + 1 <= eventfd_max.

Ltac run_call iswrite Hreq Hfd Hn :=
  unfold io_bind at 1;
  rewrite (alloc_request_succeeds vdi buf count offset iswrite w fd descriptor);
  unfold io_bind at 1; unfold io_queue_request, io_bind at 1;
  unfold load_request at 1; cbn [reqs queue];
  rewrite lookup_insert_eq; cbn [req_desc];
  rewrite (QueueFacts.run_queue_request t _ _ lock_free room);
  unfold io_bind at 1; unfold load_request at 1;
  cbn [set_queue reqs queue fds fd_limit io_errno];
  rewrite lookup_insert_eq; cbn [req_desc req_efd];
  unfold io_bind at 1; unfold eventfd_xread;
  change (set_queue _ _) with (Io.waiting vdi buf count offset iswrite w fd);
  cbv zeta; rewrite Hfd;
  match type of Hn with
  | 0 < ?k => destruct (Z.ltb_spec 0 k) as [_|Hle]; [|lia]
  end;
  unfold io_bind at 1; unfold load_request at 1;
  cbn [set_fds reqs]; rewrite Hreq;
  cbv zeta; unfold io_bind at 1; unfold free_request, io_bind at 1;
  unfold load_request at 1; cbn [set_fds reqs]; rewrite Hreq;
  unfold io_bind, close, free; cbn [set_fds reqs]; rewrite Hreq;
  reflexivity.

Lemma sd_vdi_read_run r n :
  reqs (others (waiting false)) !! fresh (dom (reqs w)) = Some r ->
  fds (others (waiting false)) !! fd = Some (Eventfd n) -> 0 < n ->
  sd_vdi_read SD_RES_SYSTEM_ERROR others t vdi buf count offset w =
  Some (req_ret r, released r (others (waiting false))).
Proof.
  intros Hreq Hfd Hn. unfold sd_vdi_read. run_call false Hreq Hfd Hn.
Qed.

Lemma sd_vdi_write_run r n :
  reqs (others (waiting true)) !! fresh (dom (reqs w)) = Some r ->
  fds (others (waiting true)) !! fd = Some (Eventfd n) -> 0 < n ->
  sd_vdi_write SD_RES_SYSTEM_ERROR others t vdi buf count offset w =
  Some (req_ret r, released r (others (waiting true))).
Proof.
  intros Hreq Hfd Hn. unfold sd_vdi_write. run_call true Hreq Hfd Hn.
Qed.

End Completion.

(** X18. A [sd_vdi_read] or [sd_vdi_write] that gets its eventfd, finds
    the lock of the queue free and room in its counter, and is signalled
    on its eventfd while it waits, returns the value that its own request
    holds in [ret] after the wait.  While it waited, its request was the
    last of the list, with the direction of the call, and the counter of
    the queue was one up. *)
Theorem sd_vdi_read_write_result
    (iswrite : bool) t vdi buf count offset w fd r n :
  let w1 := waiting vdi buf count offset iswrite w fd in
  first_free w = Some fd ->
  request_lock (queue w) = rw_free ->
  request_fd (queue w) + 1 <= eventfd_max ->
  reqs (others w1) !! fresh (dom (reqs w)) = Some r ->
  fds (others w1) !! fd = Some (Eventfd n) -> 0 < n ->
  (if iswrite
   then sd_vdi_write SD_RES_SYSTEM_ERROR others t vdi buf count offset w
   else sd_vdi_read SD_RES_SYSTEM_ERROR others t vdi buf count offset w)
  = Some (req_ret r, released w fd r (others w1)) /\
  request_list (queue w1) =
    request_list (queue w) ++ [mk_request vdi count offset iswrite fd] /\
  request_fd (queue w1) = request_fd (queue w) + 1.
Proof.
  intros w1 Hd Hl Hroom Hreq Hfd Hn. subst w1.
  split; [|split; reflexivity].
  destruct iswrite.
  - eapply sd_vdi_write_run; eauto.
  - eapply sd_vdi_read_run; eauto.
Qed.

(** X19. Such a call gives back what it took: when the others, while it
    waits, do no more to the descriptors and to the allocated requests
    than signal its eventfd and fill in its request, then after the call
    the descriptors and the allocated requests are what they were before
    it. *)
Theorem sd_vdi_read_write_releases
    (iswrite : bool) t vdi buf count offset w fd r n :
  let w1 := waiting vdi buf count offset iswrite w fd in
  first_free w = Some fd ->
  request_lock (queue w) = rw_free ->
  request_fd (queue w) + 1 <= eventfd_max ->
  0 < n ->
  fds (others w1) = <[fd := Eventfd n]> (fds w1) ->
  reqs (others w1) = <[fresh (dom (reqs w)) := r]> (reqs w1) ->
  req_efd (req_desc r) = fd ->
  exists w3,
    (if iswrite
     then sd_vdi_write SD_RES_SYSTEM_ERROR others t vdi buf count offset w
     else sd_vdi_read SD_RES_SYSTEM_ERROR others t vdi buf count offset w)
    = Some (req_ret r, w3) /\
    fds w3 = fds w /\ reqs w3 = reqs w.
Proof.
  intros w1 Hd Hl Hroom Hn Hfds Hreqs Hefd.
  assert (Hreq : reqs (others w1) !! fresh (dom (reqs w)) = Some r).
  { rewrite Hreqs. apply lookup_insert_eq. }
  assert (Hfd : fds (others w1) !! fd = Some (Eventfd n)).
  { rewrite Hfds. apply lookup_insert_eq. }
  exists (released w fd r (others w1)). split; [|split].
  - destruct iswrite.
    + eapply sd_vdi_write_run; eauto.
    + eapply sd_vdi_read_run; eauto.
  - unfold released. cbn [fds set_fds set_reqs]. rewrite Hefd, Hfds.
    subst w1. cbn [fds waiting].
    rewrite !insert_insert_eq. apply delete_insert_id.
    apply (first_free_spec w fd Hd).
  - unfold released. cbn [reqs set_fds set_reqs]. rewrite Hreqs.
    subst w1. cbn [reqs waiting].
    rewrite insert_insert_eq. apply delete_insert_id.
    apply not_elem_of_dom. apply is_fresh.
Qed.

End Calls.

End IoFacts.

(** * The further properties on the instance *)
Module MoreDemoFacts.

Import Demo DemoMore.
#[local] Existing Instance demo_proto.
Local Open Scope string_scope.

Lemma sd_vdi_snapshot_rejects_locally_witness :
  ((Some EmptyString = None \/ Some EmptyString = Some EmptyString) \/
   (Some "vol1" = None \/ Some "vol1" = Some EmptyString)) /\
  exists line,
    is_req line = false /\
    sd_vdi_snapshot play 0%nat (Some "vol1") (Some EmptyString) (start [ok 3])
      = Some (SD_RES_INVALID_PARMS, logged (start [ok 3]) [line]).
Proof.
  assert (H : (Some EmptyString = None \/ Some EmptyString = Some EmptyString)
              \/ (Some "vol1" = None \/ Some "vol1" = Some EmptyString))
    by (left; right; reflexivity).
  split; [exact H|].
  exact (sd_vdi_snapshot_rejects_locally play 0%nat (Some "vol1")
           (Some EmptyString) (start [ok 3]) H).
Defined.

Lemma sd_vdi_snapshot_fetch_failure_witness :
  "vol1" <> EmptyString /\ "t1" <> EmptyString /\
  SD_RES_NO_TAG <> SD_RES_SUCCESS /\
  find_vdi play 0%nat "vol1" (Some "t1") false (start no_head_script)
    = Some ((SD_RES_NO_TAG, None), no_head_w1) /\
  vdi_read_inode play 0%nat "vol1" None true no_head_w1
    = Some ((8, None), no_head_w2) /\
  8 <> SD_RES_SUCCESS /\
  exists w' sent,
    sd_vdi_snapshot play 0%nat (Some "vol1") (Some "t1") (start no_head_script)
      = Some (8, w') /\
    opcodes (trace w') = (opcodes (trace (start no_head_script)) ++ sent)%list /\
    (SD_OP_WRITE_OBJ ∉ sent) /\ (SD_OP_NEW_VDI ∉ sent).
Proof.
  assert (H1 : "vol1" <> EmptyString) by discriminate.
  assert (H2 : "t1" <> EmptyString) by discriminate.
  assert (H3 : SD_RES_NO_TAG <> SD_RES_SUCCESS) by discriminate.
  assert (H4 : find_vdi play 0%nat "vol1" (Some "t1") false
                 (start no_head_script)
               = Some ((SD_RES_NO_TAG, None), no_head_w1)) by reflexivity.
  assert (H5 : vdi_read_inode play 0%nat "vol1" None true no_head_w1
               = Some ((8, None), no_head_w2)) by reflexivity.
  assert (H6 : 8 <> SD_RES_SUCCESS) by discriminate.
  repeat (split; [assumption|]).
  exact (sd_vdi_snapshot_fetch_failure play 0%nat "vol1" "t1"
           (start no_head_script) no_head_w1 no_head_w2 None 8 None
           H1 H2 H3 H4 H5 H6).
Defined.

Lemma vdi_read_inode_resolves_then_reads_witness :
  play [ok 3; ok_inode head_inode] 0%nat req_get_vdi_info
    (name_tag_buf "vol1" None) = (ok 3, [ok_inode head_inode]) /\
  play [ok_inode head_inode] 0%nat
    (req_read_obj (vid_to_vdi_oid 3) SD_INODE_HEADER_SIZE SD_FLAG_CMD_DIRECT)
    DBuffer = (ok_inode head_inode, []) /\
  vdi_read_inode play 0%nat "vol1" None true
    (start [ok 3; ok_inode head_inode]) =
  Some ((SD_RES_SUCCESS, Some head_inode),
        mk_world [] ∅ 0 [lookup_ev None; read_header_ev]).
Proof.
  assert (H1 : play [ok 3; ok_inode head_inode] 0%nat req_get_vdi_info
                 (name_tag_buf "vol1" None) = (ok 3, [ok_inode head_inode]))
    by reflexivity.
  assert (H2 : play [ok_inode head_inode] 0%nat
                 (req_read_obj (vid_to_vdi_oid 3) SD_INODE_HEADER_SIZE
                    SD_FLAG_CMD_DIRECT) DBuffer = (ok_inode head_inode, []))
    by reflexivity.
  repeat (split; [assumption|]).
  exact (vdi_read_inode_resolves_then_reads play 0%nat "vol1" None true
           (start [ok 3; ok_inode head_inode]) (ok 3) [ok_inode head_inode]
           (ok_inode head_inode) [] H1 H2).
Defined.

Lemma find_vdi_identity_iff_success_witness :
  find_vdi play 0%nat "vol1" (Some "t1") true (start [ok 3])
    = Some ((SD_RES_SUCCESS, Some 3), lookup_done) /\
  (is_Some (Some 3) <-> SD_RES_SUCCESS = SD_RES_SUCCESS /\ true = true).
Proof.
  assert (H : find_vdi play 0%nat "vol1" (Some "t1") true (start [ok 3])
              = Some ((SD_RES_SUCCESS, Some 3), lookup_done)) by reflexivity.
  split; [exact H|].
  exact (proj1 (find_vdi_identity_iff_success play 0%nat "vol1" (Some "t1")
                  true (start [ok 3]) lookup_done SD_RES_SUCCESS (Some 3) H)).
Defined.

Lemma lock_vdi_touches_only_vid_witness :
  heap (with_handle [tr_failed 7]) !! 1%positive = Some open_handle /\
  exists res w' v',
    lock_vdi play 1%positive (with_handle [tr_failed 7]) = Some (res, w') /\
    heap w' !! 1%positive = Some v' /\
    (res <> SD_RES_SUCCESS -> v' = open_handle).
Proof.
  assert (H : heap (with_handle [tr_failed 7]) !! 1%positive
              = Some open_handle) by reflexivity.
  split; [exact H|].
  destruct (lock_vdi_touches_only_vid play 1%positive open_handle
              (with_handle [tr_failed 7]) H)
    as (res & w' & v' & Hrun & _ & _ & Hv' & _ & Hfail).
  exists res, w', v'. auto.
Defined.

Lemma sd_vdi_open_close_round_trip_witness :
  sd_vdi_open play 0%nat (Some "vol1") (start open_script)
    = Some (Some 1%positive, opened) /\
  exists w2,
    sd_vdi_close play 1%positive opened = Some (0, w2) /\
    heap w2 = heap (start open_script).
Proof.
  assert (H : sd_vdi_open play 0%nat (Some "vol1") (start open_script)
              = Some (Some 1%positive, opened)) by (vm_compute; reflexivity).
  split; [exact H|].
  destruct (sd_vdi_open_close_round_trip play 0%nat (Some "vol1")
              (start open_script) opened 1%positive H)
    as (r1 & s1 & r & s' & E1 & E & Hclose).
  cbn in E1. injection E1 as <- <-.
  cbn in E. injection E as <- <-.
  destruct Hclose as (w2 & Hrun & Hheap & _); [reflexivity|].
  exists w2. auto.
Defined.

Lemma write_object_request_witness :
  65536 mod 2 ^ 16 = 0 mod 2 ^ 16 /\
  write_object play 0%nat (vid_to_vdi_oid 3) 0 (DTag "t1") SD_MAX_VDI_TAG_LEN
    offsetof_sd_inode_tag 65536 false false (start [ok 0]) =
    Some (0, mk_world [] ∅ 0 [write_tag_ev]) /\
  write_object play 0%nat (vid_to_vdi_oid 3) 0 (DTag "t1") SD_MAX_VDI_TAG_LEN
    offsetof_sd_inode_tag 0 false false (start [ok 0]) =
    Some (0, mk_world [] ∅ 0 [write_tag_ev]).
Proof.
  assert (H1 : 65536 mod 2 ^ 16 = 0 mod 2 ^ 16) by reflexivity.
  assert (H2 : write_object play 0%nat (vid_to_vdi_oid 3) 0 (DTag "t1")
                 SD_MAX_VDI_TAG_LEN offsetof_sd_inode_tag 65536 false false
                 (start [ok 0]) =
               Some (0, mk_world [] ∅ 0 [write_tag_ev])) by reflexivity.
  split; [exact H1|]. split; [exact H2|].
  destruct (write_object_request play 0%nat (vid_to_vdi_oid 3) 0 (DTag "t1")
              SD_MAX_VDI_TAG_LEN offsetof_sd_inode_tag 0 false false
              (start [ok 0]))
    as (hdr & r & s' & _ & Hrun & _ & _ & _ & _ & _ & _ & _ & _ & _ & _ & Hsame).
  destruct (Hsame 65536 _ _ H1 H2) as [Hr Hw].
  rewrite Hrun, <- Hr, <- Hw. reflexivity.
Defined.

Lemma sd_vdi_snapshot_protocol_witness :
  SD_RES_INVALID_PARMS <> SD_RES_SUCCESS /\
  sd_vdi_snapshot play 0%nat (Some "vol1") (Some "t1") (start snapshot_script)
    = Some (SD_RES_SUCCESS, snapshot_done) /\
  exists sent,
    opcodes (trace snapshot_done)
      = (opcodes (trace (start snapshot_script)) ++ sent)%list /\
    sent = [SD_OP_GET_VDI_INFO; SD_OP_GET_VDI_INFO; SD_OP_READ_OBJ;
            SD_OP_WRITE_OBJ; SD_OP_NEW_VDI].
Proof.
  assert (H1 : SD_RES_INVALID_PARMS <> SD_RES_SUCCESS) by discriminate.
  assert (H2 : sd_vdi_snapshot play 0%nat (Some "vol1") (Some "t1")
                 (start snapshot_script)
               = Some (SD_RES_SUCCESS, snapshot_done)) by reflexivity.
  repeat (split; [assumption|]).
  destruct (sd_vdi_snapshot_protocol play 0%nat (Some "vol1") (Some "t1")
              (start snapshot_script) snapshot_done SD_RES_SUCCESS H1 H2)
    as (sent & Hsent & _ & Hall).
  exists sent. split; [exact Hsent | apply Hall; reflexivity].
Defined.

Lemma sd_vdi_clone_protocol_witness :
  SD_RES_INVALID_PARMS <> SD_RES_SUCCESS /\
  sd_vdi_clone play 0%nat (Some "vol1") (Some "t1") (Some "vol2")
    (start clone_script) = Some (SD_RES_SUCCESS, clone_done) /\
  exists sent,
    opcodes (trace clone_done)
      = (opcodes (trace (start clone_script)) ++ sent)%list /\
    sent = [SD_OP_GET_VDI_INFO; SD_OP_READ_OBJ; SD_OP_NEW_VDI].
Proof.
  assert (H1 : SD_RES_INVALID_PARMS <> SD_RES_SUCCESS) by discriminate.
  assert (H2 : sd_vdi_clone play 0%nat (Some "vol1") (Some "t1") (Some "vol2")
                 (start clone_script) = Some (SD_RES_SUCCESS, clone_done))
    by reflexivity.
  repeat (split; [assumption|]).
  destruct (sd_vdi_clone_protocol play 0%nat (Some "vol1") (Some "t1")
              (Some "vol2") (start clone_script) clone_done SD_RES_SUCCESS
              H1 H2)
    as (sent & Hsent & _ & Hall).
  exists sent. split; [exact Hsent | apply Hall; reflexivity].
Defined.

End MoreDemoFacts.

(** * The request queue and the read and write path on the instance *)
Module MoreQueueDemoFacts.

Import Queue QueueTrace Io Demo DemoMore.

Lemma queue_requests_in_call_order_witness :
  request_lock empty_queue = rw_free /\
  request_fd empty_queue + Z.of_nat (length [req0; req1]) <= eventfd_max /\
  run 0%nat (queue_requests [req0; req1]) empty_queue = Some full_queue.
Proof.
  assert (H1 : request_lock empty_queue = rw_free) by reflexivity.
  assert (H2 : request_fd empty_queue + Z.of_nat (length [req0; req1])
               <= eventfd_max) by discriminate.
  repeat (split; [assumption|]).
  exact (QueueMoreFacts.queue_requests_in_call_order 0%nat [req0; req1]
           empty_queue H1 H2).
Defined.

Lemma signals_never_ahead_of_appends_witness :
  steps (empty_queue, enqueuers [req0; req1]) interleaving
        (full_queue, [[]; []]) /\
  request_fd full_queue - request_fd empty_queue <=
  Z.of_nat (length (request_list full_queue))
  - Z.of_nat (length (request_list empty_queue)).
Proof.
  split; [exact QueueDemoFacts.interleaving_steps|].
  exact (QueueMoreFacts.signals_never_ahead_of_appends _ _ _ _ _
           QueueDemoFacts.interleaving_steps).
Defined.

Lemma sd_vdi_read_write_without_descriptor_witness :
  first_free io_exhausted = None /\
  sd_vdi_read 6 dispatcher 0%nat 1%positive 77 4096 0 io_exhausted =
    Some (6, set_io_errno 6 io_exhausted) /\
  sd_vdi_write 6 dispatcher 0%nat 1%positive 77 4096 0 io_exhausted =
    Some (6, set_io_errno 6 io_exhausted).
Proof.
  assert (H : first_free io_exhausted = None) by (vm_compute; reflexivity).
  split; [exact H|].
  exact (IoFacts.sd_vdi_read_write_without_descriptor 6 dispatcher 0%nat
           1%positive 77 4096 0 io_exhausted H).
Defined.

Lemma sd_vdi_read_write_result_witness :
  first_free io_start = Some 3 /\
  request_lock (queue io_start) = rw_free /\
  request_fd (queue io_start) + 1 <= eventfd_max /\
  reqs (dispatcher (waiting 1%positive 77 4096 0 false io_start 3))
    !! fresh (dom (reqs io_start)) = Some served /\
  fds (dispatcher (waiting 1%positive 77 4096 0 false io_start 3)) !! 3
    = Some (Eventfd 1) /\
  0 < 1 /\
  sd_vdi_read 6 dispatcher 0%nat 1%positive 77 4096 0 io_start =
    Some (42,
          released io_start 3 served
            (dispatcher (waiting 1%positive 77 4096 0 false io_start 3))).
Proof.
  assert (H1 : first_free io_start = Some 3) by (vm_compute; reflexivity).
  assert (H2 : request_lock (queue io_start) = rw_free) by reflexivity.
  assert (H3 : request_fd (queue io_start) + 1 <= eventfd_max)
    by discriminate.
  assert (H4 : reqs (dispatcher (waiting 1%positive 77 4096 0 false io_start 3))
                 !! fresh (dom (reqs io_start)) = Some served)
    by (vm_compute; reflexivity).
  assert (H5 : fds (dispatcher (waiting 1%positive 77 4096 0 false io_start 3))
                 !! 3 = Some (Eventfd 1)) by (vm_compute; reflexivity).
  assert (H6 : 0 < 1) by reflexivity.
  repeat (split; [assumption|]).
  exact (proj1 (IoFacts.sd_vdi_read_write_result 6 dispatcher false 0%nat
                  1%positive 77 4096 0 io_start 3 served 1
                  H1 H2 H3 H4 H5 H6)).
Defined.

Lemma sd_vdi_read_write_releases_witness :
  first_free io_start = Some 3 /\
  fds (dispatcher (waiting 1%positive 77 4096 0 false io_start 3))
    = <[3 := Eventfd 1]> (fds (waiting 1%positive 77 4096 0 false io_start 3)) /\
  reqs (dispatcher (waiting 1%positive 77 4096 0 false io_start 3))
    = <[fresh (dom (reqs io_start)) := served]>
        (reqs (waiting 1%positive 77 4096 0 false io_start 3)) /\
  exists w3,
    sd_vdi_read 6 dispatcher 0%nat 1%positive 77 4096 0 io_start
      = Some (42, w3) /\
    fds w3 = fds io_start /\ reqs w3 = reqs io_start.
Proof.
  assert (H1 : first_free io_start = Some 3) by (vm_compute; reflexivity).
  assert (H2 : request_lock (queue io_start) = rw_free) by reflexivity.
  assert (H3 : request_fd (queue io_start) + 1 <= eventfd_max)
    by discriminate.
  assert (H4 : 0 < 1) by reflexivity.
  assert (H5 : fds (dispatcher (waiting 1%positive 77 4096 0 false io_start 3))
               = <[3 := Eventfd 1]>
                   (fds (waiting 1%positive 77 4096 0 false io_start 3)))
    by (vm_compute; reflexivity).
  assert (H6 : reqs (dispatcher (waiting 1%positive 77 4096 0 false io_start 3))
               = <[fresh (dom (reqs io_start)) := served]>
                   (reqs (waiting 1%positive 77 4096 0 false io_start 3)))
    by (vm_compute; reflexivity).
  assert (H7 : req_efd (req_desc served) = 3) by reflexivity.
  repeat (split; [assumption|]).
  exact (IoFacts.sd_vdi_read_write_releases 6 dispatcher false 0%nat
           1%positive 77 4096 0 io_start 3 served 1
           H1 H2 H3 H4 H5 H6 H7).
Defined.

End MoreQueueDemoFacts.
